(** * spotify-timeline: the listening-history analyzer

    A shallow embedding of [src/python/spotify_analyzer.py] and the
    properties its specification states about it.

    Conventions of the embedding.
    - A pandas [DataFrame] is the list of its rows; the columns that
      [get_comprehensive_stats] adds in place ([hour], [day], [month],
      [year]) are explicit optional columns of the frame, so that the
      mutation is visible to the code that runs afterwards.
    - Timestamps are pandas [Timestamp]s: integers counting nanoseconds
      since 1970-01-01T00:00:00 UTC.
    - The analyses are modelled on frames whose [ts] column holds
      timestamps throughout.  The loader can also return rows whose
      timestamp is NaT; what the script does with such a frame is not
      modelled ([Unmodelled]).
    - Integer columns are int64: sums of [ms_played] wrap around.
    - Floating-point numbers are idealised as exact rationals; [None]
      stands for NaN.  Rationals are kept in lowest terms ([Qred]) so
      that equal numbers are equal terms.  The doubles of the code
      differ from them by rounding errors in the last bits; [round] can
      turn such an error into a hundredth (see [round2]).
    - Python exceptions are values of [exn]; a computation that may raise
      has type [result].
    - A [Series] with an index (the result of [value_counts], a [dict]
      made by [to_dict]) is an association list: order matters. *)

From Stdlib Require Import List ZArith QArith Qreduction Bool Arith Lia.
From Stdlib Require Import String Ascii Permutation Sorted.
From Stdlib Require Import DecimalString Lqa.
Import ListNotations.

Set Implicit Arguments.
Local Open Scope Z_scope.

(** ** Exceptions and results *)

Inductive exn : Type :=
| KeyError (column : string)
    (* indexing a frame by a column it does not have *)
| ToDatetimeError
    (* pd.to_datetime: a string of the column does not parse (a
       ValueError of the library; the analyzer adds nothing to it) *)
| ArgmaxOfEmpty
    (* Series.idxmax on an empty series (a ValueError) *)
| NotJSONSerializable.
    (* json.dumps: an object that is none of the types it encodes (a
       TypeError) *)

(** The outcome of a computation: it returns, it raises, or it leaves
    the part of the library that is modelled here. *)
Inductive result (A : Type) : Type :=
| Ok (a : A)
| Raise (e : exn)
| Unmodelled.

Arguments Ok {A} a.
Arguments Raise {A} e.
Arguments Unmodelled {A}.

Definition bind {A B} (m : result A) (k : A -> result B) : result B :=
  match m with
  | Ok a => k a
  | Raise e => Raise e
  | Unmodelled => Unmodelled
  end.

Notation "x <- m ;; k" := (bind m (fun x => k))
  (at level 61, m at next level, right associativity).
Notation "' p <- m ;; k" := (bind m (fun x => match x with p => k end))
  (at level 61, p pattern, m at next level, right associativity).

(** ** Numbers *)

(** A Python/numpy float: an exact rational, or NaN. *)
Abbreviation float := (option Q).
Definition NaN : float := None.

Definition of_Z (z : Z) : Q := z # 1.
Definition of_nat (n : nat) : Q := Z.of_nat n # 1.

(** [a / b] on numpy scalars: 0/0 is NaN (with a warning, not an
    exception).  The numerators here are sums over a frame, which are 0
    when the frame is empty, so x/0 with x <> 0 does not arise. *)
Definition fdiv (a b : Q) : float :=
  if Qeq_bool b 0 then NaN else Some (Qred (a / b)).

Definition fmul (x : float) (c : Q) : float :=
  option_map (fun q => Qred (q * c)) x.

Definition fdivc (x : float) (c : Q) : float :=
  option_map (fun q => Qred (q / c)) x.

(** Rounding to the nearest integer, ties to even. *)
Definition round_half_even (q : Q) : Z :=
  let n := Qnum q in
  let d := Zpos (Qden q) in
  let f := n / d in
  let r2 := 2 * (n mod d) in
  if r2 <? d then f
  else if d <? r2 then f + 1
  else if Z.even f then f else f + 1.

(** [round(x, 2)]; [round(nan, 2)] is nan.  The code rounds a double,
    this rounds the exact number: the two agree unless the exact number
    lies within the last bit of a double of a tie between two
    hundredths, where they can differ by one hundredth.  The properties
    below do not rest on which way such a tie goes. *)
Definition round2 (x : float) : float :=
  option_map (fun q => Qred (round_half_even (q * 100) # 100)) x.

Definition zsum (l : list Z) : Z := fold_right Z.add 0 l.

(** An integer as a cell of an int64 column: arithmetic wraps around. *)
Definition int64 (z : Z) : Z := (z + 2 ^ 63) mod 2 ^ 64 - 2 ^ 63.
Definition nsum (l : list nat) : nat := fold_right Nat.add 0%nat l.
Definition qsum (l : list Q) : Q := fold_right Qplus 0%Q l.

(** ** Calendar: the [.dt] accessors of a timestamp column *)

Module Calendar.

Definition ns_per_second : Z := 1000000000.
Definition ns_per_minute : Z := 60 * ns_per_second.
Definition ns_per_hour : Z := 60 * ns_per_minute.
Definition ns_per_day : Z := 24 * ns_per_hour.

(** Days since 1970-01-01 (floor division, also before the epoch). *)
Definition day_number (t : Z) : Z := t / ns_per_day.

Definition hour (t : Z) : Z := (t / ns_per_hour) mod 24.

(** 0 = Monday; 1970-01-01 was a Thursday. *)
Definition weekday (t : Z) : Z := (day_number t + 3) mod 7.

Definition day_names : list string :=
  ["Monday"; "Tuesday"; "Wednesday"; "Thursday"; "Friday"; "Saturday";
   "Sunday"]%string.

Definition day_name (t : Z) : string :=
  nth (Z.to_nat (weekday t)) day_names ""%string.

(** Proleptic Gregorian date (year, month, day) of a day number. *)
Definition civil_from_days (z0 : Z) : Z * Z * Z :=
  let z := z0 + 719468 in
  let era := z / 146097 in
  let doe := z - era * 146097 in
  let yoe := (doe - doe / 1460 + doe / 36524 - doe / 146096) / 365 in
  let y := yoe + era * 400 in
  let doy := doe - (365 * yoe + yoe / 4 - yoe / 100) in
  let mp := (5 * doy + 2) / 153 in
  let d := doy - (153 * mp + 2) / 5 + 1 in
  let m := if mp <? 10 then mp + 3 else mp - 9 in
  (if m <=? 2 then y + 1 else y, m, d).

Definition days_from_civil (y0 m d : Z) : Z :=
  let y := if m <=? 2 then y0 - 1 else y0 in
  let era := y / 400 in
  let yoe := y - era * 400 in
  let mp := if 2 <? m then m - 3 else m + 9 in
  let doy := (153 * mp + 2) / 5 + d - 1 in
  let doe := yoe * 365 + yoe / 4 - yoe / 100 + doy in
  era * 146097 + doe - 719468.

Definition year (t : Z) : Z :=
  let '(y, _, _) := civil_from_days (day_number t) in y.

Definition month (t : Z) : Z :=
  let '(_, m, _) := civil_from_days (day_number t) in m.

(** [ts.dt.date]: the calendar date, represented by its day number
    (dates compare as their day numbers do). *)
Definition date (t : Z) : Z := day_number t.

Definition pad (width : nat) (s : string) : string :=
  let fix zeros (n : nat) : string :=
    match n with
    | O => ""%string
    | S n' => String "0"%char (zeros n')
    end in
  (zeros (width - String.length s)%nat ++ s)%string.

Definition decimal (z : Z) : string :=
  NilZero.string_of_uint (Nat.to_uint (Z.to_nat z)).

(** [str(date)]: ISO format YYYY-MM-DD. *)
Definition str_date (d : Z) : string :=
  let '(y, m, dd) := civil_from_days d in
  (pad 4 (decimal y) ++ "-" ++ pad 2 (decimal m) ++ "-"
     ++ pad 2 (decimal dd))%string.

End Calendar.

(** ** The pandas operations the analyzer uses *)

(** Keys of an index: values with a decidable equality. *)
Class Key (K : Type) : Type := {
  keq : K -> K -> bool;
  keq_spec : forall x y : K, reflect (x = y) (keq x y)
}.

#[export] Instance Key_Z : Key Z :=
  {| keq := Z.eqb; keq_spec := Z.eqb_spec |}.

#[export] Instance Key_string : Key string :=
  {| keq := String.eqb; keq_spec := String.eqb_spec |}.

Module Pandas.

(** A column whose cells may be null (None/NaN). *)
Abbreviation column A := (list (option A)).

(** A series of counts labelled by key, in index order. *)
Abbreviation counts K := (list (K * nat)).

Section Counting.
Context {K : Type} `{Key K}.

(** One step of the counting pass: the hash table keeps its keys in
    the order in which they were first inserted. *)
Fixpoint bump (k : K) (acc : counts K) : counts K :=
  match acc with
  | [] => [(k, 1%nat)]
  | (k', c) :: rest =>
      if keq k k' then (k', S c) :: rest else (k', c) :: bump k rest
  end.

(** The counting pass of [value_counts]: nulls are dropped. *)
Definition count_pass (col : column K) : counts K :=
  fold_left
    (fun acc cell => match cell with Some k => bump k acc | None => acc end)
    col [].

(** Descending sort by count.  Equal counts keep their relative order,
    which is the order of first appearance: this is what the library's
    descending sort gives when the underlying sort is stable.  The
    library does not promise that: see [value_counts_by]. *)
Fixpoint insert_by_count (x : K * nat) (l : counts K) : counts K :=
  match l with
  | [] => [x]
  | y :: rest =>
      if (snd x <? snd y)%nat then y :: insert_by_count x rest
      else x :: y :: rest
  end.

Definition sort_by_count (l : counts K) : counts K :=
  fold_right insert_by_count [] l.

(** [Series.value_counts()]: distinct non-null values with their
    number of occurrences, most frequent first. *)
Definition value_counts (col : column K) : counts K :=
  sort_by_count (count_pass col).

(** [value_counts] with the library's descending sort left open: the
    library does not say in which order it leaves equal counts. *)
Definition value_counts_by (sort : counts K -> counts K) (col : column K)
  : counts K :=
  sort (count_pass col).

(** [Series.nunique()]: number of distinct non-null values. *)
Definition nunique (col : column K) : nat :=
  List.length (count_pass col).

(** [Series.idxmax()]: label of the first maximum; raises on an empty
    series. *)
Fixpoint idxmax_from (best : K * nat) (l : counts K) : K :=
  match l with
  | [] => fst best
  | x :: rest =>
      if (snd best <? snd x)%nat then idxmax_from x rest
      else idxmax_from best rest
  end.

Definition idxmax (s : counts K) : result K :=
  match s with
  | [] => Raise ArgmaxOfEmpty
  | x :: rest => Ok (idxmax_from x rest)
  end.

End Counting.

(** [Series.head(n)]. *)
Definition head {A} (n : nat) (s : list A) : list A := firstn n s.

(** [Series.sort_index()] on integer labels (labels are distinct). *)
Fixpoint insert_by_label {V} (x : Z * V) (l : list (Z * V)) : list (Z * V) :=
  match l with
  | [] => [x]
  | y :: rest =>
      if fst y <? fst x then y :: insert_by_label x rest
      else x :: y :: rest
  end.

Definition sort_index {V} (s : list (Z * V)) : list (Z * V) :=
  fold_right insert_by_label [] s.

(** [DataFrame.sort_values(by)] for an integer-valued column [by]:
    ascending.  The library does not promise an order among rows with
    equal keys; here they keep their relative order, and what is proved
    about sessions below uses only that the result is an ascending
    arrangement of the rows. *)
Section SortValues.
Context {A : Type} (by_ : A -> Z).

Fixpoint insert_row (x : A) (l : list A) : list A :=
  match l with
  | [] => [x]
  | y :: rest =>
      if by_ y <? by_ x then y :: insert_row x rest
      else x :: y :: rest
  end.

Definition sort_values (rows : list A) : list A :=
  fold_right insert_row [] rows.
End SortValues.

(** [Series.diff()]: the first entry is null (NaT). *)
Fixpoint diff_from (prev : Z) (l : list Z) : column Z :=
  match l with
  | [] => []
  | x :: rest => Some (x - prev) :: diff_from x rest
  end.

Definition diff (l : list Z) : column Z :=
  match l with
  | [] => []
  | x :: rest => None :: diff_from x rest
  end.

(** [series > threshold]: a comparison with a null is False. *)
Definition gt (threshold : Z) (col : column Z) : list bool :=
  map (fun cell =>
         match cell with
         | Some d => threshold <? d
         | None => false
         end) col.

(** [Series.cumsum()] of a boolean series (True counts as 1). *)
Fixpoint cumsum_from (acc : Z) (l : list bool) : list Z :=
  match l with
  | [] => []
  | b :: rest =>
      let acc' := acc + (if b then 1 else 0) in
      acc' :: cumsum_from acc' rest
  end.

Definition cumsum (l : list bool) : list Z := cumsum_from 0 l.

(** [groupby(keys)]: one group per distinct key, groups in ascending
    key order, rows of a group in their order in the frame. *)
Fixpoint insert_key (k : Z) (l : list Z) : list Z :=
  match l with
  | [] => [k]
  | y :: rest =>
      if k <? y then k :: y :: rest
      else if k =? y then y :: rest
      else y :: insert_key k rest
  end.

Definition group_keys (keys : list Z) : list Z :=
  fold_right insert_key [] keys.

Definition rows_of_key {A} (k : Z) (keys : list Z) (rows : list A) : list A :=
  map snd (filter (fun kr => fst kr =? k) (combine keys rows)).

Definition groupby {A} (keys : list Z) (rows : list A) : list (Z * list A) :=
  map (fun k => (k, rows_of_key k keys rows)) (group_keys keys).

(** Group aggregations. ['count'] counts the non-null cells. *)
Definition count {A} (col : column A) : nat :=
  List.length (filter (fun cell => match cell with Some _ => true | None => false end) col).

(** [Series.sum()] of an int64 column: the sum wraps around. *)
Definition sum (col : list Z) : Z := int64 (zsum col).

Definition sum_bool (col : list bool) : Z :=
  zsum (map (fun b : bool => if b then 1 else 0) col).

(** [Series.mean()]: NaN on an empty series. *)
Definition mean (col : list Q) : float :=
  fdiv (qsum col) (of_nat (List.length col)).

Definition mean_Z (col : list Z) : float := mean (map of_Z col).
Definition mean_nat (col : list nat) : float := mean (map of_nat col).
Definition mean_bool (col : list bool) : float :=
  mean (map (fun b : bool => if b then 1%Q else 0%Q) col).

(** [Series.rolling(w).mean()], with the default [min_periods = w].
    The window slides over the rows: the entering value is added to a
    running sum, the value that leaves is removed; nulls are not
    observations.  The result is null until [w] observations are in
    the window. *)
Definition add_obs (x : float) (st : Q * nat) : Q * nat :=
  match x with
  | Some q => (fst st + q, S (snd st))%Q
  | None => st
  end.

Definition remove_obs (x : float) (st : Q * nat) : Q * nat :=
  match x with
  | Some q => (fst st - q, pred (snd st))%Q
  | None => st
  end.

(** One step of the window: [x] enters; once the window holds more
    than [w] rows, the oldest leaves. *)
Definition slide (w : nat) (window : list float) (st : Q * nat) (x : float)
  : list float * (Q * nat) :=
  let st1 := add_obs x st in
  let window1 := window ++ [x] in
  if (w <? List.length window1)%nat then
    match window1 with
    | old :: kept => (kept, remove_obs old st1)
    | [] => (window1, st1)
    end
  else (window1, st1).

Definition window_mean (w : nat) (st : Q * nat) : float :=
  if (w <=? snd st)%nat then fdiv (fst st) (of_nat (snd st)) else NaN.

Fixpoint roll_mean (w : nat) (window : list float) (st : Q * nat)
                   (xs : list float) : list float :=
  match xs with
  | [] => []
  | x :: rest =>
      let '(window2, st2) := slide w window st x in
      window_mean w st2 :: roll_mean w window2 st2 rest
  end.

Definition rolling_mean (w : nat) (xs : list float) : list float :=
  roll_mean w [] (0%Q, 0%nat) xs.

End Pandas.

(** ** The analyzer *)

Module Analyzer.

(** One record of the streaming history; [T] is the type of the
    timestamp: a string in the JSON file, a [Timestamp] once loaded.
    [ms_played] is a cell of an int64 column. *)
Record record (T : Type) : Type := {
  ts : T;
  ms_played : Z;
  master_metadata_track_name : option string;
  master_metadata_album_artist_name : option string;
  master_metadata_album_album_name : option string;
  platform : string;
  skipped : bool;
  offline : bool;
  shuffle : bool
}.

Abbreviation RawRecord := (record string).
Abbreviation PlayEvent := (record Z).

Definition with_ts {T U} (r : record T) (t : U) : record U :=
  {| ts := t;
     ms_played := ms_played r;
     master_metadata_track_name := master_metadata_track_name r;
     master_metadata_album_artist_name := master_metadata_album_artist_name r;
     master_metadata_album_album_name := master_metadata_album_album_name r;
     platform := platform r;
     skipped := skipped r;
     offline := offline r;
     shuffle := shuffle r |}.

(** The frame: the loaded rows, and the columns added in place by
    [get_comprehensive_stats] (absent until then). *)
Record DataFrame : Type := {
  rows : list PlayEvent;
  col_hour : option (list Z);
  col_day : option (list string);
  col_month : option (list Z);
  col_year : option (list Z)
}.

Definition frame_of (evs : list PlayEvent) : DataFrame :=
  {| rows := evs; col_hour := None; col_day := None;
     col_month := None; col_year := None |}.

(** *** load_spotify_data *)

(** A row as loaded: its timestamp is a [Timestamp], or NaT ([None]). *)
Abbreviation LoadedRecord := (record (option Z)).

Section Load.
(** [pd.to_datetime] on a column of strings (library code).  It returns
    the column of timestamps, with NaT where it reads a cell as missing
    (an empty string, a null), or it raises, when a string does not
    parse ([None]). *)
Variable to_datetime : list string -> option (Pandas.column Z).

(** [data] is the list [json.load] returned.  A frame built from an
    empty list has no columns, so [df['ts']] raises.  The error of
    [pd.to_datetime] is not caught.  The library returns one cell per
    string; a column of another length is not a result of it. *)
Definition load_spotify_data (data : list RawRecord)
  : result (list LoadedRecord) :=
  match data with
  | [] => Raise (KeyError "ts")
  | _ :: _ =>
      match to_datetime (map (@ts string) data) with
      | None => Raise ToDatetimeError
      | Some stamps =>
          if (List.length stamps =? List.length data)%nat
          then Ok (map (fun rt => with_ts (fst rt) (snd rt))
                       (combine data stamps))
          else Unmodelled
      end
  end.
End Load.

(** The rows of a loaded frame, when none of its timestamps is NaT. *)
Fixpoint timestamps (loaded : list LoadedRecord) : option (list PlayEvent) :=
  match loaded with
  | [] => Some []
  | r :: rest =>
      match ts r, timestamps rest with
      | Some t, Some evs => Some (with_ts r t :: evs)
      | _, _ => None
      end
  end.

(** The frame the analyses are modelled on. *)
Definition frame_of_loaded (loaded : list LoadedRecord) : result DataFrame :=
  match timestamps loaded with
  | Some evs => Ok (frame_of evs)
  | None => Unmodelled
  end.

(** *** get_comprehensive_stats *)

Record TotalStats : Type := {
  total_listening_hours : float;
  total_listening_minutes : float;
  total_tracks_played : nat;
  unique_artists : nat;
  unique_albums : nat;
  unique_tracks : nat;
  average_track_length_seconds : float
}.

Record ListeningPatterns : Type := {
  peak_hour : Z;
  peak_day : string;
  hourly_distribution : list (Z * nat);
  daily_distribution : list (string * nat);
  monthly_distribution : list (Z * nat)
}.

Record BehaviorStats : Type := {
  skip_rate : float;
  offline_rate : float;
  shuffle_rate : float
}.

Record SessionStats : Type := {
  average_session_minutes : float;
  average_tracks_per_session : float;
  total_sessions : nat
}.

Record TopContent : Type := {
  top_artists : list (string * nat);
  top_tracks : list (string * nat);
  top_albums : list (string * nat)
}.

Record Stats : Type := {
  total_stats : TotalStats;
  listening_patterns : ListeningPatterns;
  behavior_stats : BehaviorStats;
  session_stats : SessionStats;
  platform_stats : list (string * nat);
  top_content : TopContent
}.

(** [pd.Timedelta(minutes=30)]. *)
Definition session_threshold : Z := 30 * Calendar.ns_per_minute.

(** The session computation (lines 62 to 72), as functions of the rows
    of the frame. *)
Definition df_sorted (evs : list PlayEvent) : list PlayEvent :=
  Pandas.sort_values (@ts Z) evs.

Definition time_diff (evs : list PlayEvent) : Pandas.column Z :=
  Pandas.diff (map (@ts Z) (df_sorted evs)).

Definition new_session (evs : list PlayEvent) : list bool :=
  Pandas.gt session_threshold (time_diff evs).

Definition session_id (evs : list PlayEvent) : list Z :=
  Pandas.cumsum (new_session evs).

Definition session_groups (evs : list PlayEvent) : list (Z * list PlayEvent) :=
  Pandas.groupby (session_id evs) (df_sorted evs).

(** [sessions]: per session id, the sum of [ms_played] and the count
    of [master_metadata_track_name]. *)
Definition sessions (evs : list PlayEvent) : list (Z * (Z * nat)) :=
  map (fun g =>
         (fst g,
          (Pandas.sum (map (@ms_played Z) (snd g)),
           Pandas.count (map (@master_metadata_track_name Z) (snd g)))))
      (session_groups evs).

Definition avg_session_minutes (evs : list PlayEvent) : float :=
  fdivc (Pandas.mean_Z (map (fun s => fst (snd s)) (sessions evs)))
        (of_Z (1000 * 60)).

Definition avg_tracks_per_session (evs : list PlayEvent) : float :=
  Pandas.mean_nat (map (fun s => snd (snd s)) (sessions evs)).

Definition rate (flag : PlayEvent -> bool) (evs : list PlayEvent) : float :=
  fmul (fdiv (of_Z (Pandas.sum_bool (map flag evs)))
             (of_nat (List.length evs)))
       100.

Definition top10 (col : Pandas.column string) : list (string * nat) :=
  Pandas.head 10 (Pandas.value_counts col).

(** [col.value_counts().head(10)] (lines 57 to 59) with the library's
    descending sort left open. *)
Definition top10_by (sort : Pandas.counts string -> Pandas.counts string)
                    (col : Pandas.column string) : list (string * nat) :=
  Pandas.head 10 (Pandas.value_counts_by sort col).

(** Returns the report and the frame as the call leaves it. *)
Definition get_comprehensive_stats (df : DataFrame)
  : result (Stats * DataFrame) :=
  let evs := rows df in
  let total_ms := Pandas.sum (map (@ms_played Z) evs) in
  let total_hours := fdiv (of_Z total_ms) (of_Z (1000 * 60 * 60)) in
  let total_minutes := fdiv (of_Z total_ms) (of_Z (1000 * 60)) in
  let total_tracks := List.length evs in
  let n_artists := Pandas.nunique (map (@master_metadata_album_artist_name Z) evs) in
  let n_albums := Pandas.nunique (map (@master_metadata_album_album_name Z) evs) in
  let n_tracks := Pandas.nunique (map (@master_metadata_track_name Z) evs) in
  let hours := map (fun e => Calendar.hour (ts e)) evs in
  let days := map (fun e => Calendar.day_name (ts e)) evs in
  let months := map (fun e => Calendar.month (ts e)) evs in
  let years := map (fun e => Calendar.year (ts e)) evs in
  let df' := {| rows := evs; col_hour := Some hours; col_day := Some days;
                col_month := Some months; col_year := Some years |} in
  let hourly := Pandas.sort_index (Pandas.value_counts (map Some hours)) in
  let daily := Pandas.value_counts (map Some days) in
  let monthly := Pandas.sort_index (Pandas.value_counts (map Some months)) in
  hour_max <- Pandas.idxmax hourly ;;
  day_max <- Pandas.idxmax daily ;;
  let platform_distribution :=
    Pandas.value_counts (map (fun e => Some (platform e)) evs) in
  Ok ({| total_stats :=
           {| total_listening_hours := round2 total_hours;
              total_listening_minutes := round2 total_minutes;
              total_tracks_played := total_tracks;
              unique_artists := n_artists;
              unique_albums := n_albums;
              unique_tracks := n_tracks;
              average_track_length_seconds :=
                round2 (fdivc (Pandas.mean_Z (map (@ms_played Z) evs))
                              (of_Z 1000)) |};
         listening_patterns :=
           {| peak_hour := hour_max;
              peak_day := day_max;
              hourly_distribution := hourly;
              daily_distribution := daily;
              monthly_distribution := monthly |};
         behavior_stats :=
           {| skip_rate := round2 (rate (@skipped Z) evs);
              offline_rate := round2 (rate (@offline Z) evs);
              shuffle_rate := round2 (rate (@shuffle Z) evs) |};
         session_stats :=
           {| average_session_minutes := round2 (avg_session_minutes evs);
              average_tracks_per_session := round2 (avg_tracks_per_session evs);
              total_sessions := List.length (sessions evs) |};
         platform_stats := platform_distribution;
         top_content :=
           {| top_artists := top10 (map (@master_metadata_album_artist_name Z) evs);
              top_tracks := top10 (map (@master_metadata_track_name Z) evs);
              top_albums := top10 (map (@master_metadata_album_album_name Z) evs) |}
       |}, df').

(** *** analyze_listening_trends *)

(** One row of [daily_stats]: the aggregates of one calendar date. *)
Record DailyRow : Type := {
  d_date : Z;
  d_ms_played : Z;
  d_track_name : nat;
  d_skipped : float;
  d_offline : float;
  d_shuffle : float;
  d_hours_played : float
}.

Definition daily_stats (evs : list PlayEvent) : list DailyRow :=
  map (fun g =>
         let ms := Pandas.sum (map (@ms_played Z) (snd g)) in
         {| d_date := fst g;
            d_ms_played := ms;
            d_track_name :=
              Pandas.count (map (@master_metadata_track_name Z) (snd g));
            d_skipped := Pandas.mean_bool (map (@skipped Z) (snd g));
            d_offline := Pandas.mean_bool (map (@offline Z) (snd g));
            d_shuffle := Pandas.mean_bool (map (@shuffle Z) (snd g));
            d_hours_played := fdivc (Some (of_Z ms)) (of_Z (1000 * 60 * 60)) |})
      (Pandas.groupby (map (fun e => Calendar.date (ts e)) evs) evs).

Record DailySeries : Type := {
  dates : list string;
  hours_played : list float;
  tracks_played : list nat;
  skip_rates : list float;
  offline_rates : list float;
  shuffle_rates : list float
}.

Record RollingSeries : Type := {
  r_dates : list string;
  r_hours_played : list float;
  r_tracks_played : list float;
  r_skip_rates : list float;
  r_offline_rates : list float;
  r_shuffle_rates : list float
}.

Record Trends : Type := {
  daily : DailySeries;
  rolling_averages : RollingSeries
}.

Definition int_column (l : list nat) : list float :=
  map (fun n => Some (of_nat n)) l.

Definition analyze_listening_trends (df : DataFrame) : Trends :=
  let ds := daily_stats (rows df) in
  let index := map d_date ds in
  let roll (col : list float) := Pandas.rolling_mean 7 col in
  {| daily :=
       {| dates := map Calendar.str_date index;
          hours_played := map d_hours_played ds;
          tracks_played := map d_track_name ds;
          skip_rates := map d_skipped ds;
          offline_rates := map d_offline ds;
          shuffle_rates := map d_shuffle ds |};
     rolling_averages :=
       {| r_dates := map Calendar.str_date index;
          r_hours_played := roll (map d_hours_played ds);
          r_tracks_played := roll (int_column (map d_track_name ds));
          r_skip_rates := roll (map d_skipped ds);
          r_offline_rates := roll (map d_offline ds);
          r_shuffle_rates := roll (map d_shuffle ds) |} |}.

(** *** The script: load, analyse, combine, print *)

Record Results : Type := {
  stats : Stats;
  trends : Trends
}.

(** The script up to the assignment of [results] (lines 152 to 167);
    the frame passes from [get_comprehensive_stats] to
    [analyze_listening_trends] as the former left it. *)
Definition main (to_datetime : list string -> option (Pandas.column Z))
                (data : list RawRecord)
  : result Results :=
  loaded <- load_spotify_data to_datetime data ;;
  df <- frame_of_loaded loaded ;;
  '(st, df1) <- get_comprehensive_stats df ;;
  let tr := analyze_listening_trends df1 in
  Ok {| stats := st; trends := tr |}.

(** The Python objects [results] is made of.  An integer is a Python
    [int] or a numpy integer: [len], [nunique], [to_dict] and [tolist]
    give the former, the label [idxmax] returns is the latter. *)
#[local] Unset Elimination Schemes.
#[local] Set Elimination Schemes.












End Analyzer.

Import Analyzer.

(** ** Notions the specification uses *)

Module Spec.

(** Session segmentation in the words of the specification: walk the
    chronological sequence; the very first event starts a session, and
    an event starts a new session whenever the gap since the previous
    event strictly exceeds the threshold; otherwise it joins the
    current session. *)
Fixpoint segment_from (prev : PlayEvent) (current : list PlayEvent)
                      (l : list PlayEvent) : list (list PlayEvent) :=
  match l with
  | [] => [current]
  | e :: rest =>
      if session_threshold <? ts e - ts prev
      then current :: segment_from e [e] rest
      else segment_from e (current ++ [e]) rest
  end.

Definition segment (l : list PlayEvent) : list (list PlayEvent) :=
  match l with
  | [] => []
  | e :: rest => segment_from e [e] rest
  end.

(** Sessions are numbered from 0. *)
Fixpoint number_from {A} (k : Z) (l : list A) : list (Z * A) :=
  match l with
  | [] => []
  | x :: rest => (k, x) :: number_from (k + 1) rest
  end.

(** The session partition of the records: the segmentation of the
    chronologically sorted records. *)
Definition session_partition (evs : list PlayEvent) : list (list PlayEvent) :=
  segment (df_sorted evs).

(** "mean of per-session event counts". *)
Definition mean_events_per_session (evs : list PlayEvent) : float :=
  Pandas.mean_nat (map (@List.length PlayEvent) (session_partition evs)).

(** The number of events of a session that carry a track name. *)
Definition named_tracks (s : list PlayEvent) : nat :=
  Pandas.count (map (@master_metadata_track_name Z) s).

(** The same walk, read from the event before [l]: the events of [l]
    that stay in that event's session, and the sessions after it. *)
Fixpoint continue (prev : Z) (l : list PlayEvent)
  : list PlayEvent * list (list PlayEvent) :=
  match l with
  | [] => ([], [])
  | e :: rest =>
      let '(s, ss) := continue (ts e) rest in
      if session_threshold <? ts e - prev then ([], (e :: s) :: ss)
      else (e :: s, ss)
  end.

(** The session an event belongs to is decided by its timestamp: the
    number of session starts at or before it.  [starts prev l] lists
    the timestamps in [l] that start a session, [prev] being the
    timestamp before [l]. *)
Fixpoint starts (prev : Z) (l : list Z) : list Z :=
  match l with
  | [] => []
  | t :: rest =>
      if session_threshold <? t - prev then t :: starts t rest
      else starts t rest
  end.

Definition session_of (bounds : list Z) (t : Z) : Z :=
  Z.of_nat (List.length (filter (fun b => b <=? t) bounds)).

(** The session starts of a chronological sequence of timestamps (the
    very first event apart, which starts session 0). *)
Definition boundaries (stamps : list Z) : list Z :=
  match stamps with
  | [] => []
  | t :: rest => starts t rest
  end.

(** Two segmentations make the same partition when they have the same
    sessions, each with the same events. *)
Definition same_partition (p q : list (list PlayEvent)) : Prop :=
  Forall2 (@Permutation PlayEvent) p q.

(** Rankings. *)
Definition cell_dec : forall x y : option string, {x = y} + {x <> y}.
Proof. decide equality. apply string_dec. Defined.

Arguments cell_dec : simpl never.

Definition occurrences (v : string) (col : Pandas.column string) : nat :=
  count_occ cell_dec col (Some v).

Fixpoint first_index (v : string) (col : Pandas.column string) : nat :=
  match col with
  | [] => O
  | c :: rest =>
      if cell_dec c (Some v) then O else S (first_index v rest)
  end.

Fixpoint non_null {A} (col : Pandas.column A) : list A :=
  match col with
  | [] => []
  | Some a :: rest => a :: non_null rest
  | None :: rest => non_null rest
  end.

Definition distinct_values (col : Pandas.column string) : list string :=
  nodup string_dec (non_null col).

(** More frequent first; among equally frequent values, the one seen
    first in the input first. *)
Definition ranks_before (col : Pandas.column string) (a b : string * nat) : Prop :=
  (snd b < snd a)%nat \/
  (snd a = snd b /\ (first_index (fst a) col < first_index (fst b) col)%nat).

Definition is_top (n : nat) (col : Pandas.column string)
                  (top : list (string * nat)) : Prop :=
  NoDup (map fst top) /\
  List.length top = Nat.min n (List.length (distinct_values col)) /\
  (forall v c, In (v, c) top -> In (Some v) col /\ c = occurrences v col) /\
  StronglySorted (ranks_before col) top /\
  (forall v, In (Some v) col -> ~ In v (map fst top) ->
             Forall (fun a => ranks_before col a (v, occurrences v col)) top).

(** What the library says of the descending sort of [value_counts]:
    the result is an arrangement of the entries in which no count is
    followed by a greater one. *)
Definition no_greater_after (a b : string * nat) : Prop :=
  (snd b <= snd a)%nat.

Definition descending_sort
    (sort : Pandas.counts string -> Pandas.counts string) : Prop :=
  forall l, Permutation l (sort l) /\ StronglySorted no_greater_after (sort l).

(** A ranking of the [n] most frequent values that leaves open the
    order among equally frequent values, and which of them make the
    cut. *)
Definition is_top_up_to_ties (n : nat) (col : Pandas.column string)
                             (top : list (string * nat)) : Prop :=
  NoDup (map fst top) /\
  List.length top = Nat.min n (List.length (distinct_values col)) /\
  (forall v c, In (v, c) top -> In (Some v) col /\ c = occurrences v col) /\
  StronglySorted no_greater_after top /\
  (forall v, In (Some v) col -> ~ In v (map fst top) ->
             Forall (fun a => (occurrences v col <= snd a)%nat) top).

(** Rolling windows. *)
Definition lastn {A} (n : nat) (l : list A) : list A :=
  skipn (List.length l - n) l.

(** The values at indices [i-6 .. i]. *)
Definition window7 {A} (i : nat) (l : list A) : list A :=
  firstn 7 (skipn (i - 6) l).

(** The simple mean of floats: NaN as soon as one of them is NaN. *)
Fixpoint numbers (l : list float) : option (list Q) :=
  match l with
  | [] => Some []
  | Some q :: rest => option_map (cons q) (numbers rest)
  | None :: rest => None
  end.

Definition simple_mean (l : list float) : float :=
  match numbers l with
  | Some qs => Pandas.mean qs
  | None => NaN
  end.

(** The value a window of rows stands for: the mean of its
    observations, if there are [w] of them. *)
Definition window_value (w : nat) (window : list float) : float :=
  let obs := non_null window in
  if (w <=? List.length obs)%nat then Pandas.mean obs else NaN.

(** The running state of the window agrees with its rows. *)
Definition tracks (st : Q * nat) (window : list float) : Prop :=
  (fst st == qsum (non_null window))%Q /\
  snd st = List.length (non_null window).

Definition is_number (x : float) : Prop := exists q, x = Some q.

(** Two numbers no more than a hundredth apart. *)
Definition within_a_hundredth (x y : float) : Prop :=
  exists q r, x = Some q /\ y = Some r /\
              (q - (1 # 100) <= r)%Q /\ (r <= q + (1 # 100))%Q.

Definition trailing7 (series rolling : list float) : Prop :=
  List.length rolling = List.length series /\
  forall i, (i < List.length series)%nat ->
    nth i rolling NaN =
      if (i <? 6)%nat then NaN else simple_mean (window7 i series).

(** Chronological order of rows, by the column [by_]. *)
Definition ascending {A} (by_ : A -> Z) (a b : A) : Prop := by_ a <= by_ b.

(** What the counting pass holds after reading a column: every distinct
    non-null value once, with its number of occurrences, in the order
    in which the values were first seen. *)
Definition counted (col : Pandas.column string) (acc : Pandas.counts string) : Prop :=
  NoDup (map fst acc) /\
  (forall v, In v (map fst acc) <-> In (Some v) col) /\
  (forall v c, In (v, c) acc -> c = occurrences v col) /\
  StronglySorted
    (fun u v => (first_index u col < first_index v col)%nat)
    (map fst acc).

End Spec.

(** ** Sample data *)

Module Sample.

(** A parser for the timestamps of Spotify's export,
    [YYYY-MM-DDTHH:MM:SSZ]; used to run the pipeline on examples. *)
Definition digit (c : ascii) : option Z :=
  let n := nat_of_ascii c in
  if ((48 <=? n) && (n <=? 57))%nat then Some (Z.of_nat (n - 48)) else None.

Fixpoint number (acc : Z) (s : string) : option Z :=
  match s with
  | EmptyString => Some acc
  | String c rest =>
      match digit c with
      | Some d => number (10 * acc + d) rest
      | None => None
      end
  end.

Definition field (s : string) (start len : nat) : option Z :=
  number 0 (substring start len s).

Definition sep (s : string) (pos : nat) (c : string) : bool :=
  String.eqb (substring pos 1 s) c.

Definition iso8601 (s : string) : option Z :=
  if ((String.length s =? 20)%nat && sep s 4 "-" && sep s 7 "-"
      && sep s 10 "T" && sep s 13 ":" && sep s 16 ":" && sep s 19 "Z")%bool
  then
    match field s 0 4, field s 5 2, field s 8 2,
          field s 11 2, field s 14 2, field s 17 2 with
    | Some y, Some m, Some d, Some hh, Some mm, Some ss =>
        if ((1 <=? m) && (m <=? 12) && (1 <=? d) && (d <=? 31)
            && (hh <? 24) && (mm <? 60) && (ss <? 60))%bool
        then Some ((Calendar.days_from_civil y m d * 86400
                    + hh * 3600 + mm * 60 + ss) * Calendar.ns_per_second)
        else None
    | _, _, _, _, _, _ => None
    end
  else None.

(** One cell: an empty string is read as missing (NaT); any other
    string that is not of the form above makes the conversion raise. *)
Definition cell (s : string) : option (option Z) :=
  if String.eqb s "" then Some None else option_map Some (iso8601 s).

(** The conversion of a column. *)
Fixpoint iso8601_utc (col : list string) : option (Pandas.column Z) :=
  match col with
  | [] => Some []
  | s :: rest =>
      match cell s, iso8601_utc rest with
      | Some c, Some cs => Some (c :: cs)
      | _, _ => None
      end
  end.

Definition play {T} (t : T) (ms : Z) (track artist album : option string)
  : record T :=
  {| ts := t; ms_played := ms;
     master_metadata_track_name := track;
     master_metadata_album_artist_name := artist;
     master_metadata_album_album_name := album;
     platform := "android"; skipped := false; offline := false;
     shuffle := true |}.

Definition song {T} (t : T) (name : string) : record T :=
  play t 180000 (Some name) (Some ("artist of " ++ name)%string)
       (Some ("album of " ++ name)%string).

(** A podcast episode: no track, artist or album name. *)
Definition episode {T} (t : T) : record T :=
  play t 600000 None None None.

Definition minutes (n : Z) : Z := n * Calendar.ns_per_minute.
Definition days (n : Z) : Z := n * Calendar.ns_per_day.

Definition noon : Z := 1609502400 * Calendar.ns_per_second.

Definition raw_history : list RawRecord :=
  [ song "2021-01-01T12:00:00Z"%string "a";
    song "2021-01-01T12:40:00Z"%string "b";
    song "2021-01-01T12:50:00Z"%string "a";
    episode "2021-01-03T08:00:00Z"%string ].



(** Twenty tracks, each played once. *)
Definition twenty : Pandas.column string :=
  map (fun k => Some (String (ascii_of_nat (97 + k)) EmptyString)) (seq 0 20).

(** A descending sort by count that is not stable: equal counts end up
    in the reverse of the order in which they came. *)
Fixpoint insert_after_ties (x : string * nat) (l : Pandas.counts string)
  : Pandas.counts string :=
  match l with
  | [] => [x]
  | y :: rest =>
      if (snd y <? snd x)%nat then x :: y :: rest
      else y :: insert_after_ties x rest
  end.

Definition sort_ties_reversed (l : Pandas.counts string) : Pandas.counts string :=
  fold_right insert_after_ties [] l.

Definition eleven : list PlayEvent :=
  map (fun k => song (noon + minutes (Z.of_nat k))
                     (String (ascii_of_nat (97 + k)) EmptyString))
      (seq 0 11).

Definition ten_days : list float :=
  map (fun k => Some (of_nat k)) (seq 1 10).

End Sample.

(** ** Further notions, for the properties of the rest of the analyzer *)

Module Derived.

(** Every element of a list is related to the next one. *)
Fixpoint chain {A} (R : A -> A -> Prop) (l : list A) : Prop :=
  match l with
  | a :: ((b :: _) as rest) => R a b /\ chain R rest
  | _ => True
  end.

(** Two events no more than the session threshold apart. *)
Definition close (a b : PlayEvent) : Prop :=
  ts b - ts a <= session_threshold.

(** The first event of [s2] comes more than the threshold after the
    last event of [s1]. *)
Definition apart (s1 s2 : list PlayEvent) : Prop :=
  forall s1' a b s2',
    s1 = s1' ++ [a] -> s2 = b :: s2' ->
    session_threshold < ts b - ts a.

(** The number of cells of a column that hold [k]. *)
Definition cells {K} `{Key K} (k : K) (col : Pandas.column K) : nat :=
  List.length
    (filter (fun cell => match cell with
                         | Some k' => keq k' k
                         | None => false
                         end) col).

(** The [ms_played] column holds durations whose total is an int64:
    no sum over rows of the frame wraps around. *)
Definition no_overflow (evs : list PlayEvent) : Prop :=
  Forall (fun e => 0 <= ms_played e) evs /\
  zsum (map (@ms_played Z) evs) < 2 ^ 63.

(** The rows of a frame that fall on the calendar date [d]. *)
Definition on_date (d : Z) (evs : list PlayEvent) : list PlayEvent :=
  filter (fun e => Calendar.date (ts e) =? d) evs.

(** A number between two bounds. *)
Definition between (lo hi : Q) (x : float) : Prop :=
  exists q, x = Some q /\ (lo <= q)%Q /\ (q <= hi)%Q.

End Derived.

(** * Properties *)

(** ** Loading *)






(** ** The frame the analysis leaves *)

Lemma stats_leaves_rows :
  forall df st df',
    get_comprehensive_stats df = Ok (st, df') -> rows df' = rows df.
Proof.
  intros df st df' H. unfold get_comprehensive_stats in H.
  repeat match type of H with
         | bind ?m _ = _ => destruct m; simpl in H; try discriminate
         end.
  now inversion H.
Qed.

(** [idxmax] is the only step of [get_comprehensive_stats] that can
    raise, and it raises on the empty series only. *)
Section CountingFacts.
Context {K : Type} `{Key K}.

Lemma bump_not_nil : forall (k : K) acc, Pandas.bump k acc <> [].
Proof.
  intros k [|[k' c] acc]; simpl; [discriminate|].
  destruct (keq k k'); discriminate.
Qed.

Lemma bump_keys_app :
  forall (k : K) acc,
    (In k (map fst acc) /\ map fst (Pandas.bump k acc) = map fst acc) \/
    (~ In k (map fst acc) /\ Pandas.bump k acc = acc ++ [(k, 1%nat)]).
Proof.
  intros k acc; induction acc as [|[k' c] acc IH]; simpl.
  - right; split; auto.
  - destruct (keq_spec k k') as [->|Hne]; simpl.
    + left; split; auto.
    + destruct IH as [[Hin Heq]|[Hnin Heq]].
      * left; split; auto. now rewrite Heq.
      * right; split; [intros [?|?]; congruence|now rewrite Heq].
Qed.

Lemma insert_by_count_perm :
  forall (x : K * nat) l, Permutation (x :: l) (Pandas.insert_by_count x l).
Proof.
  intros x l; induction l as [|y l IH]; simpl; auto.
  destruct (snd x <? snd y)%nat; auto.
  eapply perm_trans; [apply perm_swap|]. now apply perm_skip.
Qed.

Lemma sort_by_count_perm :
  forall l : Pandas.counts K, Permutation l (Pandas.sort_by_count l).
Proof.
  induction l as [|x l IH]; simpl; auto.
  eapply perm_trans; [apply perm_skip, IH|apply insert_by_count_perm].
Qed.

Lemma count_pass_snoc :
  forall (col : Pandas.column K) cell,
    Pandas.count_pass (col ++ [cell]) =
    match cell with
    | Some k => Pandas.bump k (Pandas.count_pass col)
    | None => Pandas.count_pass col
    end.
Proof.
  intros col cell. unfold Pandas.count_pass. now rewrite fold_left_app.
Qed.

Lemma count_pass_map_Some_not_nil :
  forall l : list K, l <> [] -> Pandas.count_pass (map Some l) <> [].
Proof.
  intros l Hl. destruct (exists_last Hl) as (l' & a & ->).
  rewrite map_app; simpl. rewrite count_pass_snoc. apply bump_not_nil.
Qed.

Lemma value_counts_not_nil :
  forall l : list K, l <> [] -> Pandas.value_counts (map Some l) <> [].
Proof.
  intros l Hl Hnil. apply (count_pass_map_Some_not_nil Hl).
  apply Permutation_nil. rewrite <- Hnil. apply Permutation_sym, sort_by_count_perm.
Qed.

Lemma idxmax_ok :
  forall s : Pandas.counts K, s <> [] -> exists k, Pandas.idxmax s = Ok k.
Proof. intros [|x s] Hs; [congruence|]. simpl; eauto. Qed.
End CountingFacts.

Lemma insert_by_label_perm :
  forall V (x : Z * V) l, Permutation (x :: l) (Pandas.insert_by_label x l).
Proof.
  intros V x l; induction l as [|y l IH]; simpl; auto.
  destruct (fst y <? fst x); auto.
  eapply perm_trans; [apply perm_swap|]. now apply perm_skip.
Qed.

Lemma sort_index_perm :
  forall V (l : list (Z * V)), Permutation l (Pandas.sort_index l).
Proof.
  induction l as [|x l IH]; simpl; auto.
  eapply perm_trans; [apply perm_skip, IH|apply insert_by_label_perm].
Qed.

Lemma sort_index_not_nil :
  forall V (l : list (Z * V)), l <> [] -> Pandas.sort_index l <> [].
Proof.
  intros V l Hl Hnil. apply Hl, Permutation_nil. rewrite <- Hnil.
  apply Permutation_sym, sort_index_perm.
Qed.

(** A non-empty frame always gets its report. *)
Lemma get_comprehensive_stats_returns :
  forall df, rows df <> [] ->
    exists st df', get_comprehensive_stats df = Ok (st, df').
Proof.
  intros df Hne. unfold get_comprehensive_stats.
  assert (Hmap : forall (B : Type) (f : PlayEvent -> B), map f (rows df) <> []).
  { intros B f Hm. apply Hne. now apply map_eq_nil in Hm. }
  destruct (@idxmax_ok Z
              (Pandas.sort_index
                 (Pandas.value_counts
                    (map Some (map (fun e => Calendar.hour (ts e)) (rows df))))))
    as [hmax ->].
  { apply sort_index_not_nil, value_counts_not_nil, Hmap. }
  destruct (@idxmax_ok string
              (Pandas.value_counts
                 (map Some (map (fun e => Calendar.day_name (ts e)) (rows df)))))
    as [dmax ->].
  { apply value_counts_not_nil, Hmap. }
  simpl. eauto.
Qed.

(** ** The empty dataset *)

(** C1, as stated, fails: the claim is that on an empty dataset (zero
    records) the pipeline does not raise and reports zero counts, NaN
    rates and averages, and empty rankings.  On the empty list of
    records the script produces no report at all. *)
Lemma C1_empty_dataset_has_no_report :
  main Sample.iso8601_utc [] = Raise (KeyError "ts") /\
  ~ exists r : Results, main Sample.iso8601_utc [] = Ok r.
Proof. split; [reflexivity|]. intros [r Hr]. discriminate Hr. Qed.

(** C1, amended: on an empty dataset (zero records) the pipeline raises
    and produces no report.  Loading fails with [KeyError: 'ts'], since a
    frame built from an empty list has no columns; and
    [get_comprehensive_stats], given a frame with zero rows (whatever its
    added columns hold), raises at [idxmax] of the empty hourly
    distribution, before any rate or average is computed. *)
Theorem C1_empty_dataset_raises :
  forall parse,
    load_spotify_data parse [] = Raise (KeyError "ts") /\
    main parse [] = Raise (KeyError "ts") /\
    (forall h d m y,
        get_comprehensive_stats
          {| rows := []; col_hour := h; col_day := d;
             col_month := m; col_year := y |} = Raise ArgmaxOfEmpty).
Proof. intros parse; repeat split. Qed.

(** ** Unparsable timestamps *)




(** ** Printing the results *)



(** ** Distributions *)

Lemma nsum_app : forall l l', nsum (l ++ l') = (nsum l + nsum l')%nat.
Proof. induction l; intros; simpl; auto. rewrite IHl. lia. Qed.

Lemma nsum_perm : forall l l', Permutation l l' -> nsum l = nsum l'.
Proof. induction 1; simpl; lia. Qed.

Lemma total_count_perm :
  forall K (s s' : Pandas.counts K),
    Permutation s s' -> nsum (map snd s) = nsum (map snd s').
Proof. intros K s s' Hp. apply nsum_perm. now apply Permutation_map. Qed.

Lemma count_snoc :
  forall A (col : Pandas.column A) cell,
    Pandas.count (col ++ [cell]) =
    (Pandas.count col + match cell with Some _ => 1 | None => 0 end)%nat.
Proof.
  intros A col cell. unfold Pandas.count.
  rewrite filter_app, length_app. destruct cell; reflexivity.
Qed.

Lemma count_map_Some :
  forall A (l : list A), Pandas.count (map Some l) = List.length l.
Proof. induction l; simpl; auto. unfold Pandas.count in *. simpl. now rewrite IHl. Qed.

Section CountingTotals.
Context {K : Type} `{Key K}.

Lemma bump_total :
  forall (k : K) acc,
    nsum (map snd (Pandas.bump k acc)) = S (nsum (map snd acc)).
Proof.
  intros k acc; induction acc as [|[k' c] acc IH]; simpl; auto.
  destruct (keq k k'); simpl; auto. rewrite IH. lia.
Qed.

(** The counting pass counts every non-null cell exactly once. *)
Lemma count_pass_total :
  forall col : Pandas.column K,
    nsum (map snd (Pandas.count_pass col)) = Pandas.count col.
Proof.
  induction col as [|cell col IH] using rev_ind; [reflexivity|].
  rewrite count_pass_snoc, count_snoc.
  destruct cell as [k|]; [rewrite bump_total|]; lia.
Qed.

Lemma value_counts_total :
  forall l : list K,
    nsum (map snd (Pandas.value_counts (map Some l))) = List.length l.
Proof.
  intros l. unfold Pandas.value_counts.
  rewrite <- (total_count_perm (sort_by_count_perm _)).
  now rewrite count_pass_total, count_map_Some.
Qed.
End CountingTotals.


(** What a returned report holds, field by field. *)
Lemma get_comprehensive_stats_fields :
  forall df st df',
    get_comprehensive_stats df = Ok (st, df') ->
    let evs := rows df in
    total_tracks_played (total_stats st) = List.length evs /\
    hourly_distribution (listening_patterns st) =
      Pandas.sort_index
        (Pandas.value_counts (map Some (map (fun e => Calendar.hour (ts e)) evs))) /\
    daily_distribution (listening_patterns st) =
      Pandas.value_counts (map Some (map (fun e => Calendar.day_name (ts e)) evs)) /\
    monthly_distribution (listening_patterns st) =
      Pandas.sort_index
        (Pandas.value_counts (map Some (map (fun e => Calendar.month (ts e)) evs))) /\
    session_stats st =
      {| average_session_minutes := round2 (avg_session_minutes evs);
         average_tracks_per_session := round2 (avg_tracks_per_session evs);
         total_sessions := List.length (sessions evs) |} /\
    top_content st =
      {| top_artists := top10 (map (@master_metadata_album_artist_name Z) evs);
         top_tracks := top10 (map (@master_metadata_track_name Z) evs);
         top_albums := top10 (map (@master_metadata_album_album_name Z) evs) |}.
Proof.
  intros df st df' H. unfold get_comprehensive_stats in H.
  repeat match type of H with
         | bind ?m _ = _ => destruct m; simpl in H; try discriminate
         end.
  inversion H; subst; clear H. simpl. repeat split.
Qed.




(** ** Grouping *)

Lemma insert_key_In :
  forall a l k, In k (Pandas.insert_key a l) <-> k = a \/ In k l.
Proof.
  intros a l k; induction l as [|y l IH]; simpl.
  - intuition.
  - destruct (Z.ltb_spec a y); simpl; [intuition|].
    destruct (Z.eqb_spec a y); simpl; [subst; intuition|].
    rewrite IH. intuition.
Qed.

Lemma group_keys_In :
  forall keys k, In k (Pandas.group_keys keys) <-> In k keys.
Proof.
  induction keys as [|a keys IH]; intros k; simpl; [tauto|].
  rewrite insert_key_In, IH. intuition.
Qed.

Lemma insert_key_sorted :
  forall a l, StronglySorted Z.lt l -> StronglySorted Z.lt (Pandas.insert_key a l).
Proof.
  intros a l Hs; induction Hs as [|y l Hs IH Hall]; simpl.
  - repeat constructor.
  - destruct (Z.ltb_spec a y).
    + constructor; [now constructor|].
      constructor; auto.
      eapply Forall_impl; [|exact Hall]. intros; simpl in *; lia.
    + destruct (Z.eqb_spec a y); [now constructor|].
      constructor; auto.
      rewrite Forall_forall in *. intros k Hk.
      apply insert_key_In in Hk. destruct Hk as [->|Hk]; [lia|auto].
Qed.

Lemma group_keys_sorted :
  forall keys, StronglySorted Z.lt (Pandas.group_keys keys).
Proof.
  induction keys; simpl; [constructor|now apply insert_key_sorted].
Qed.

Lemma sorted_lt_NoDup : forall l, StronglySorted Z.lt l -> NoDup l.
Proof.
  induction 1 as [|y l Hs IH Hall]; constructor; auto.
  intros Hin. rewrite Forall_forall in Hall. specialize (Hall _ Hin). lia.
Qed.

(** One group per distinct key. *)
Lemma group_keys_length :
  forall keys,
    List.length (Pandas.group_keys keys) = List.length (nodup Z.eq_dec keys).
Proof.
  intros keys. apply Permutation_length, NoDup_Permutation.
  - apply sorted_lt_NoDup, group_keys_sorted.
  - apply NoDup_nodup.
  - intros k. now rewrite group_keys_In, nodup_In.
Qed.

Lemma groupby_keys :
  forall A keys (rws : list A),
    map fst (Pandas.groupby keys rws) = Pandas.group_keys keys.
Proof.
  intros. unfold Pandas.groupby. rewrite map_map. simpl. apply map_id.
Qed.

Lemma rows_of_key_map :
  forall A (key : A -> Z) k (rws : list A),
    Pandas.rows_of_key k (map key rws) rws = filter (fun r => key r =? k) rws.
Proof.
  intros A key k rws. unfold Pandas.rows_of_key.
  induction rws as [|r rws IH]; simpl; auto.
  destruct (key r =? k); simpl; now rewrite IH.
Qed.

(** No group is empty. *)
Lemma groupby_map_nonempty :
  forall A (key : A -> Z) (rws : list A) g,
    In g (Pandas.groupby (map key rws) rws) -> snd g <> [].
Proof.
  intros A key rws g Hin. unfold Pandas.groupby in Hin.
  apply in_map_iff in Hin. destruct Hin as (k & <- & Hk). simpl.
  apply group_keys_In, in_map_iff in Hk. destruct Hk as (r & Hr & Hin).
  rewrite rows_of_key_map. intros Hnil.
  assert (Hf : In r (filter (fun r0 => key r0 =? k) rws)).
  { apply filter_In. split; auto. now apply Z.eqb_eq. }
  rewrite Hnil in Hf. contradiction.
Qed.

(** ** Rolling windows keep the length of the series *)

Lemma roll_mean_length :
  forall w xs window st,
    List.length (Pandas.roll_mean w window st xs) = List.length xs.
Proof.
  induction xs as [|x xs IH]; intros window st; simpl; auto.
  destruct (Pandas.slide w window st x) as [window2 st2]; simpl.
  now rewrite IH.
Qed.

Lemma rolling_mean_length :
  forall w xs, List.length (Pandas.rolling_mean w xs) = List.length xs.
Proof. intros. apply roll_mean_length. Qed.

(** ** The shape of the trends *)

(** C10: in the trends, [daily_stats] and [rolling_averages] carry the
    same sequence of dates; in each of the two, the six parallel arrays
    have the same length, which is the number of distinct calendar dates
    of the input; and the dates are those of the input, each once, in
    ascending order. *)
Theorem C10_trend_arrays_are_parallel :
  forall df,
    let t := analyze_listening_trends df in
    let input_dates := map (fun e => Calendar.date (ts e)) (rows df) in
    let n := List.length (nodup Z.eq_dec input_dates) in
    r_dates (rolling_averages t) = dates (daily t) /\
    (List.length (dates (daily t)) = n /\
     List.length (hours_played (daily t)) = n /\
     List.length (tracks_played (daily t)) = n /\
     List.length (skip_rates (daily t)) = n /\
     List.length (offline_rates (daily t)) = n /\
     List.length (shuffle_rates (daily t)) = n) /\
    (List.length (r_dates (rolling_averages t)) = n /\
     List.length (r_hours_played (rolling_averages t)) = n /\
     List.length (r_tracks_played (rolling_averages t)) = n /\
     List.length (r_skip_rates (rolling_averages t)) = n /\
     List.length (r_offline_rates (rolling_averages t)) = n /\
     List.length (r_shuffle_rates (rolling_averages t)) = n) /\
    exists index,
      dates (daily t) = map Calendar.str_date index /\
      StronglySorted Z.lt index /\
      (forall d, In d index <-> In d input_dates).
Proof.
  intros df t input_dates n.
  assert (Hidx : map d_date (daily_stats (rows df)) = Pandas.group_keys input_dates).
  { unfold daily_stats. rewrite map_map. cbn [d_date].
    rewrite <- (groupby_keys input_dates (rows df)).
    reflexivity. }
  assert (Hlen : List.length (daily_stats (rows df)) = n).
  { rewrite <- (length_map d_date), Hidx. apply group_keys_length. }
  subst t. unfold analyze_listening_trends. cbn -[daily_stats Pandas.rolling_mean].
  unfold int_column.
  rewrite !rolling_mean_length, !length_map, Hlen.
  repeat split.
  exists (map d_date (daily_stats (rows df))). rewrite Hidx.
  repeat split.
  - apply group_keys_sorted.
  - apply group_keys_In.
  - apply group_keys_In.
Qed.

(** ** Rounding *)

Lemma round_half_even_error :
  forall q : Q,
    (inject_Z (round_half_even q) - (1 # 2) <= q)%Q /\
    (q <= inject_Z (round_half_even q) + (1 # 2))%Q.
Proof.
  intros [n d]. unfold round_half_even. cbn [Qnum Qden].
  pose proof (Z.div_mod n (Z.pos d) ltac:(lia)) as Hdm.
  pose proof (Z.mod_pos_bound n (Z.pos d) ltac:(lia)) as Hr.
  set (f := n / Z.pos d) in *. set (r := n mod Z.pos d) in *.
  assert (Hgen : forall z,
             - Z.pos d <= 2 * (z * Z.pos d - n) <= Z.pos d ->
             (inject_Z z - (1 # 2) <= n # d)%Q /\
             (n # d <= inject_Z z + (1 # 2))%Q).
  { intros z Hz. unfold Qle, Qminus, Qplus, Qopp, inject_Z. cbn [Qnum Qden].
    split; nia. }
  destruct (Z.ltb_spec (2 * r) (Z.pos d)); [apply Hgen; nia|].
  destruct (Z.ltb_spec (Z.pos d) (2 * r)); [apply Hgen; nia|].
  destruct (Z.even f); apply Hgen; nia.
Qed.

(** [round(x, 2)] is at most half a hundredth away from [x]. *)
Lemma round2_error :
  forall q : Q,
    exists r z,
      round2 (Some q) = Some r /\ (r == z # 100)%Q /\
      (q - (1 # 200) <= r)%Q /\ (r <= q + (1 # 200))%Q.
Proof.
  intros q. eexists. exists (round_half_even (q * 100)).
  split; [reflexivity|]. split; [apply Qred_correct|].
  rewrite Qred_correct.
  destruct (round_half_even_error (q * 100)) as [H1 H2].
  set (z := round_half_even (q * 100)) in *.
  assert (Hz : (z # 100 == inject_Z z / 100)%Q).
  { unfold Qeq, Qdiv, Qmult, Qinv, inject_Z. simpl. lia. }
  rewrite Hz. split.
  - apply Qle_shift_div_l; [reflexivity|]. lra.
  - apply Qle_shift_div_r; [reflexivity|]. lra.
Qed.

Lemma round2_within_a_hundredth :
  forall q : Q, Spec.within_a_hundredth (Some q) (round2 (Some q)).
Proof.
  intros q. destruct (round2_error q) as (r & z & Hr & _ & H1 & H2).
  exists q, r. repeat split; auto; lra.
Qed.

(** ** Sessions *)

Lemma rows_of_key_nil :
  forall A k (rws : list A), Pandas.rows_of_key k [] rws = [].
Proof. reflexivity. Qed.

Lemma rows_of_key_cons :
  forall A k a keys (r : A) rws,
    Pandas.rows_of_key k (a :: keys) (r :: rws) =
    if a =? k then r :: Pandas.rows_of_key k keys rws
    else Pandas.rows_of_key k keys rws.
Proof.
  intros. unfold Pandas.rows_of_key. simpl. now destruct (a =? k).
Qed.

Lemma rows_of_key_absent :
  forall A k keys (rws : list A),
    ~ In k keys -> Pandas.rows_of_key k keys rws = [].
Proof.
  intros A k keys; induction keys as [|a keys IH]; intros rws Hnin; auto.
  destruct rws as [|r rws]; [reflexivity|].
  rewrite rows_of_key_cons.
  destruct (Z.eqb_spec a k); [subst; simpl in Hnin; tauto|].
  apply IH. simpl in Hnin. tauto.
Qed.

(** Grouping after prepending a row whose key is no larger than the
    others: the row opens the first group, or a group of its own. *)
Lemma groupby_cons_min :
  forall A a keys (r : A) rws,
    Forall (fun k => a <= k) keys ->
    Pandas.groupby (a :: keys) (r :: rws) =
    match Pandas.groupby keys rws with
    | [] => [(a, [r])]
    | (k0, g0) :: rest =>
        if k0 =? a then (a, r :: g0) :: rest
        else (a, [r]) :: (k0, g0) :: rest
    end.
Proof.
  intros A a keys r rws Hmin.
  pose proof (group_keys_sorted keys) as Hsorted.
  pose proof (group_keys_In keys) as Hin.
  unfold Pandas.groupby at 1 2. simpl Pandas.group_keys.
  destruct (Pandas.group_keys keys) as [|y gs] eqn:Egs; simpl.
  - rewrite rows_of_key_cons, Z.eqb_refl.
    rewrite rows_of_key_absent; auto.
    intros Ha. apply Hin in Ha. contradiction.
  - assert (Hy : a <= y).
    { rewrite Forall_forall in Hmin. apply Hmin, Hin. now left. }
    inversion Hsorted as [|? ? Hgs Hall]; subst.
    assert (Htail : map (fun k => (k, Pandas.rows_of_key k (a :: keys) (r :: rws))) gs
                    = map (fun k => (k, Pandas.rows_of_key k keys rws)) gs).
    { apply map_ext_in. intros k Hk. rewrite rows_of_key_cons.
      rewrite Forall_forall in Hall. specialize (Hall _ Hk).
      destruct (Z.eqb_spec a k); [lia|reflexivity]. }
    destruct (Z.ltb_spec a y) as [Hlt|Hge]; simpl.
    + destruct (Z.eqb_spec y a); [lia|].
      rewrite !rows_of_key_cons, Z.eqb_refl.
      destruct (Z.eqb_spec a y); [lia|].
      rewrite Htail. f_equal. f_equal.
      rewrite rows_of_key_absent; auto.
      intros Ha. apply Hin in Ha. destruct Ha as [Ha|Ha]; [lia|].
      rewrite Forall_forall in Hall. specialize (Hall _ Ha). lia.
    + assert (a = y) by lia. subst y.
      rewrite Z.eqb_refl. simpl.
      rewrite rows_of_key_cons, Z.eqb_refl, Htail. reflexivity.
Qed.

Lemma cumsum_from_ge :
  forall bs a, Forall (fun k => a <= k) (Pandas.cumsum_from a bs).
Proof.
  induction bs as [|b bs IH]; intros a; simpl; constructor.
  - destruct b; lia.
  - eapply Forall_impl; [|apply IH]. intros k Hk; simpl in Hk.
    destruct b; lia.
Qed.

(** The walk with an accumulator and the walk read from the previous
    event describe the same sessions. *)
Lemma segment_from_continue :
  forall l prev current,
    Spec.segment_from prev current l =
    (current ++ fst (Spec.continue (ts prev) l)) :: snd (Spec.continue (ts prev) l).
Proof.
  induction l as [|e l IH]; intros prev current; simpl.
  - now rewrite app_nil_r.
  - rewrite !IH.
    destruct (Spec.continue (ts e) l) as [s ss]; simpl.
    destruct (session_threshold <? ts e - ts prev); simpl.
    + now rewrite app_nil_r.
    + now rewrite <- app_assoc.
Qed.

Lemma session_ids_cons :
  forall a prev t l,
    Pandas.cumsum_from a
      (Pandas.gt session_threshold (Pandas.diff_from prev (t :: l))) =
    (a + (if session_threshold <? t - prev then 1 else 0))
      :: Pandas.cumsum_from
           (a + (if session_threshold <? t - prev then 1 else 0))
           (Pandas.gt session_threshold (Pandas.diff_from t l)).
Proof. reflexivity. Qed.

Lemma session_ids_first :
  forall t l,
    Pandas.cumsum (Pandas.gt session_threshold (Pandas.diff (t :: l))) =
    0 :: Pandas.cumsum_from 0
           (Pandas.gt session_threshold (Pandas.diff_from t l)).
Proof. reflexivity. Qed.

(** Grouping by the running count of gaps is the walk of the
    specification. *)
Lemma groupby_session_ids :
  forall l a p,
    Pandas.groupby
      (a :: Pandas.cumsum_from a
              (Pandas.gt session_threshold
                 (Pandas.diff_from (ts p) (map (@ts Z) l))))
      (p :: l) =
    (a, p :: fst (Spec.continue (ts p) l))
      :: Spec.number_from (a + 1) (snd (Spec.continue (ts p) l)).
Proof.
  induction l as [|e l IH]; intros a p.
  - cbn [map Pandas.diff_from Pandas.gt Pandas.cumsum_from].
    rewrite groupby_cons_min by constructor. reflexivity.
  - rewrite groupby_cons_min by apply cumsum_from_ge.
    cbn [map Spec.continue]. rewrite session_ids_cons, IH.
    destruct (Spec.continue (ts e) l) as [s ss]; cbn [fst snd].
    destruct (session_threshold <? ts e - ts p); cbn [fst snd Spec.number_from].
    + destruct (Z.eqb_spec (a + 1) a); [lia|reflexivity].
    + rewrite Z.add_0_r, Z.eqb_refl. reflexivity.
Qed.

Lemma session_groups_segment :
  forall evs,
    session_groups evs = Spec.number_from 0 (Spec.session_partition evs).
Proof.
  intros evs.
  unfold session_groups, session_id, new_session, time_diff,
    Spec.session_partition, Spec.segment.
  destruct (df_sorted evs) as [|p l]; [reflexivity|].
  cbn [map].
  rewrite session_ids_first, groupby_session_ids, segment_from_continue.
  reflexivity.
Qed.

Lemma number_from_snd :
  forall A (l : list A) k, map snd (Spec.number_from k l) = l.
Proof. induction l; intros; simpl; auto. now rewrite IHl. Qed.

Lemma number_from_length :
  forall A (l : list A) k, List.length (Spec.number_from k l) = List.length l.
Proof. induction l; intros; simpl; auto. Qed.

(** *** Chronological order *)

Section SortFacts.
Context {A : Type} (by_ : A -> Z).

Lemma insert_row_perm :
  forall x l, Permutation (x :: l) (Pandas.insert_row by_ x l).
Proof.
  intros x l; induction l as [|y l IH]; simpl; auto.
  destruct (by_ y <? by_ x); auto.
  eapply perm_trans; [apply perm_swap|]. now apply perm_skip.
Qed.

Lemma sort_values_perm :
  forall l, Permutation l (Pandas.sort_values by_ l).
Proof.
  induction l as [|x l IH]; simpl; auto.
  eapply perm_trans; [apply perm_skip, IH|apply insert_row_perm].
Qed.

Lemma insert_row_sorted :
  forall x l,
    StronglySorted (Spec.ascending by_) l ->
    StronglySorted (Spec.ascending by_) (Pandas.insert_row by_ x l).
Proof.
  intros x l Hs; induction Hs as [|y l Hs IH Hall]; simpl.
  - repeat constructor.
  - destruct (Z.ltb_spec (by_ y) (by_ x)).
    + constructor; auto.
      eapply Permutation_Forall; [apply insert_row_perm|].
      constructor; auto. unfold Spec.ascending. lia.
    + constructor; [now constructor|].
      constructor; [assumption|].
      eapply Forall_impl; [|exact Hall].
      unfold Spec.ascending. intros; lia.
Qed.

Lemma sort_values_sorted :
  forall l, StronglySorted (Spec.ascending by_) (Pandas.sort_values by_ l).
Proof.
  induction l; simpl; [constructor|now apply insert_row_sorted].
Qed.

(** A list in strictly ascending order is the only ascending
    arrangement of its elements. *)
Lemma ascending_arrangement_unique :
  forall l s,
    StronglySorted (fun a b => by_ a < by_ b) l ->
    StronglySorted (Spec.ascending by_) s ->
    Permutation s l ->
    s = l.
Proof.
  induction l as [|x l IH]; intros s Hl Hs Hp.
  - now apply Permutation_nil, Permutation_sym.
  - destruct s as [|y s]; [apply Permutation_nil in Hp; discriminate|].
    inversion Hl as [|? ? Hl' Hlx]; subst.
    inversion Hs as [|? ? Hs' Hsy]; subst.
    assert (y = x) as ->.
    { assert (Hy : In y (x :: l)) by (eapply Permutation_in; [exact Hp|now left]).
      assert (Hx : In x (y :: s))
        by (eapply Permutation_in; [apply Permutation_sym, Hp|now left]).
      destruct Hy as [Hy|Hy]; [now subst|].
      destruct Hx as [Hx|Hx]; [now subst|].
      rewrite Forall_forall in Hlx, Hsy.
      specialize (Hlx _ Hy). specialize (Hsy _ Hx).
      unfold Spec.ascending in Hsy. lia. }
    f_equal. apply IH; auto. eapply Permutation_cons_inv; eauto.
Qed.
End SortFacts.

Lemma df_sorted_perm : forall evs, Permutation evs (df_sorted evs).
Proof. intros. apply sort_values_perm. Qed.

Lemma df_sorted_ascending :
  forall evs, StronglySorted (Spec.ascending (@ts Z)) (df_sorted evs).
Proof. intros. apply sort_values_sorted. Qed.

(** C3: segmentation puts the events in ascending order of timestamp
    and starts a new session exactly when the gap since the previous
    event strictly exceeds 30 minutes, or at the very first event: the
    groups of [session_id], numbered from 0, are the sessions the walk of
    the specification finds in the sorted events.  In particular three
    events of which the second is 40 minutes after the first and the
    third 10 minutes after the second, given in any order, make exactly
    two sessions: the first event, and the other two. *)
Theorem C3_sessions_split_at_gaps_over_30_minutes :
  (forall evs,
      Permutation evs (df_sorted evs) /\
      StronglySorted (fun a b => ts a <= ts b) (df_sorted evs) /\
      session_groups evs = Spec.number_from 0 (Spec.segment (df_sorted evs))) /\
  (forall (e1 e2 e3 : PlayEvent) evs,
      ts e2 = ts e1 + 40 * Calendar.ns_per_minute ->
      ts e3 = ts e2 + 10 * Calendar.ns_per_minute ->
      Permutation evs [e1; e2; e3] ->
      session_groups evs = [(0, [e1]); (1, [e2; e3])]).
Proof.
  split.
  - intros evs. split; [apply df_sorted_perm|split].
    + apply df_sorted_ascending.
    + apply session_groups_segment.
  - intros e1 e2 e3 evs H12 H23 Hp.
    assert (Hsorted : df_sorted evs = [e1; e2; e3]).
    { apply ascending_arrangement_unique with (by_ := @ts Z).
      - unfold Calendar.ns_per_minute, Calendar.ns_per_second in *.
        repeat constructor; lia.
      - apply df_sorted_ascending.
      - eapply perm_trans; [apply Permutation_sym, df_sorted_perm|exact Hp]. }
    rewrite session_groups_segment. unfold Spec.session_partition.
    rewrite Hsorted. simpl.
    replace (ts e2 - ts e1) with (40 * Calendar.ns_per_minute) by lia.
    replace (ts e3 - ts e2) with (10 * Calendar.ns_per_minute) by lia.
    reflexivity.
Qed.

Lemma C3_sessions_witness :
  session_groups
    [Sample.song (Sample.minutes 50) "c"; Sample.song 0 "a";
     Sample.song (Sample.minutes 40) "b"]
  = [(0, [Sample.song 0 "a"]);
     (1, [Sample.song (Sample.minutes 40) "b";
          Sample.song (Sample.minutes 50) "c"])].
Proof.
  apply (proj2 C3_sessions_split_at_gaps_over_30_minutes
           (Sample.song 0 "a") (Sample.song (Sample.minutes 40) "b")
           (Sample.song (Sample.minutes 50) "c")).
  - reflexivity.
  - reflexivity.
  - exact (Permutation_cons_append [_; _] _).
Defined.

(** *** Session statistics *)

Lemma sessions_track_counts :
  forall evs,
    map (fun s => snd (snd s)) (sessions evs) =
    map Spec.named_tracks (Spec.session_partition evs).
Proof.
  intros evs. unfold sessions. rewrite session_groups_segment, map_map.
  rewrite <- (number_from_snd (Spec.session_partition evs) 0) at 2.
  rewrite map_map. reflexivity.
Qed.

Lemma sessions_length :
  forall evs, List.length (sessions evs) = List.length (Spec.session_partition evs).
Proof.
  intros evs. unfold sessions.
  now rewrite length_map, session_groups_segment, number_from_length.
Qed.

Lemma session_partition_not_nil :
  forall evs, evs <> [] -> Spec.session_partition evs <> [].
Proof.
  intros evs Hne. unfold Spec.session_partition, Spec.segment.
  destruct (df_sorted evs) as [|p l] eqn:Es.
  - exfalso. apply Hne. apply Permutation_nil, Permutation_sym.
    rewrite <- Es. apply df_sorted_perm.
  - rewrite segment_from_continue. discriminate.
Qed.

Lemma fdiv_number :
  forall a n, (0 < n)%nat -> Spec.is_number (fdiv a (of_nat n)).
Proof.
  intros a n Hn. unfold fdiv, of_nat.
  destruct (Qeq_bool (Z.of_nat n # 1) 0) eqn:E.
  - apply Qeq_bool_eq in E. unfold Qeq in E. simpl in E. lia.
  - eexists; reflexivity.
Qed.

Lemma mean_nat_number :
  forall l, l <> [] -> Spec.is_number (Pandas.mean_nat l).
Proof.
  intros l Hl. unfold Pandas.mean_nat, Pandas.mean.
  apply fdiv_number. rewrite length_map.
  destruct l; [congruence|simpl; lia].
Qed.

Lemma round2_number :
  forall x, Spec.is_number x -> Spec.is_number (round2 x).
Proof. intros x [q ->]. eexists; reflexivity. Qed.

(** C2, as stated, fails: the claim is that [average_tracks_per_session]
    is the mean over the sessions of the number of events of each
    session, whether or not their track name is null.  The code counts
    [master_metadata_track_name], and ['count'] skips nulls: one episode
    without a track name makes one session of one event, and an average
    of 0 tracks. *)
Lemma C2_null_track_names_are_not_counted :
  let evs := [Sample.episode Sample.noon] in
  exists st df',
    get_comprehensive_stats (frame_of evs) = Ok (st, df') /\
    total_sessions (session_stats st) = 1%nat /\
    Spec.session_partition evs = [evs] /\
    round2 (Spec.mean_events_per_session evs) = Some (1 # 1)%Q /\
    avg_tracks_per_session evs = Some (0 # 1)%Q /\
    average_tracks_per_session (session_stats st) = Some (0 # 1)%Q /\
    average_tracks_per_session (session_stats st)
      <> round2 (Spec.mean_events_per_session evs).
Proof.
  intros evs.
  destruct (get_comprehensive_stats_returns (frame_of evs))
    as (st & df' & Hok); [discriminate|].
  exists st, df'. split; [exact Hok|].
  destruct (get_comprehensive_stats_fields _ Hok) as (_ & _ & _ & _ & Hs & _).
  rewrite Hs. cbn [total_sessions average_tracks_per_session].
  repeat split; try (vm_compute; reflexivity).
  vm_compute. discriminate.
Qed.

(** C2, amended: the average the analyzer computes
    ([avg_tracks_per_session], line 72) is the mean over the sessions of
    the number of events of each session whose track name is not null,
    and [total_sessions] is the number of sessions; for every non-empty
    input the report is returned, these equal the values computed from
    the session partition of all records, and the reported
    [average_tracks_per_session], which is that average rounded to 2
    decimals, is a number no more than a hundredth away from it. *)
Theorem C2_average_tracks_per_session_counts_named_tracks :
  forall df,
    rows df <> [] ->
    exists st df',
      get_comprehensive_stats df = Ok (st, df') /\
      let partition := Spec.session_partition (rows df) in
      total_sessions (session_stats st) = List.length partition /\
      avg_tracks_per_session (rows df)
        = Pandas.mean_nat (map Spec.named_tracks partition) /\
      Spec.within_a_hundredth
        (Pandas.mean_nat (map Spec.named_tracks partition))
        (average_tracks_per_session (session_stats st)) /\
      Spec.is_number (average_tracks_per_session (session_stats st)).
Proof.
  intros df Hne.
  destruct (get_comprehensive_stats_returns df Hne) as (st & df' & Hok).
  exists st, df'. split; [exact Hok|].
  destruct (get_comprehensive_stats_fields _ Hok) as (_ & _ & _ & _ & Hs & _).
  rewrite Hs; cbn [total_sessions average_tracks_per_session].
  unfold avg_tracks_per_session. rewrite sessions_track_counts, sessions_length.
  assert (Hnum : Spec.is_number
                   (Pandas.mean_nat
                      (map Spec.named_tracks (Spec.session_partition (rows df))))).
  { apply mean_nat_number.
    intros Hnil. apply map_eq_nil in Hnil.
    now apply (session_partition_not_nil Hne). }
  cbv zeta. split; [reflexivity|]. split; [reflexivity|].
  destruct Hnum as [q Hq]. rewrite Hq. split.
  - apply round2_within_a_hundredth.
  - apply round2_number. now exists q.
Qed.

Lemma C2_average_tracks_witness :
  exists st df',
    get_comprehensive_stats
      (frame_of [Sample.song 0 "a"; Sample.episode (Sample.minutes 5);
                 Sample.song (Sample.minutes 50) "b"]) = Ok (st, df') /\
    total_sessions (session_stats st) = 2%nat /\
    avg_tracks_per_session
      [Sample.song 0 "a"; Sample.episode (Sample.minutes 5);
       Sample.song (Sample.minutes 50) "b"] = Some (1 # 1)%Q /\
    Spec.within_a_hundredth
      (Some (1 # 1)%Q) (average_tracks_per_session (session_stats st)) /\
    Spec.is_number (average_tracks_per_session (session_stats st)).
Proof.
  apply (@C2_average_tracks_per_session_counts_named_tracks
           (frame_of [Sample.song 0 "a"; Sample.episode (Sample.minutes 5);
                      Sample.song (Sample.minutes 50) "b"])).
  discriminate.
Defined.

(** *** The session of an event is decided by its timestamp *)

Lemma session_threshold_pos : 0 < session_threshold.
Proof. reflexivity. Qed.

Lemma starts_after :
  forall l t,
    StronglySorted Z.le (t :: l) -> Forall (fun b => t < b) (Spec.starts t l).
Proof.
  induction l as [|u l IH]; intros t Hs; simpl; [constructor|].
  inversion Hs as [|? ? Hs' Hall]; subst.
  inversion Hall as [|? ? Htu _]; subst.
  specialize (IH u Hs').
  assert (Hrest : Forall (fun b => t < b) (Spec.starts u l)).
  { eapply Forall_impl; [|exact IH]. intros b Hb; simpl in Hb. lia. }
  pose proof session_threshold_pos.
  destruct (Z.ltb_spec session_threshold (u - t)); auto.
  constructor; auto. lia.
Qed.

Lemma session_of_none_before :
  forall bounds t, Forall (fun b => t < b) bounds -> Spec.session_of bounds t = 0.
Proof.
  intros bounds t Hall. unfold Spec.session_of.
  induction Hall as [|b bounds Hb _ IH]; [reflexivity|].
  simpl. destruct (Z.leb_spec b t); [lia|exact IH].
Qed.

Lemma session_of_cons :
  forall b bounds t,
    Spec.session_of (b :: bounds) t =
    (if b <=? t then 1 else 0) + Spec.session_of bounds t.
Proof.
  intros. unfold Spec.session_of. simpl.
  destruct (b <=? t); simpl List.length; lia.
Qed.

(** Along a chronological sequence, the running count of gaps is the
    number of session starts at or before each timestamp. *)
Lemma session_ids_by_timestamp :
  forall l a prev,
    StronglySorted Z.le (prev :: l) ->
    Pandas.cumsum_from a
      (Pandas.gt session_threshold (Pandas.diff_from prev l)) =
    map (fun t => a + Spec.session_of (Spec.starts prev l) t) l.
Proof.
  induction l as [|u l IH]; intros a prev Hs; [reflexivity|].
  inversion Hs as [|? ? Hs' Hall]; subst.
  rewrite session_ids_cons, (IH _ u Hs'). cbn [map Spec.starts].
  pose proof (starts_after Hs') as Hafter.
  inversion Hs' as [|? ? _ Hu]; subst.
  destruct (session_threshold <? u - prev).
  - f_equal.
    + rewrite session_of_cons, Z.leb_refl.
      rewrite (session_of_none_before Hafter). reflexivity.
    + apply map_ext_in. intros t Ht. rewrite session_of_cons.
      rewrite Forall_forall in Hu. specialize (Hu _ Ht).
      destruct (Z.leb_spec u t); lia.
  - f_equal.
    + rewrite (session_of_none_before Hafter). reflexivity.
    + apply map_ext_in. intros t Ht. lia.
Qed.

Lemma ascending_stamps :
  forall s : list PlayEvent,
    StronglySorted (Spec.ascending (@ts Z)) s -> StronglySorted Z.le (map (@ts Z) s).
Proof.
  induction 1 as [|e s Hs IH Hall]; simpl; constructor; auto.
  apply Forall_map. exact Hall.
Qed.

Lemma session_id_by_timestamp :
  forall evs,
    session_id evs =
    map (fun e => Spec.session_of
                    (Spec.boundaries (map (@ts Z) (df_sorted evs))) (ts e))
        (df_sorted evs).
Proof.
  intros evs. unfold session_id, new_session, time_diff.
  pose proof (ascending_stamps (df_sorted_ascending evs)) as Hs.
  destruct (df_sorted evs) as [|p l]; [reflexivity|].
  cbn [map] in *. rewrite session_ids_first.
  rewrite (session_ids_by_timestamp 0 Hs). cbn [Spec.boundaries].
  rewrite (session_of_none_before (starts_after Hs)).
  f_equal. rewrite map_map. reflexivity.
Qed.

(** Chronological sequences of the same timestamps are equal. *)
Lemma sorted_stamps_unique :
  forall l s : list Z,
    StronglySorted Z.le l -> StronglySorted Z.le s -> Permutation s l -> s = l.
Proof.
  induction l as [|x l IH]; intros s Hl Hs Hp.
  - now apply Permutation_nil, Permutation_sym.
  - destruct s as [|y s]; [apply Permutation_nil in Hp; discriminate|].
    inversion Hl as [|? ? Hl' Hlx]; subst.
    inversion Hs as [|? ? Hs' Hsy]; subst.
    assert (y = x) as ->.
    { assert (Hy : In y (x :: l)) by (eapply Permutation_in; [exact Hp|now left]).
      assert (Hx : In x (y :: s))
        by (eapply Permutation_in; [apply Permutation_sym, Hp|now left]).
      destruct Hy as [Hy|Hy]; [now subst|].
      destruct Hx as [Hx|Hx]; [now subst|].
      rewrite Forall_forall in Hlx, Hsy.
      specialize (Hlx _ Hy). specialize (Hsy _ Hx). lia. }
    f_equal. apply IH; auto. eapply Permutation_cons_inv; eauto.
Qed.

Lemma df_sorted_stamps_perm :
  forall l1 l2,
    Permutation l1 l2 ->
    map (@ts Z) (df_sorted l1) = map (@ts Z) (df_sorted l2).
Proof.
  intros l1 l2 Hp. apply sorted_stamps_unique.
  - apply ascending_stamps, df_sorted_ascending.
  - apply ascending_stamps, df_sorted_ascending.
  - apply Permutation_map.
    eapply perm_trans; [apply Permutation_sym, df_sorted_perm|].
    eapply perm_trans; [exact Hp|apply df_sorted_perm].
Qed.

Lemma filter_perm :
  forall A (f : A -> bool) l l',
    Permutation l l' -> Permutation (filter f l) (filter f l').
Proof.
  induction 1 as [|x l l' _ IH|x y l|l l' l'' _ IH1 _ IH2]; simpl; auto.
  - destruct (f x); auto.
  - destruct (f x), (f y); auto. apply perm_swap.
  - eapply perm_trans; eauto.
Qed.

Lemma zsum_perm : forall l l', Permutation l l' -> zsum l = zsum l'.
Proof. induction 1; simpl; lia. Qed.

Lemma sum_perm : forall l l', Permutation l l' -> Pandas.sum l = Pandas.sum l'.
Proof. intros l l' Hp. unfold Pandas.sum. now rewrite (zsum_perm Hp). Qed.

Lemma session_groups_by_timestamp :
  forall evs,
    session_groups evs =
    map (fun k =>
           (k, filter (fun e => Spec.session_of
                                  (Spec.boundaries (map (@ts Z) (df_sorted evs)))
                                  (ts e) =? k)
                      (df_sorted evs)))
        (Pandas.group_keys (session_id evs)).
Proof.
  intros evs. unfold session_groups, Pandas.groupby.
  apply map_ext. intros k. f_equal.
  rewrite session_id_by_timestamp. apply rows_of_key_map.
Qed.

Lemma count_perm :
  forall A (col col' : Pandas.column A),
    Permutation col col' -> Pandas.count col = Pandas.count col'.
Proof.
  intros A col col' Hp. unfold Pandas.count.
  now apply Permutation_length, filter_perm.
Qed.

(** C8: segmentation does not depend on the order in which the events
    are given.  For every list of events and every reordering of it, the
    sorted timestamps, the session ids along them and the session keys
    are identical, every session holds the same events, and the
    per-session aggregates are equal. *)
Theorem C8_segmentation_ignores_input_order :
  forall l1 l2 : list PlayEvent,
    Permutation l1 l2 ->
    map (@ts Z) (df_sorted l1) = map (@ts Z) (df_sorted l2) /\
    session_id l1 = session_id l2 /\
    map fst (session_groups l1) = map fst (session_groups l2) /\
    Spec.same_partition (map snd (session_groups l1)) (map snd (session_groups l2)) /\
    Spec.same_partition (Spec.session_partition l1) (Spec.session_partition l2) /\
    sessions l1 = sessions l2.
Proof.
  intros l1 l2 Hp.
  pose proof (df_sorted_stamps_perm Hp) as Hts.
  assert (Hsorted : Permutation (df_sorted l1) (df_sorted l2)).
  { eapply perm_trans; [apply Permutation_sym, df_sorted_perm|].
    eapply perm_trans; [exact Hp|apply df_sorted_perm]. }
  assert (Hid : session_id l1 = session_id l2).
  { rewrite !session_id_by_timestamp, Hts.
    rewrite <- !(map_map (@ts Z)
                   (fun t => Spec.session_of
                               (Spec.boundaries (map (@ts Z) (df_sorted l2))) t)).
    now rewrite Hts. }
  assert (Hparts :
      Spec.same_partition (map snd (session_groups l1)) (map snd (session_groups l2))).
  { rewrite !session_groups_by_timestamp, Hid, Hts, !map_map. cbn [snd].
    unfold Spec.same_partition.
    induction (Pandas.group_keys (session_id l2)) as [|k keys IH]; simpl;
      constructor; auto.
    now apply filter_perm. }
  split; [exact Hts|]. split; [exact Hid|]. split; [|split; [exact Hparts|split]].
  - rewrite !session_groups_by_timestamp, Hid, !map_map. reflexivity.
  - rewrite !session_groups_segment, !number_from_snd in Hparts. exact Hparts.
  - unfold sessions.
    rewrite !session_groups_by_timestamp, Hid, Hts, !map_map. cbn [fst snd].
    apply map_ext. intros k. f_equal. f_equal.
    + apply sum_perm, Permutation_map, filter_perm, Hsorted.
    + apply count_perm, Permutation_map, filter_perm, Hsorted.
Qed.

Lemma C8_segmentation_witness :
  let l1 := [Sample.song 0 "a"; Sample.song (Sample.minutes 40) "b";
             Sample.episode (Sample.minutes 40)] in
  let l2 := [Sample.episode (Sample.minutes 40);
             Sample.song (Sample.minutes 40) "b"; Sample.song 0 "a"] in
  map (@ts Z) (df_sorted l1) = map (@ts Z) (df_sorted l2) /\
  session_id l1 = session_id l2 /\
  map fst (session_groups l1) = map fst (session_groups l2) /\
  Spec.same_partition (map snd (session_groups l1)) (map snd (session_groups l2)) /\
  Spec.same_partition (Spec.session_partition l1) (Spec.session_partition l2) /\
  sessions l1 = sessions l2.
Proof.
  apply C8_segmentation_ignores_input_order.
  apply Permutation_rev.
Defined.

(** ** Rolling averages *)

Lemma non_null_app :
  forall A (l l' : Pandas.column A),
    Spec.non_null (l ++ l') = Spec.non_null l ++ Spec.non_null l'.
Proof.
  induction l as [|[a|] l IH]; intros l'; simpl; auto. now rewrite IH.
Qed.

Lemma non_null_length :
  forall A (l : Pandas.column A),
    (List.length (Spec.non_null l) <= List.length l)%nat.
Proof. induction l as [|[a|] l IH]; simpl; lia. Qed.

Lemma qsum_app : forall l l', (qsum (l ++ l') == qsum l + qsum l')%Q.
Proof.
  induction l as [|q l IH]; intros l'; simpl.
  - now rewrite Qplus_0_l.
  - rewrite IH. now rewrite Qplus_assoc.
Qed.

Lemma fdiv_compat :
  forall a a' b, (a == a')%Q -> fdiv a b = fdiv a' b.
Proof.
  intros a a' b Ha. unfold fdiv. destruct (Qeq_bool b 0); auto.
  f_equal. apply Qred_complete. now rewrite Ha.
Qed.

Lemma tracks_nil : Spec.tracks (0%Q, 0%nat) [].
Proof. split; reflexivity. Qed.

Lemma tracks_add :
  forall st window x,
    Spec.tracks st window -> Spec.tracks (Pandas.add_obs x st) (window ++ [x]).
Proof.
  intros [s n] window x [Hs Hn]; simpl in *.
  unfold Spec.tracks. rewrite non_null_app, qsum_app, length_app.
  destruct x as [q|]; simpl.
  - split; [rewrite Hs; ring|lia].
  - split; [rewrite Hs; ring|lia].
Qed.

Lemma tracks_remove :
  forall st old kept,
    Spec.tracks st (old :: kept) -> Spec.tracks (Pandas.remove_obs old st) kept.
Proof.
  intros [s n] old kept [Hs Hn]; simpl in *.
  destruct old as [q|]; simpl in *; unfold Spec.tracks; simpl.
  - split; [rewrite Hs; ring|lia].
  - split; auto.
Qed.

Lemma window_mean_value :
  forall w st window,
    Spec.tracks st window -> Pandas.window_mean w st = Spec.window_value w window.
Proof.
  intros w [s n] window [Hs Hn]; simpl in *.
  unfold Pandas.window_mean, Spec.window_value, Pandas.mean; simpl.
  subst n. destruct (w <=? _)%nat; auto. now apply fdiv_compat.
Qed.

Lemma lastn_short :
  forall A w (l : list A), (List.length l <= w)%nat -> Spec.lastn w l = l.
Proof.
  intros A w l Hl. unfold Spec.lastn.
  now replace (List.length l - w)%nat with O by lia.
Qed.

Lemma lastn_length :
  forall A w (l : list A), List.length (Spec.lastn w l) = Nat.min w (List.length l).
Proof. intros. unfold Spec.lastn. rewrite length_skipn. lia. Qed.

Lemma skipn_S_tl :
  forall A n (l : list A), skipn (S n) l = tl (skipn n l).
Proof.
  intros A n; induction n as [|n IH]; intros l.
  - destruct l; reflexivity.
  - destruct l as [|a l]; [reflexivity|]. simpl skipn at 2. rewrite <- IH. reflexivity.
Qed.

(** The window holds the last [w] rows seen. *)
Lemma slide_window :
  forall w pre st x,
    Spec.tracks st (Spec.lastn w pre) ->
    fst (Pandas.slide w (Spec.lastn w pre) st x) = Spec.lastn w (pre ++ [x]) /\
    Spec.tracks (snd (Pandas.slide w (Spec.lastn w pre) st x))
                (Spec.lastn w (pre ++ [x])).
Proof.
  intros w pre st x Ht.
  pose proof (@tracks_add _ _ x Ht) as Ht1.
  unfold Pandas.slide.
  rewrite length_app, lastn_length. simpl List.length.
  destruct (Nat.ltb_spec w (Nat.min w (List.length pre) + 1)) as [Hfull|Hroom].
  - assert (Hw : (w <= List.length pre)%nat) by lia.
    assert (Hlast : Spec.lastn w (pre ++ [x])
                    = tl (Spec.lastn w pre ++ [x])).
    { unfold Spec.lastn. rewrite length_app. simpl List.length.
      replace (List.length pre + 1 - w)%nat with (S (List.length pre - w)) by lia.
      rewrite skipn_S_tl, skipn_app.
      replace (List.length pre - w - List.length pre)%nat with O by lia.
      reflexivity. }
    rewrite Hlast.
    destruct (Spec.lastn w pre ++ [x]) as [|old kept] eqn:Ew.
    + destruct (Spec.lastn w pre); discriminate.
    + simpl. split; auto. now apply tracks_remove.
  - assert (Hshort : (List.length pre < w)%nat) by lia.
    rewrite (@lastn_short _ w pre) in * by lia.
    rewrite (@lastn_short _ w (pre ++ [x])) by (rewrite length_app; simpl; lia).
    simpl. auto.
Qed.

Lemma roll_mean_windows :
  forall w xs pre st,
    Spec.tracks st (Spec.lastn w pre) ->
    Pandas.roll_mean w (Spec.lastn w pre) st xs =
    map (fun i => Spec.window_value w (Spec.lastn w (pre ++ firstn (S i) xs)))
        (seq 0 (List.length xs)).
Proof.
  induction xs as [|x xs IH]; intros pre st Ht; [reflexivity|].
  cbn [Pandas.roll_mean List.length seq map].
  destruct (@slide_window w pre st x Ht) as [Hwin Hst].
  destruct (Pandas.slide w (Spec.lastn w pre) st x) as [window2 st2].
  simpl in Hwin, Hst. subst window2.
  f_equal.
  - cbn [firstn]. now apply window_mean_value.
  - rewrite (IH _ _ Hst), <- seq_shift, map_map.
    apply map_ext. intros i. cbn [firstn].
    now rewrite <- app_assoc.
Qed.

Lemma rolling_mean_nth :
  forall w xs i,
    (i < List.length xs)%nat ->
    nth i (Pandas.rolling_mean w xs) NaN =
    Spec.window_value w (Spec.lastn w (firstn (S i) xs)).
Proof.
  intros w xs i Hi. unfold Pandas.rolling_mean.
  change (@nil float) with (Spec.lastn w (@nil float)).
  rewrite (@roll_mean_windows w xs [] _ tracks_nil).
  rewrite (nth_indep _ NaN (Spec.window_value w (Spec.lastn w ([] ++ firstn 1 xs))))
    by (rewrite length_map, length_seq; exact Hi).
  rewrite (map_nth (fun i => Spec.window_value w (Spec.lastn w ([] ++ firstn (S i) xs)))
                   (seq 0 (List.length xs)) O i).
  rewrite seq_nth by exact Hi. reflexivity.
Qed.

Lemma window_value_short :
  forall w window,
    (List.length window < w)%nat -> Spec.window_value w window = NaN.
Proof.
  intros w window Hlen. unfold Spec.window_value.
  pose proof (non_null_length window).
  destruct (Nat.leb_spec w (List.length (Spec.non_null window))); [lia|reflexivity].
Qed.

Lemma numbers_some :
  forall l qs,
    Spec.numbers l = Some qs ->
    Spec.non_null l = qs /\ List.length qs = List.length l.
Proof.
  induction l as [|[q|] l IH]; intros qs Hn; simpl in Hn.
  - inversion Hn. auto.
  - destruct (Spec.numbers l) as [qs'|]; [|discriminate].
    inversion Hn; subst. destruct (IH qs' eq_refl) as [Hnn Hlen].
    simpl. rewrite Hnn, Hlen. auto.
  - discriminate.
Qed.

Lemma numbers_none :
  forall l,
    Spec.numbers l = None ->
    (List.length (Spec.non_null l) < List.length l)%nat.
Proof.
  induction l as [|[q|] l IH]; intros Hn; simpl in *.
  - discriminate.
  - destruct (Spec.numbers l); [discriminate|]. specialize (IH eq_refl). lia.
  - pose proof (non_null_length l). lia.
Qed.

(** A full window stands for the simple mean of its rows. *)
Lemma window_value_full :
  forall w window,
    List.length window = w ->
    Spec.window_value w window = Spec.simple_mean window.
Proof.
  intros w window Hlen. unfold Spec.window_value, Spec.simple_mean.
  destruct (Spec.numbers window) as [qs|] eqn:En.
  - destruct (numbers_some _ En) as [-> Hq].
    rewrite Hq, Hlen, Nat.leb_refl. reflexivity.
  - apply numbers_none in En.
    destruct (Nat.leb_spec w (List.length (Spec.non_null window))); [lia|reflexivity].
Qed.

Lemma lastn_window7 :
  forall A (xs : list A) i,
    (6 <= i)%nat -> (i < List.length xs)%nat ->
    Spec.lastn 7 (firstn (S i) xs) = Spec.window7 i xs.
Proof.
  intros A xs i H6 Hi. unfold Spec.lastn, Spec.window7.
  rewrite length_firstn.
  replace (Nat.min (S i) (List.length xs) - 7)%nat with (i - 6)%nat by lia.
  rewrite skipn_firstn_comm. f_equal. lia.
Qed.

(** [rolling(7).mean()] is the trailing mean of 7 rows. *)
Lemma rolling_mean_trailing7 :
  forall xs, Spec.trailing7 xs (Pandas.rolling_mean 7 xs).
Proof.
  intros xs. split; [apply rolling_mean_length|].
  intros i Hi. rewrite rolling_mean_nth by exact Hi.
  destruct (Nat.ltb_spec i 6) as [Hlt|Hge].
  - apply window_value_short. unfold Spec.lastn.
    rewrite length_skipn, length_firstn. lia.
  - rewrite lastn_window7 by assumption.
    apply window_value_full. unfold Spec.window7.
    rewrite length_firstn, length_skipn. lia.
Qed.

(** The daily series hold numbers: no date has a group without rows. *)
Lemma mean_bool_number :
  forall l, l <> [] -> Spec.is_number (Pandas.mean_bool l).
Proof.
  intros l Hl. unfold Pandas.mean_bool, Pandas.mean.
  apply fdiv_number. rewrite length_map.
  destruct l; [congruence|simpl; lia].
Qed.

Lemma daily_stats_numbers :
  forall evs,
    Forall (fun d => Spec.is_number (d_hours_played d) /\
                     Spec.is_number (d_skipped d) /\
                     Spec.is_number (d_offline d) /\
                     Spec.is_number (d_shuffle d))
           (daily_stats evs).
Proof.
  intros evs. unfold daily_stats. apply Forall_map, Forall_forall.
  intros g Hg. apply groupby_map_nonempty in Hg. cbn.
  assert (Hmap : forall (B : Type) (f : PlayEvent -> B), map f (snd g) <> []).
  { intros B f Hm. apply Hg. now apply map_eq_nil in Hm. }
  repeat split; try (apply mean_bool_number, Hmap).
  eexists; reflexivity.
Qed.

(** The mean of seven numbers, written out. *)
Lemma simple_mean_of_7 :
  forall window,
    List.length window = 7%nat -> Forall Spec.is_number window ->
    exists qs, window = map Some qs /\ List.length qs = 7%nat /\
               Spec.simple_mean window = Some (Qred (qsum qs / 7)).
Proof.
  intros window Hlen Hnum.
  assert (Hqs : exists qs, window = map Some qs).
  { clear Hlen. induction Hnum as [|x l [q ->] _ [qs ->]].
    - now exists [].
    - now exists (q :: qs). }
  destruct Hqs as [qs ->]. exists qs. rewrite length_map in Hlen.
  repeat split; auto.
  unfold Spec.simple_mean.
  assert (Hn : Spec.numbers (map Some qs) = Some qs).
  { clear. induction qs as [|q qs IH]; simpl; auto. now rewrite IH. }
  rewrite Hn. unfold Pandas.mean. rewrite Hlen. reflexivity.
Qed.

Lemma window7_In :
  forall A i (l : list A) x, In x (Spec.window7 i l) -> In x l.
Proof.
  intros A i l x Hx. unfold Spec.window7 in Hx.
  rewrite <- (firstn_skipn (i - 6) l). apply in_or_app. right.
  rewrite <- (firstn_skipn 7 (skipn (i - 6) l)). apply in_or_app. now left.
Qed.

(** C4: in each of the five rolling series of the trends, the entries at
    indices 0 to 5 are NaN and every entry at an index i >= 6 is the
    simple mean of the daily values at indices i-6 to i, a window of 7
    buckets counted by position; the daily values are numbers, so that
    this mean is the sum of the seven values divided by 7.  For the
    daily hours 1, 2, ..., 10 the rolling value at index 6 is 4 (and at
    index 9 it is 7). *)
Theorem C4_rolling_average_is_the_trailing_mean_of_7_buckets :
  (forall df,
      let d := daily (analyze_listening_trends df) in
      let r := rolling_averages (analyze_listening_trends df) in
      (Spec.trailing7 (hours_played d) (r_hours_played r) /\
       Spec.trailing7 (int_column (tracks_played d)) (r_tracks_played r) /\
       Spec.trailing7 (skip_rates d) (r_skip_rates r) /\
       Spec.trailing7 (offline_rates d) (r_offline_rates r) /\
       Spec.trailing7 (shuffle_rates d) (r_shuffle_rates r)) /\
      (Forall Spec.is_number (hours_played d) /\
       Forall Spec.is_number (int_column (tracks_played d)) /\
       Forall Spec.is_number (skip_rates d) /\
       Forall Spec.is_number (offline_rates d) /\
       Forall Spec.is_number (shuffle_rates d))) /\
  (forall series i,
      Forall Spec.is_number series ->
      (6 <= i)%nat -> (i < List.length series)%nat ->
      exists qs,
        Spec.window7 i series = map Some qs /\ List.length qs = 7%nat /\
        nth i (Pandas.rolling_mean 7 series) NaN = Some (Qred (qsum qs / 7))) /\
  Pandas.rolling_mean 7 Sample.ten_days =
    [NaN; NaN; NaN; NaN; NaN; NaN;
     Some (4 # 1)%Q; Some (5 # 1)%Q; Some (6 # 1)%Q; Some (7 # 1)%Q].
Proof.
  split; [|split].
  - intros df d r. subst d r. unfold analyze_listening_trends.
    cbn -[daily_stats Pandas.rolling_mean Spec.trailing7].
    split.
    + repeat split; apply rolling_mean_trailing7.
    + pose proof (daily_stats_numbers (rows df)) as Hnum.
      repeat split; try (apply Forall_map; eapply Forall_impl; [|exact Hnum];
                         cbv beta; intros a Ha; tauto).
      unfold int_column. apply Forall_map, Forall_forall.
      intros n _. eexists; reflexivity.
  - intros series i Hnum H6 Hi.
    destruct (rolling_mean_trailing7 series) as [_ Hnth].
    rewrite (Hnth i Hi).
    destruct (Nat.ltb_spec i 6) as [Hlt|_]; [lia|].
    apply simple_mean_of_7.
    + unfold Spec.window7. rewrite length_firstn, length_skipn. lia.
    + rewrite Forall_forall in *.
      intros x Hx. apply Hnum. eapply window7_In; eauto.
  - vm_compute. reflexivity.
Qed.

Lemma C4_rolling_average_witness :
  exists qs,
    Spec.window7 6 Sample.ten_days = map Some qs /\ List.length qs = 7%nat /\
    nth 6 (Pandas.rolling_mean 7 Sample.ten_days) NaN
      = Some (Qred (qsum qs / 7)).
Proof.
  apply (proj1 (proj2 C4_rolling_average_is_the_trailing_mean_of_7_buckets)).
  - unfold Sample.ten_days. apply Forall_map, Forall_forall.
    intros n _. eexists; reflexivity.
  - apply le_n.
  - vm_compute. repeat constructor.
Defined.

(** ** Rankings *)

Lemma StronglySorted_app_inv :
  forall A (R : A -> A -> Prop) l1 l2,
    StronglySorted R (l1 ++ l2) ->
    StronglySorted R l1 /\ StronglySorted R l2 /\
    (forall a b, In a l1 -> In b l2 -> R a b).
Proof.
  intros A R l1 l2; induction l1 as [|x l1 IH]; simpl; intros Hs.
  - repeat split; auto; [constructor|contradiction].
  - inversion Hs as [|? ? Hs' Hall]; subst.
    destruct (IH Hs') as (H1 & H2 & H12).
    rewrite Forall_app in Hall. destruct Hall as [Hall1 Hall2].
    repeat split; auto.
    + now constructor.
    + intros a b [<-|Ha] Hb; [|now apply H12].
      rewrite Forall_forall in Hall2. now apply Hall2.
Qed.

Lemma StronglySorted_snoc :
  forall A (R : A -> A -> Prop) l x,
    StronglySorted R l -> Forall (fun y => R y x) l ->
    StronglySorted R (l ++ [x]).
Proof.
  intros A R l x Hs; induction Hs as [|y l Hs IH Hall]; intros Hx; simpl.
  - repeat constructor.
  - inversion Hx; subst. constructor; auto.
    apply Forall_app; split; auto.
Qed.

Lemma StronglySorted_ext_in :
  forall A (R R' : A -> A -> Prop) l,
    (forall a b, In a l -> In b l -> R a b -> R' a b) ->
    StronglySorted R l -> StronglySorted R' l.
Proof.
  intros A R R' l Himp Hs; induction Hs as [|y l Hs IH Hall].
  - constructor.
  - constructor.
    + apply IH. intros a b Ha Hb. apply Himp; now right.
    + rewrite Forall_forall in *. intros b Hb.
      apply Himp; [now left|now right|auto].
Qed.

(** *** First occurrences and numbers of occurrences *)

Lemma first_index_lt :
  forall v col, In (Some v) col ->
    (Spec.first_index v col < List.length col)%nat.
Proof.
  intros v col; induction col as [|c col IH]; simpl; [contradiction|].
  intros Hin. destruct (Spec.cell_dec c (Some v)); [lia|].
  destruct Hin as [?|Hin]; [contradiction|]. specialize (IH Hin). lia.
Qed.

Lemma first_index_app :
  forall v col rest, In (Some v) col ->
    Spec.first_index v (col ++ rest) = Spec.first_index v col.
Proof.
  intros v col rest; induction col as [|c col IH]; simpl; [contradiction|].
  intros Hin. destruct (Spec.cell_dec c (Some v)); auto.
  destruct Hin as [?|Hin]; [contradiction|]. now rewrite IH.
Qed.

Lemma first_index_new :
  forall v col, ~ In (Some v) col ->
    Spec.first_index v (col ++ [Some v]) = List.length col.
Proof.
  intros v col; induction col as [|c col IH]; simpl; intros Hnin.
  - destruct (Spec.cell_dec (Some v) (Some v)); congruence.
  - destruct (Spec.cell_dec c (Some v)); [tauto|].
    rewrite IH; tauto.
Qed.

Lemma occurrences_snoc :
  forall v col cell,
    Spec.occurrences v (col ++ [cell]) =
    (Spec.occurrences v col + if Spec.cell_dec cell (Some v) then 1 else 0)%nat.
Proof.
  intros v col cell. unfold Spec.occurrences.
  rewrite count_occ_app. simpl.
  destruct (Spec.cell_dec cell (Some v)); reflexivity.
Qed.

Lemma occurrences_absent :
  forall v col, ~ In (Some v) col -> Spec.occurrences v col = O.
Proof. intros v col Hnin. now apply count_occ_not_In. Qed.

Lemma non_null_In :
  forall A (col : Pandas.column A) a, In a (Spec.non_null col) <-> In (Some a) col.
Proof.
  induction col as [|[b|] col IH]; intros a; simpl.
  - tauto.
  - rewrite IH. split; intros [H|H]; auto; left; congruence.
  - rewrite IH. split; [auto|intros [H|H]; [discriminate|auto]].
Qed.

(** *** The counting pass *)

Section CountingOrder.
Context {K : Type} `{Key K}.

Lemma bump_In_inv :
  forall (k : K) acc v c,
    NoDup (map fst acc) ->
    In (v, c) (Pandas.bump k acc) ->
    (v = k /\ c = 1%nat /\ ~ In k (map fst acc)) \/
    (v = k /\ exists c', c = S c' /\ In (k, c') acc) \/
    (v <> k /\ In (v, c) acc).
Proof.
  intros k acc v c; induction acc as [|[k' c0] acc IH]; simpl; intros Hnd Hin.
  - destruct Hin as [Hin|[]]. inversion Hin; subst. left; auto.
  - inversion Hnd as [|? ? Hk' Hnd']; subst.
    destruct (keq_spec k k') as [->|Hne]; simpl in Hin.
    + destruct Hin as [Hin|Hin].
      * inversion Hin; subst. right; left. split; auto.
        exists c0; split; auto.
      * right; right. split; [|now right].
        intros ->. apply Hk'. apply (in_map fst) in Hin. exact Hin.
    + destruct Hin as [Hin|Hin].
      * inversion Hin; subst. right; right. split; [congruence|now left].
      * destruct (IH Hnd' Hin) as [(-> & -> & Hnin)|[(-> & c' & -> & Hc')|(Hvk & Hv)]].
        -- left. repeat split; auto. intros [?|?]; [congruence|contradiction].
        -- right; left. split; auto. exists c'; split; auto.
        -- right; right. split; auto.
Qed.
End CountingOrder.

Lemma StronglySorted_map_inv :
  forall A B (f : A -> B) (R : B -> B -> Prop) l,
    StronglySorted R (map f l) ->
    StronglySorted (fun a b => R (f a) (f b)) l.
Proof.
  intros A B f R l; induction l as [|x l IH]; simpl; intros Hs.
  - constructor.
  - inversion Hs as [|? ? Hs' Hall]; subst. constructor; auto.
    rewrite Forall_map in Hall. exact Hall.
Qed.

Lemma count_pass_counted :
  forall col : Pandas.column string, Spec.counted col (Pandas.count_pass col).
Proof.
  induction col as [|cell col IH] using rev_ind.
  - repeat split; simpl; try constructor; try tauto.
  - destruct IH as (Hnd & Hkeys & Hocc & Hord).
    assert (Hord' : StronglySorted
              (fun u v => (Spec.first_index u (col ++ [cell])
                           < Spec.first_index v (col ++ [cell]))%nat)
              (map fst (Pandas.count_pass col))).
    { eapply StronglySorted_ext_in; [|exact Hord].
      intros a b Ha Hb Hab. apply Hkeys in Ha, Hb.
      now rewrite !first_index_app. }
    rewrite count_pass_snoc. unfold Spec.counted. destruct cell as [k|].
    + destruct (bump_keys_app k (Pandas.count_pass col))
        as [[Hin Hsame]|[Hnin Happ]].
      * (* [k] was seen before *)
        repeat split.
        -- now rewrite Hsame.
        -- rewrite Hsame, Hkeys, in_app_iff. simpl. tauto.
        -- rewrite Hsame, Hkeys, in_app_iff. simpl.
           intros [Hv|[Hv|[]]]; auto. inversion Hv; subst. now apply Hkeys.
        -- intros v c Hvc. rewrite occurrences_snoc.
           destruct (bump_In_inv _ _ _ _ Hnd Hvc)
             as [(-> & -> & Hk)|[(-> & c' & -> & Hc')|(Hvk & Hv)]].
           ++ contradiction.
           ++ destruct (Spec.cell_dec (Some k) (Some k)); [|congruence].
              rewrite <- (Hocc _ _ Hc'). lia.
           ++ destruct (Spec.cell_dec (Some k) (Some v)); [congruence|].
              rewrite <- (Hocc _ _ Hv). lia.
        -- now rewrite Hsame.
      * (* [k] is new *)
        assert (Hfresh : ~ In (Some k) col) by (now rewrite <- Hkeys).
        rewrite Happ, map_app. simpl map.
        repeat split.
        -- eapply Permutation_NoDup; [apply Permutation_cons_append|].
           now constructor.
        -- rewrite !in_app_iff, Hkeys. simpl.
           intros [Hv|[Hv|[]]]; auto. subst. auto.
        -- rewrite !in_app_iff, Hkeys. simpl.
           intros [Hv|[Hv|[]]]; auto. inversion Hv; subst. auto.
        -- intros v c Hvc. rewrite occurrences_snoc.
           apply in_app_iff in Hvc. destruct Hvc as [Hvc|[Hvc|[]]].
           ++ assert (Hv : In v (map fst (Pandas.count_pass col)))
                by (apply (in_map fst) in Hvc; exact Hvc).
              destruct (Spec.cell_dec (Some k) (Some v)) as [E|_];
                [inversion E; subst; contradiction|].
              rewrite <- (Hocc _ _ Hvc). lia.
           ++ inversion Hvc; subst.
              destruct (Spec.cell_dec (Some v) (Some v)); [|congruence].
              now rewrite occurrences_absent.
        -- apply StronglySorted_snoc; auto.
           apply Forall_forall. intros u Hu. apply Hkeys in Hu.
           rewrite first_index_app, first_index_new by assumption.
           now apply first_index_lt.
    + repeat split; auto.
      * rewrite Hkeys, in_app_iff. tauto.
      * rewrite Hkeys, in_app_iff. simpl.
        intros [Hv|[Hv|[]]]; auto. discriminate.
      * intros v c Hvc. rewrite occurrences_snoc.
        destruct (Spec.cell_dec None (Some v)); [discriminate|].
        rewrite <- (Hocc _ _ Hvc). lia.
Qed.

(** *** Sorting by count *)

Lemma insert_by_count_ranked :
  forall col (x : string * nat) l,
    StronglySorted (Spec.ranks_before col) l ->
    Forall (fun y => (Spec.first_index (fst x) col
                      < Spec.first_index (fst y) col)%nat) l ->
    StronglySorted (Spec.ranks_before col) (Pandas.insert_by_count x l).
Proof.
  intros col x l Hs; induction Hs as [|y l Hs IH Hall]; intros Hx; simpl.
  - repeat constructor.
  - inversion Hx as [|? ? Hxy Hxl]; subst.
    destruct (Nat.ltb_spec (snd x) (snd y)) as [Hlt|Hge].
    + constructor; auto.
      eapply Permutation_Forall; [apply insert_by_count_perm|].
      constructor; auto. now left.
    + constructor; [now constructor|].
      constructor.
      * unfold Spec.ranks_before.
        destruct (Nat.eq_dec (snd x) (snd y)); [right; auto|left; lia].
      * rewrite Forall_forall in *. intros z Hz.
        specialize (Hall _ Hz). specialize (Hxl _ Hz).
        unfold Spec.ranks_before in *.
        destruct (Nat.eq_dec (snd x) (snd z)); [right; auto|left; lia].
Qed.

Lemma sort_by_count_ranked :
  forall col (acc : Pandas.counts string),
    StronglySorted
      (fun a b => (Spec.first_index (fst a) col
                   < Spec.first_index (fst b) col)%nat) acc ->
    StronglySorted (Spec.ranks_before col) (Pandas.sort_by_count acc).
Proof.
  intros col acc Hs; induction Hs as [|x acc Hs IH Hall]; simpl.
  - constructor.
  - apply insert_by_count_ranked; auto.
    eapply Permutation_Forall; [apply sort_by_count_perm|exact Hall].
Qed.

(** [value_counts] is the full ranking of the column. *)
Lemma value_counts_ranking :
  forall col : Pandas.column string,
    let full := Pandas.value_counts col in
    NoDup (map fst full) /\
    (forall v, In v (map fst full) <-> In (Some v) col) /\
    (forall v c, In (v, c) full -> c = Spec.occurrences v col) /\
    StronglySorted (Spec.ranks_before col) full.
Proof.
  intros col full.
  destruct (count_pass_counted col) as (Hnd & Hkeys & Hocc & Hord).
  pose proof (sort_by_count_perm (Pandas.count_pass col)) as Hperm.
  fold (Pandas.value_counts col) in Hperm. fold full in Hperm.
  repeat split.
  - eapply Permutation_NoDup; [apply Permutation_map, Hperm|exact Hnd].
  - intros Hv. apply Hkeys.
    eapply Permutation_in; [apply Permutation_sym, Permutation_map, Hperm|exact Hv].
  - intros Hv. apply Hkeys in Hv.
    eapply Permutation_in; [apply Permutation_map, Hperm|exact Hv].
  - intros v c Hvc. apply Hocc.
    eapply Permutation_in; [apply Permutation_sym, Hperm|exact Hvc].
  - apply sort_by_count_ranked.
    exact (@StronglySorted_map_inv _ _ fst
             (fun u v => (Spec.first_index u col < Spec.first_index v col)%nat)
             _ Hord).
Qed.

Lemma value_counts_length :
  forall col : Pandas.column string,
    List.length (Pandas.value_counts col) = List.length (Spec.distinct_values col).
Proof.
  intros col.
  destruct (value_counts_ranking col) as (Hnd & Hkeys & _).
  rewrite <- (length_map fst). apply Permutation_length, NoDup_Permutation; auto.
  - apply NoDup_nodup.
  - intros v. unfold Spec.distinct_values.
    now rewrite nodup_In, non_null_In, Hkeys.
Qed.

(** The first [n] entries of the ranking are the top [n]. *)
Lemma head_value_counts_is_top :
  forall n (col : Pandas.column string),
    Spec.is_top n col (Pandas.head n (Pandas.value_counts col)).
Proof.
  intros n col. unfold Pandas.head.
  destruct (value_counts_ranking col) as (Hnd & Hkeys & Hocc & Hord).
  set (full := Pandas.value_counts col) in *.
  pose proof (firstn_skipn n full) as Hsplit.
  assert (Hin : forall a, In a (firstn n full) -> In a full).
  { intros a Ha. rewrite <- Hsplit. apply in_or_app. now left. }
  rewrite <- Hsplit in Hord.
  destruct (StronglySorted_app_inv _ _ Hord) as (Htop & _ & Hcross).
  split; [|split; [|split; [|split]]].
  - rewrite <- Hsplit, map_app, <- firstn_map in Hnd.
    rewrite <- firstn_map. now apply NoDup_app_remove_r in Hnd.
  - rewrite length_firstn. unfold full. now rewrite value_counts_length.
  - intros v c Hvc. apply Hin in Hvc. split; [|now apply Hocc].
    apply Hkeys, in_map_iff. exists (v, c). split; auto.
  - exact Htop.
  - intros v Hv Hnot. apply Forall_forall. intros a Ha.
    apply Hcross; auto.
    apply Hkeys, in_map_iff in Hv. destruct Hv as ([v' c] & Hfst & Hvc).
    simpl in Hfst; subst v'.
    rewrite <- (Hocc _ _ Hvc).
    rewrite <- Hsplit in Hvc. apply in_app_or in Hvc.
    destruct Hvc as [Hvc|Hvc]; auto.
    exfalso. apply Hnot. apply in_map_iff. exists (v, c). split; auto.
Qed.

Lemma non_null_all :
  forall A (col : Pandas.column A),
    Forall (fun cell => cell <> None) col ->
    NoDup col ->
    NoDup (Spec.non_null col) /\
    List.length (Spec.non_null col) = List.length col.
Proof.
  intros A col Hall; induction Hall as [|[a|] col Hc Hall IH]; intros Hnd.
  - split; [constructor|reflexivity].
  - inversion Hnd as [|? ? Hnotin Hnd']; subst.
    destruct (IH Hnd') as [Hn Hl]. simpl. split; [|now rewrite Hl].
    constructor; auto. now rewrite non_null_In.
  - congruence.
Qed.

(** *** Rankings whatever the order among equal counts *)

Lemma insert_by_count_descending :
  forall (x : string * nat) l,
    StronglySorted Spec.no_greater_after l ->
    StronglySorted Spec.no_greater_after (Pandas.insert_by_count x l).
Proof.
  intros x l Hs; induction Hs as [|y l Hs IH Hall]; simpl.
  - repeat constructor.
  - destruct (Nat.ltb_spec (snd x) (snd y)).
    + constructor; [exact IH|].
      apply (Permutation_Forall (insert_by_count_perm x l)).
      constructor; [unfold Spec.no_greater_after; lia|exact Hall].
    + constructor; [now constructor|].
      constructor; [exact H|].
      eapply Forall_impl; [|exact Hall].
      unfold Spec.no_greater_after. intros b Hb. lia.
Qed.

(** The sort of this development is one of the library's. *)
Lemma sort_by_count_descending : Spec.descending_sort (@Pandas.sort_by_count string).
Proof.
  intros l. split; [apply sort_by_count_perm|].
  induction l as [|x l IH]; simpl; [constructor|].
  now apply insert_by_count_descending.
Qed.

Lemma insert_after_ties_perm :
  forall x l, Permutation (x :: l) (Sample.insert_after_ties x l).
Proof.
  intros x l; induction l as [|y l IH]; simpl; auto.
  destruct (snd y <? snd x)%nat; auto.
  eapply perm_trans; [apply perm_swap|]. now apply perm_skip.
Qed.

Lemma insert_after_ties_descending :
  forall x l,
    StronglySorted Spec.no_greater_after l ->
    StronglySorted Spec.no_greater_after (Sample.insert_after_ties x l).
Proof.
  intros x l Hs; induction Hs as [|y l Hs IH Hall]; simpl.
  - repeat constructor.
  - destruct (Nat.ltb_spec (snd y) (snd x)).
    + constructor; [now constructor|].
      constructor; [unfold Spec.no_greater_after; lia|].
      eapply Forall_impl; [|exact Hall].
      unfold Spec.no_greater_after. intros b Hb. lia.
    + constructor; [exact IH|].
      apply (Permutation_Forall (insert_after_ties_perm x l)).
      constructor; [exact H|exact Hall].
Qed.

Lemma sort_ties_reversed_descending :
  Spec.descending_sort Sample.sort_ties_reversed.
Proof.
  intros l. split.
  - induction l as [|x l IH]; simpl; auto.
    eapply perm_trans; [apply perm_skip, IH|apply insert_after_ties_perm].
  - induction l as [|x l IH]; simpl; [constructor|].
    now apply insert_after_ties_descending.
Qed.

(** The first [n] entries of what a descending sort makes of the counts
    are [n] most frequent values. *)
Lemma head_value_counts_by_is_top :
  forall sort, Spec.descending_sort sort ->
  forall n (col : Pandas.column string),
    Spec.is_top_up_to_ties n col
      (Pandas.head n (Pandas.value_counts_by sort col)).
Proof.
  intros sort Hsort n col. unfold Pandas.head, Pandas.value_counts_by.
  destruct (count_pass_counted col) as (Hnd0 & Hkeys0 & Hocc0 & _).
  destruct (Hsort (Pandas.count_pass col)) as [Hperm Hord].
  set (full := sort (Pandas.count_pass col)) in *.
  assert (Hnd : NoDup (map fst full)).
  { eapply Permutation_NoDup; [apply Permutation_map, Hperm|exact Hnd0]. }
  assert (Hkeys : forall v, In v (map fst full) <-> In (Some v) col).
  { intros v. rewrite <- Hkeys0. split; intros Hv.
    - eapply Permutation_in;
        [apply Permutation_sym, Permutation_map, Hperm|exact Hv].
    - eapply Permutation_in; [apply Permutation_map, Hperm|exact Hv]. }
  assert (Hocc : forall v c, In (v, c) full -> c = Spec.occurrences v col).
  { intros v c Hvc. apply Hocc0.
    eapply Permutation_in; [apply Permutation_sym, Hperm|exact Hvc]. }
  pose proof (firstn_skipn n full) as Hsplit.
  assert (Hin : forall a, In a (firstn n full) -> In a full).
  { intros a Ha. rewrite <- Hsplit. apply in_or_app. now left. }
  rewrite <- Hsplit in Hord.
  destruct (StronglySorted_app_inv _ _ Hord) as (Htop & _ & Hcross).
  split; [|split; [|split; [|split]]].
  - rewrite <- Hsplit, map_app, <- firstn_map in Hnd.
    rewrite <- firstn_map. now apply NoDup_app_remove_r in Hnd.
  - rewrite length_firstn. f_equal.
    rewrite <- (Permutation_length Hperm).
    rewrite (Permutation_length (sort_by_count_perm (Pandas.count_pass col))).
    apply value_counts_length.
  - intros v c Hvc. apply Hin in Hvc. split; [|now apply Hocc].
    apply Hkeys, in_map_iff. exists (v, c). split; auto.
  - exact Htop.
  - intros v Hv Hnot. apply Forall_forall. intros a Ha.
    apply Hkeys, in_map_iff in Hv. destruct Hv as ([v' c] & Hfst & Hvc).
    simpl in Hfst; subst v'.
    rewrite <- (Hocc _ _ Hvc).
    rewrite <- Hsplit in Hvc. apply in_app_or in Hvc.
    destruct Hvc as [Hvc|Hvc].
    + exfalso. apply Hnot. apply in_map_iff. exists (v, c). split; auto.
    + exact (Hcross _ _ Ha Hvc).
Qed.

(** C7, as stated, fails: the claim is that among equally frequent
    values the ranking keeps the order of first appearance.  The ranking
    is the head of what the library's descending sort makes of the
    counts, and the library promises no order among equal counts.  With
    a descending sort that is not stable, the ranking of twenty tracks
    played once each is not the one the claim describes: it does not
    hold the ten tracks seen first. *)
Lemma C7_equal_counts_need_not_keep_first_seen_order :
  Spec.descending_sort Sample.sort_ties_reversed /\
  In ("t"%string, 1%nat) (top10_by Sample.sort_ties_reversed Sample.twenty) /\
  ~ In ("a"%string, 1%nat) (top10_by Sample.sort_ties_reversed Sample.twenty) /\
  ~ Spec.is_top 10 Sample.twenty
      (top10_by Sample.sort_ties_reversed Sample.twenty).
Proof.
  split; [apply sort_ties_reversed_descending|].
  assert (Htop : top10_by Sample.sort_ties_reversed Sample.twenty
                 = [("t", 1%nat); ("s", 1%nat); ("r", 1%nat); ("q", 1%nat);
                    ("p", 1%nat); ("o", 1%nat); ("n", 1%nat); ("m", 1%nat);
                    ("l", 1%nat); ("k", 1%nat)]%string)
    by (vm_compute; reflexivity).
  rewrite Htop. split; [now left|]. split.
  - intros Hin. repeat (destruct Hin as [Hin|Hin]; [discriminate Hin|]).
    exact Hin.
  - intros (_ & _ & _ & Hsorted & _).
    inversion Hsorted as [|a l _ Hall]; subst.
    inversion Hall as [|b l' Hab _]; subst.
    destruct Hab as [Hlt|[_ Hlt]]; vm_compute in Hlt; lia.
Qed.

(** C7, amended: for each of artist, track and album, the ranking of the
    report holds 10 most frequent values of the column: distinct
    non-null values with their numbers of occurrences, 10 of them or all
    when there are fewer, in an order in which no count is followed by a
    greater one, and no value left out occurs more often than a value
    kept.  This holds whatever order the library's sort leaves equal
    counts in; that order, and with it the choice among equally frequent
    values at the cut, is not fixed.  In particular an input of exactly
    11 records with 11 distinct artists yields a ranking of exactly 10
    artists, each with count 1. *)
Theorem C7_top_content_holds_10_most_frequent_values :
  (forall sort, Spec.descending_sort sort ->
     forall col, Spec.is_top_up_to_ties 10 col (top10_by sort col)) /\
  (forall df st df',
      get_comprehensive_stats df = Ok (st, df') ->
      Spec.is_top_up_to_ties 10
        (map (@master_metadata_album_artist_name Z) (rows df))
        (top_artists (top_content st)) /\
      Spec.is_top_up_to_ties 10
        (map (@master_metadata_track_name Z) (rows df))
        (top_tracks (top_content st)) /\
      Spec.is_top_up_to_ties 10
        (map (@master_metadata_album_album_name Z) (rows df))
        (top_albums (top_content st))) /\
  (forall df st df',
      get_comprehensive_stats df = Ok (st, df') ->
      List.length (rows df) = 11%nat ->
      Forall (fun e => master_metadata_album_artist_name e <> None) (rows df) ->
      NoDup (map (@master_metadata_album_artist_name Z) (rows df)) ->
      List.length (top_artists (top_content st)) = 10%nat /\
      Forall (fun entry => snd entry = 1%nat) (top_artists (top_content st))).
Proof.
  assert (Hany : forall sort, Spec.descending_sort sort ->
            forall col, Spec.is_top_up_to_ties 10 col (top10_by sort col)).
  { intros sort Hsort col. unfold top10_by.
    now apply head_value_counts_by_is_top. }
  assert (Htop : forall df st df',
      get_comprehensive_stats df = Ok (st, df') ->
      Spec.is_top_up_to_ties 10
        (map (@master_metadata_album_artist_name Z) (rows df))
        (top_artists (top_content st)) /\
      Spec.is_top_up_to_ties 10
        (map (@master_metadata_track_name Z) (rows df))
        (top_tracks (top_content st)) /\
      Spec.is_top_up_to_ties 10
        (map (@master_metadata_album_album_name Z) (rows df))
        (top_albums (top_content st))).
  { intros df st df' Hok.
    destruct (get_comprehensive_stats_fields _ Hok) as (_ & _ & _ & _ & _ & Ht).
    rewrite Ht. cbn [top_artists top_tracks top_albums].
    split; [|split]; apply (Hany _ sort_by_count_descending). }
  split; [exact Hany|]. split; [exact Htop|].
  intros df st df' Hok Hlen Hnames Hdistinct.
  destruct (Htop _ _ _ Hok) as ((_ & Hn & Hentries & _) & _).
  assert (Hcol : Forall (fun cell : option string => cell <> None)
                        (map (@master_metadata_album_artist_name Z) (rows df))).
  { apply Forall_map. exact Hnames. }
  destruct (non_null_all Hcol Hdistinct) as [Hnd Hnn].
  split.
  - rewrite Hn. unfold Spec.distinct_values.
    rewrite (nodup_fixed_point string_dec Hnd), Hnn, length_map, Hlen.
    reflexivity.
  - apply Forall_forall. intros [v c] Hvc. simpl.
    destruct (Hentries _ _ Hvc) as [Hin ->].
    unfold Spec.occurrences.
    apply (NoDup_count_occ' Spec.cell_dec); assumption.
Qed.

Lemma C7_top_content_witness :
  Spec.is_top_up_to_ties 10 Sample.twenty
    (top10_by Sample.sort_ties_reversed Sample.twenty) /\
  exists st df',
    get_comprehensive_stats (frame_of Sample.eleven) = Ok (st, df') /\
    Spec.is_top_up_to_ties 10
      (map (@master_metadata_album_artist_name Z) Sample.eleven)
      (top_artists (top_content st)) /\
    List.length (top_artists (top_content st)) = 10%nat /\
    Forall (fun entry => snd entry = 1%nat) (top_artists (top_content st)).
Proof.
  destruct C7_top_content_holds_10_most_frequent_values
    as (Hany & Htop & Heleven).
  split; [apply Hany, sort_ties_reversed_descending|].
  destruct (get_comprehensive_stats_returns (frame_of Sample.eleven))
    as (st & df' & Hok); [discriminate|].
  exists st, df'. split; [exact Hok|].
  split; [apply (Htop _ _ _ Hok)|].
  apply (Heleven _ _ _ Hok).
  - reflexivity.
  - unfold frame_of, rows, Sample.eleven.
    apply Forall_map, Forall_forall. intros k _. discriminate.
  - assert (Hfix : nodup Spec.cell_dec
                     (map (@master_metadata_album_artist_name Z)
                          (rows (frame_of Sample.eleven)))
                   = map (@master_metadata_album_artist_name Z)
                         (rows (frame_of Sample.eleven)))
      by (vm_compute; reflexivity).
    rewrite <- Hfix. apply NoDup_nodup.
Defined.

(** With a stable sort, ties keep the order of first appearance. *)
Example top10_ties_in_first_seen_order :
  top10 [Some "b"; Some "a"; None; Some "c"; Some "a"; Some "b"]%string
  = [("b", 2%nat); ("a", 2%nat); ("c", 1%nat)]%string.
Proof. reflexivity. Qed.

(** ** The pipeline on sample data *)

(** A gap of exactly 30 minutes does not start a session; one nanosecond
    more does. *)
Example gap_of_30_minutes_continues_the_session :
  map fst (session_groups [Sample.song 0 "a"; Sample.song (Sample.minutes 30) "b"])
    = [0] /\
  map fst (session_groups
             [Sample.song 0 "a"; Sample.song (Sample.minutes 30 + 1) "b"])
    = [0; 1].
Proof. split; reflexivity. Qed.

Example sample_timestamp :
  Sample.iso8601 "2021-01-01T12:00:00Z" = Some Sample.noon /\
  Sample.iso8601_utc ["2021-01-01T12:00:00Z"; ""]%string
    = Some [Some Sample.noon; None] /\
  Sample.iso8601_utc ["2021-01-01T12:00:00Z"; "yesterday"]%string = None /\
  Calendar.hour Sample.noon = 12 /\
  Calendar.day_name Sample.noon = "Friday"%string /\
  Calendar.month Sample.noon = 1 /\
  Calendar.year Sample.noon = 2021 /\
  Calendar.str_date (Calendar.date Sample.noon) = "2021-01-01"%string.
Proof. vm_compute. repeat split. Qed.

Example sample_run :
  exists r,
    main Sample.iso8601_utc Sample.raw_history = Ok r /\
    total_tracks_played (total_stats (stats r)) = 4%nat /\
    hourly_distribution (listening_patterns (stats r))
      = [(8, 1%nat); (12, 3%nat)] /\
    daily_distribution (listening_patterns (stats r))
      = [("Friday", 3%nat); ("Sunday", 1%nat)]%string /\
    peak_hour (listening_patterns (stats r)) = 12 /\
    total_sessions (session_stats (stats r)) = 3%nat /\
    average_tracks_per_session (session_stats (stats r)) = Some (1 # 1)%Q /\
    top_tracks (top_content (stats r)) = [("a", 2%nat); ("b", 1%nat)]%string /\
    dates (daily (trends r)) = ["2021-01-01"; "2021-01-03"]%string /\
    tracks_played (daily (trends r)) = [3%nat; 0%nat] /\
    r_hours_played (rolling_averages (trends r)) = [NaN; NaN].
Proof. eexists. vm_compute. repeat split. Qed.

(** * Further properties of the analyzer *)

(** ** The structure of the sessions *)

Lemma continue_concat :
  forall l p,
    fst (Spec.continue p l) ++ List.concat (snd (Spec.continue p l)) = l.
Proof.
  induction l as [|e l IH]; intros p; simpl; auto.
  specialize (IH (ts e)).
  destruct (Spec.continue (ts e) l) as [s ss]; simpl in *.
  destruct (session_threshold <? ts e - p); simpl; now rewrite IH.
Qed.

Lemma segment_concat : forall l, List.concat (Spec.segment l) = l.
Proof.
  intros [|e l]; [reflexivity|].
  unfold Spec.segment. rewrite segment_from_continue. simpl.
  now rewrite continue_concat.
Qed.

Lemma continue_nonempty :
  forall l p, Forall (fun s => s <> []) (snd (Spec.continue p l)).
Proof.
  induction l as [|e l IH]; intros p; simpl; [constructor|].
  specialize (IH (ts e)).
  destruct (Spec.continue (ts e) l) as [s ss]; simpl in *.
  destruct (session_threshold <? ts e - p); simpl; auto.
  constructor; [discriminate|exact IH].
Qed.

Lemma segment_nonempty :
  forall l, Forall (fun s => s <> []) (Spec.segment l).
Proof.
  intros [|e l]; [constructor|].
  unfold Spec.segment. rewrite segment_from_continue.
  constructor; [discriminate|apply continue_nonempty].
Qed.

Lemma continue_sessions_count :
  forall l p,
    List.length (snd (Spec.continue p l))
    = List.length (Spec.starts p (map (@ts Z) l)).
Proof.
  induction l as [|e l IH]; intros p; simpl; auto.
  specialize (IH (ts e)).
  destruct (Spec.continue (ts e) l) as [s ss]; simpl in *.
  destruct (session_threshold <? ts e - p); simpl; now rewrite IH.
Qed.

Lemma number_from_fst :
  forall A (l : list A) k,
    map fst (Spec.number_from k l)
    = map (fun i => k + Z.of_nat i) (seq 0 (List.length l)).
Proof.
  induction l as [|x l IH]; intros k; simpl; auto.
  rewrite IH, <- seq_shift, map_map. f_equal; [lia|].
  apply map_ext. intros i. lia.
Qed.

Lemma number_from_In :
  forall A (l : list A) k g,
    In g (Spec.number_from k l) -> In (snd g) l.
Proof.
  intros A l k g Hg. rewrite <- (number_from_snd l k). now apply in_map.
Qed.

Lemma apart_cons :
  forall p s s2,
    s <> [] -> Derived.apart s s2 -> Derived.apart (p :: s) s2.
Proof.
  intros p s s2 Hs Hap s1' a b s2' H1 H2.
  destruct s1' as [|x s1']; simpl in H1.
  - inversion H1; subst. congruence.
  - inversion H1; subst. eapply Hap; eauto.
Qed.

(** The walk keeps the events of a session close and sets the sessions
    apart. *)
Lemma continue_gaps :
  forall l (p : PlayEvent),
    let c := Spec.continue (ts p) l in
    Derived.chain Derived.close (p :: fst c) /\
    Forall (Derived.chain Derived.close) (snd c) /\
    Derived.chain Derived.apart ((p :: fst c) :: snd c).
Proof.
  induction l as [|e l IH]; intros p; simpl.
  - repeat split; constructor.
  - destruct (IH e) as (Hclose & Hall & Hapart).
    destruct (Spec.continue (ts e) l) as [s ss]; simpl in *.
    destruct (Z.ltb_spec session_threshold (ts e - ts p)) as [Hgap|Hgap];
      simpl.
    + repeat split; auto.
      intros s1' a b s2' H1 H2.
      destruct s1' as [|x [|y s1']]; simpl in H1; try discriminate.
      inversion H1; inversion H2; subst. exact Hgap.
    + repeat split; auto.
      destruct ss as [|s2 ss]; [exact I|].
      destruct Hapart as [Hap Hrest]. split; [|exact Hrest].
      apply apart_cons; [discriminate|exact Hap].
Qed.

Lemma segment_gaps :
  forall l,
    Forall (Derived.chain Derived.close) (Spec.segment l) /\
    Derived.chain Derived.apart (Spec.segment l).
Proof.
  intros [|e l]; [split; constructor|].
  unfold Spec.segment. rewrite segment_from_continue.
  destruct (continue_gaps l e) as (Hclose & Hall & Hapart).
  split; [constructor; assumption|exact Hapart].
Qed.

Lemma session_groups_partition :
  forall evs, map snd (session_groups evs) = Spec.session_partition evs.
Proof. intros. now rewrite session_groups_segment, number_from_snd. Qed.

(** X3: the sessions partition the records.  Read one after the other in
    the order of their ids, the sessions are the records in chronological
    order, so that every record lies in exactly one session; no session
    is empty; and the ids are 0, 1, 2, ... without a hole. *)
Theorem X3_sessions_partition_the_sorted_records :
  forall evs,
    List.concat (map snd (session_groups evs)) = df_sorted evs /\
    Permutation evs (List.concat (map snd (session_groups evs))) /\
    StronglySorted (fun a b => ts a <= ts b)
                   (List.concat (map snd (session_groups evs))) /\
    Forall (fun g => snd g <> []) (session_groups evs) /\
    map fst (session_groups evs)
    = map Z.of_nat (seq 0 (List.length (session_groups evs))).
Proof.
  intros evs.
  assert (Hcat : List.concat (map snd (session_groups evs)) = df_sorted evs).
  { rewrite session_groups_partition. apply segment_concat. }
  split; [exact Hcat|]. rewrite Hcat.
  split; [apply df_sorted_perm|]. split; [apply df_sorted_ascending|]. split.
  - apply Forall_forall. intros g Hg.
    rewrite session_groups_segment in Hg. apply number_from_In in Hg.
    pose proof (segment_nonempty (df_sorted evs)) as Hne.
    rewrite Forall_forall in Hne. now apply Hne.
  - rewrite session_groups_segment, number_from_fst, number_from_length.
    apply map_ext. intros i. lia.
Qed.

(** X4: a session is a maximal run of events without a long silence.
    Inside a session every event comes at most 30 minutes after the one
    before it; and the first event of each session comes more than 30
    minutes after the last event of the session before it. *)
Theorem X4_sessions_are_maximal_runs :
  forall evs,
    Forall (Derived.chain Derived.close) (map snd (session_groups evs)) /\
    Derived.chain Derived.apart (map snd (session_groups evs)).
Proof.
  intros evs. rewrite session_groups_partition. apply segment_gaps.
Qed.

(** ** Session totals *)

Lemma zsum_app : forall l l', zsum (l ++ l') = zsum l + zsum l'.
Proof. induction l; intros; simpl; auto. rewrite IHl. lia. Qed.

Lemma zsum_concat :
  forall A (f : A -> Z) (gs : list (list A)),
    zsum (map (fun g => zsum (map f g)) gs) = zsum (map f (List.concat gs)).
Proof.
  induction gs as [|g gs IH]; simpl; auto.
  now rewrite map_app, zsum_app, IH.
Qed.

Lemma count_app :
  forall A (l l' : Pandas.column A),
    Pandas.count (l ++ l') = (Pandas.count l + Pandas.count l')%nat.
Proof. intros. unfold Pandas.count. now rewrite filter_app, length_app. Qed.

Lemma count_concat :
  forall A B (f : A -> option B) (gs : list (list A)),
    nsum (map (fun g => Pandas.count (map f g)) gs)
    = Pandas.count (map f (List.concat gs)).
Proof.
  induction gs as [|g gs IH]; simpl; auto.
  now rewrite map_app, count_app, IH.
Qed.

Lemma count_le_length :
  forall A (col : Pandas.column A), (Pandas.count col <= List.length col)%nat.
Proof. intros. unfold Pandas.count. apply filter_length_le. Qed.

Lemma sessions_ms_sums :
  forall evs,
    map (fun s => fst (snd s)) (sessions evs) =
    map (fun g => Pandas.sum (map (@ms_played Z) g)) (Spec.session_partition evs).
Proof.
  intros evs. unfold sessions. rewrite session_groups_segment, map_map.
  rewrite <- (number_from_snd (Spec.session_partition evs) 0) at 2.
  rewrite map_map. reflexivity.
Qed.

Lemma concat_nonempty_length :
  forall A (gs : list (list A)),
    Forall (fun g => g <> []) gs ->
    (List.length gs <= List.length (List.concat gs))%nat.
Proof.
  induction 1 as [|g gs Hg _ IH]; simpl; auto.
  rewrite length_app. destruct g; [congruence|simpl; lia].
Qed.

Lemma session_partition_length :
  forall evs,
    List.length (Spec.session_partition evs) =
    match df_sorted evs with
    | [] => O
    | _ :: _ =>
        S (List.length (Spec.boundaries (map (@ts Z) (df_sorted evs))))
    end.
Proof.
  intros evs. unfold Spec.session_partition, Spec.segment.
  destruct (df_sorted evs) as [|p l]; [reflexivity|].
  rewrite segment_from_continue. simpl. now rewrite continue_sessions_count.
Qed.

(** int64 arithmetic: a sum of wrapped sums wraps to the same value
    as the sum of the exact ones, and a sum within range does not wrap. *)
Lemma int64_add_int64 : forall a b, int64 (a + int64 b) = int64 (a + b).
Proof.
  intros a b. unfold int64. f_equal.
  replace (a + ((b + 2 ^ 63) mod 2 ^ 64 - 2 ^ 63) + 2 ^ 63)
    with (a + (b + 2 ^ 63) mod 2 ^ 64) by lia.
  rewrite Z.add_mod_idemp_r by (vm_compute; discriminate).
  f_equal. lia.
Qed.

Lemma int64_in_range :
  forall z, - 2 ^ 63 <= z < 2 ^ 63 -> int64 z = z.
Proof.
  intros z Hz. unfold int64.
  rewrite Z.mod_small; [lia|].
  change (2 ^ 64) with (2 ^ 63 + 2 ^ 63). lia.
Qed.

Lemma sum_of_sums :
  forall A (f : A -> Z) (gs : list (list A)),
    Pandas.sum (map (fun g => Pandas.sum (map f g)) gs)
    = Pandas.sum (map f (List.concat gs)).
Proof.
  intros A f gs. unfold Pandas.sum.
  rewrite <- zsum_concat.
  induction gs as [|g gs IH]; [reflexivity|].
  cbn [map zsum fold_right].
  fold (zsum (map (fun g => int64 (zsum (map f g))) gs)).
  fold (zsum (map (fun g => zsum (map f g)) gs)).
  rewrite (Z.add_comm (int64 _)), int64_add_int64, Z.add_comm.
  rewrite <- int64_add_int64, IH, int64_add_int64. reflexivity.
Qed.

Lemma zsum_group_le :
  forall A (f : A -> Z) (gs : list (list A)) g,
    Forall (fun a => 0 <= f a) (List.concat gs) -> In g gs ->
    0 <= zsum (map f g) <= zsum (map f (List.concat gs)).
Proof.
  intros A f gs g Hall Hin.
  assert (Hpos : forall l, Forall (fun a => 0 <= f a) l -> 0 <= zsum (map f l)).
  { induction 1; simpl; lia. }
  induction gs as [|h gs IH]; [contradiction|].
  simpl in Hall. apply Forall_app in Hall. destruct Hall as [Hh Hgs].
  simpl. rewrite map_app, zsum_app.
  pose proof (Hpos _ Hh). pose proof (Hpos _ Hgs).
  destruct Hin as [->|Hin]; [lia|].
  specialize (IH Hgs Hin). lia.
Qed.

(** When the total of the column is in range, so is the sum of every
    group of its rows: no group sum wraps. *)
Lemma group_sum_exact :
  forall (evs : list PlayEvent) (gs : list (list PlayEvent)) g,
    Derived.no_overflow evs ->
    Permutation (List.concat gs) evs -> In g gs ->
    Pandas.sum (map (@ms_played Z) g) = zsum (map (@ms_played Z) g) /\
    0 <= zsum (map (@ms_played Z) g).
Proof.
  intros evs gs g [Hpos Hfit] Hperm Hg.
  assert (Hall : Forall (fun e : PlayEvent => 0 <= ms_played e) (List.concat gs)).
  { apply (Permutation_Forall (Permutation_sym Hperm)), Hpos. }
  pose proof (zsum_group_le (@ms_played Z) gs g Hall Hg) as Hle.
  rewrite (zsum_perm (Permutation_map (@ms_played Z) Hperm)) in Hle.
  split; [|lia]. apply int64_in_range. lia.
Qed.

Lemma group_sums_exact :
  forall (evs : list PlayEvent) (gs : list (list PlayEvent)),
    Derived.no_overflow evs ->
    Permutation (List.concat gs) evs ->
    map (fun g => Pandas.sum (map (@ms_played Z) g)) gs
    = map (fun g => zsum (map (@ms_played Z) g)) gs.
Proof.
  intros evs gs Hfit Hperm. apply map_ext_in. intros g Hg.
  apply (@group_sum_exact evs gs g Hfit Hperm Hg).
Qed.

Lemma sessions_ms_total :
  forall evs,
    Pandas.sum (map (fun s => fst (snd s)) (sessions evs))
    = Pandas.sum (map (@ms_played Z) evs).
Proof.
  intros evs.
  pose proof (segment_concat (df_sorted evs)) as Hcat.
  fold (Spec.session_partition evs) in Hcat.
  rewrite sessions_ms_sums, sum_of_sums, Hcat.
  symmetry. apply sum_perm, Permutation_map, df_sorted_perm.
Qed.

Lemma sessions_ms_exact :
  forall evs,
    Derived.no_overflow evs ->
    zsum (map (fun s => fst (snd s)) (sessions evs))
    = zsum (map (@ms_played Z) evs).
Proof.
  intros evs Hfit.
  pose proof (segment_concat (df_sorted evs)) as Hcat.
  fold (Spec.session_partition evs) in Hcat.
  rewrite sessions_ms_sums.
  rewrite (@group_sums_exact evs (Spec.session_partition evs) Hfit).
  - rewrite zsum_concat, Hcat.
    symmetry. apply zsum_perm, Permutation_map, df_sorted_perm.
  - rewrite Hcat. apply Permutation_sym, df_sorted_perm.
Qed.

Lemma sessions_tracks_total :
  forall evs,
    nsum (map (fun s => snd (snd s)) (sessions evs))
    = Pandas.count (map (@master_metadata_track_name Z) evs).
Proof.
  intros evs.
  pose proof (segment_concat (df_sorted evs)) as Hcat.
  fold (Spec.session_partition evs) in Hcat.
  rewrite sessions_track_counts. unfold Spec.named_tracks.
  rewrite count_concat, Hcat.
  symmetry. apply count_perm, Permutation_map, df_sorted_perm.
Qed.

Lemma sessions_at_most_records :
  forall evs, (List.length (sessions evs) <= List.length evs)%nat.
Proof.
  intros evs.
  pose proof (segment_concat (df_sorted evs)) as Hcat.
  fold (Spec.session_partition evs) in Hcat.
  rewrite sessions_length, (Permutation_length (df_sorted_perm evs)), <- Hcat.
  apply concat_nonempty_length, segment_nonempty.
Qed.

(** X5: the session table accounts for every record.  The summed
    [ms_played] of the sessions add up to the total of the records (in
    the int64 arithmetic of the column: the sum of the session sums is
    the sum over the records also when sums wrap around), the
    track counts of the sessions add up to the number of records that
    have a track name, there are at most as many sessions as records,
    and a non-empty history has one session more than it has gaps longer
    than 30 minutes between chronologically consecutive records. *)
Theorem X5_session_table_accounts_for_every_record :
  forall evs,
    Pandas.sum (map (fun s => fst (snd s)) (sessions evs))
      = Pandas.sum (map (@ms_played Z) evs) /\
    nsum (map (fun s => snd (snd s)) (sessions evs))
      = Pandas.count (map (@master_metadata_track_name Z) evs) /\
    (List.length (sessions evs) <= List.length evs)%nat /\
    List.length (sessions evs) =
      match evs with
      | [] => O
      | _ :: _ =>
          S (List.length (Spec.boundaries (map (@ts Z) (df_sorted evs))))
      end.
Proof.
  intros evs.
  split; [apply sessions_ms_total|].
  split; [apply sessions_tracks_total|].
  split; [apply sessions_at_most_records|].
  rewrite sessions_length, session_partition_length.
  destruct evs as [|e evs]; [reflexivity|].
  destruct (df_sorted (e :: evs)) eqn:Es; [|reflexivity].
  pose proof (df_sorted_perm (e :: evs)) as Hperm. rewrite Es in Hperm.
  apply Permutation_sym, Permutation_nil in Hperm. discriminate.
Qed.

(** ** Averages are totals over counts *)

Lemma qsum_of_Z : forall l, (qsum (map of_Z l) == of_Z (zsum l))%Q.
Proof.
  induction l as [|z l IH]; simpl; [reflexivity|].
  rewrite IH. unfold of_Z, Qeq. simpl. lia.
Qed.

Lemma qsum_of_nat : forall l, (qsum (map of_nat l) == of_nat (nsum l))%Q.
Proof.
  induction l as [|n l IH]; simpl; [reflexivity|].
  rewrite IH. unfold of_nat, Qeq. simpl. lia.
Qed.

Lemma mean_Z_total :
  forall l, Pandas.mean_Z l = fdiv (of_Z (zsum l)) (of_nat (List.length l)).
Proof.
  intros l. unfold Pandas.mean_Z, Pandas.mean. rewrite length_map.
  apply fdiv_compat, qsum_of_Z.
Qed.

Lemma mean_nat_total :
  forall l, Pandas.mean_nat l = fdiv (of_nat (nsum l)) (of_nat (List.length l)).
Proof.
  intros l. unfold Pandas.mean_nat, Pandas.mean. rewrite length_map.
  apply fdiv_compat, qsum_of_nat.
Qed.

Lemma fdivc_fdiv :
  forall a b c, fdivc (fdiv a b) c = fdiv (a / c) b.
Proof.
  intros a b c. unfold fdivc, fdiv.
  destruct (Qeq_bool b 0); cbn [option_map]; auto.
  f_equal. apply Qred_complete. rewrite Qred_correct.
  unfold Qdiv. ring.
Qed.

(** The session averages before rounding. *)
Lemma session_tracks_average :
  forall evs,
    avg_tracks_per_session evs
      = fdiv (of_nat (Pandas.count (map (@master_metadata_track_name Z) evs)))
             (of_nat (List.length (sessions evs))).
Proof.
  intros evs. unfold avg_tracks_per_session.
  now rewrite mean_nat_total, length_map, sessions_tracks_total.
Qed.

Lemma session_minutes_average :
  forall evs,
    Derived.no_overflow evs ->
    avg_session_minutes evs
      = fdiv (of_Z (zsum (map (@ms_played Z) evs)) / of_Z (1000 * 60))
             (of_nat (List.length (sessions evs))).
Proof.
  intros evs Hfit. unfold avg_session_minutes.
  now rewrite mean_Z_total, fdivc_fdiv, length_map, sessions_ms_exact.
Qed.

Lemma get_comprehensive_stats_empty :
  forall df, rows df = [] -> get_comprehensive_stats df = Raise ArgmaxOfEmpty.
Proof. intros [evs h d m y] Hnil. simpl in Hnil. subst evs. reflexivity. Qed.

Lemma get_comprehensive_stats_nonempty :
  forall df st df',
    get_comprehensive_stats df = Ok (st, df') -> rows df <> [].
Proof.
  intros df st df' Hok Hnil.
  rewrite (get_comprehensive_stats_empty _ Hnil) in Hok. discriminate.
Qed.

(** The rest of a returned report, and the frame the call leaves. *)
Lemma get_comprehensive_stats_rest :
  forall df st df',
    get_comprehensive_stats df = Ok (st, df') ->
    let evs := rows df in
    total_stats st =
      {| total_listening_hours :=
           round2 (fdiv (of_Z (Pandas.sum (map (@ms_played Z) evs)))
                        (of_Z (1000 * 60 * 60)));
         total_listening_minutes :=
           round2 (fdiv (of_Z (Pandas.sum (map (@ms_played Z) evs)))
                        (of_Z (1000 * 60)));
         total_tracks_played := List.length evs;
         unique_artists :=
           Pandas.nunique (map (@master_metadata_album_artist_name Z) evs);
         unique_albums :=
           Pandas.nunique (map (@master_metadata_album_album_name Z) evs);
         unique_tracks :=
           Pandas.nunique (map (@master_metadata_track_name Z) evs);
         average_track_length_seconds :=
           round2 (fdivc (Pandas.mean_Z (map (@ms_played Z) evs)) (of_Z 1000)) |} /\
    behavior_stats st =
      {| skip_rate := round2 (rate (@skipped Z) evs);
         offline_rate := round2 (rate (@offline Z) evs);
         shuffle_rate := round2 (rate (@shuffle Z) evs) |} /\
    platform_stats st = Pandas.value_counts (map (fun e => Some (platform e)) evs) /\
    Pandas.idxmax (hourly_distribution (listening_patterns st))
      = Ok (peak_hour (listening_patterns st)) /\
    Pandas.idxmax (daily_distribution (listening_patterns st))
      = Ok (peak_day (listening_patterns st)) /\
    df' = {| rows := evs;
             col_hour := Some (map (fun e => Calendar.hour (ts e)) evs);
             col_day := Some (map (fun e => Calendar.day_name (ts e)) evs);
             col_month := Some (map (fun e => Calendar.month (ts e)) evs);
             col_year := Some (map (fun e => Calendar.year (ts e)) evs) |}.
Proof.
  intros df st df' H. unfold get_comprehensive_stats in H.
  destruct (Pandas.idxmax _) as [hmax| |] eqn:Eh in H; simpl in H;
    try discriminate.
  destruct (Pandas.idxmax _) as [dmax| |] eqn:Ed in H; simpl in H;
    try discriminate.
  inversion H; subst; clear H. cbn -[Pandas.value_counts Pandas.sort_index].
  repeat split; assumption.
Qed.

(** X6: the averages are totals over counts.  In every report, the
    average number of tracks per session that the analyzer computes,
    before it rounds it, is the number of records with a track name
    divided by the number of sessions; when no duration is negative and
    their total is an int64, so that no sum wraps around, the average
    session length before rounding is the total listening time in
    minutes divided by the number of sessions; and there is at least one
    session and at most one per record. *)
Theorem X6_averages_are_totals_over_counts :
  forall df st df',
    get_comprehensive_stats df = Ok (st, df') ->
    let evs := rows df in
    let n := total_sessions (session_stats st) in
    avg_tracks_per_session evs
      = fdiv (of_nat (Pandas.count (map (@master_metadata_track_name Z) evs)))
             (of_nat n) /\
    (Derived.no_overflow evs ->
     avg_session_minutes evs
       = fdiv (of_Z (zsum (map (@ms_played Z) evs)) / of_Z (1000 * 60))
              (of_nat n)) /\
    (1 <= n)%nat /\ (n <= total_tracks_played (total_stats st))%nat.
Proof.
  intros df st df' Hok evs n.
  destruct (get_comprehensive_stats_fields _ Hok) as (Htot & _ & _ & _ & Hs & _).
  subst n. rewrite Hs, Htot. cbn [total_sessions].
  split; [apply session_tracks_average|].
  split; [apply session_minutes_average|].
  split.
  - pose proof (get_comprehensive_stats_nonempty _ Hok) as Hne.
    pose proof (session_partition_not_nil Hne) as Hp.
    rewrite sessions_length.
    destruct (Spec.session_partition (rows df)); [congruence|simpl; lia].
  - apply sessions_at_most_records.
Qed.

Lemma X6_averages_witness :
  exists st df',
    get_comprehensive_stats
      (frame_of [Sample.song 0 "a"; Sample.episode (Sample.minutes 5);
                 Sample.song (Sample.minutes 50) "b"]) = Ok (st, df') /\
    avg_session_minutes
      [Sample.song 0 "a"; Sample.episode (Sample.minutes 5);
       Sample.song (Sample.minutes 50) "b"] = Some (8 # 1)%Q /\
    (1 <= total_sessions (session_stats st))%nat /\
    (total_sessions (session_stats st)
     <= total_tracks_played (total_stats st))%nat.
Proof.
  destruct (get_comprehensive_stats_returns
              (frame_of [Sample.song 0 "a"; Sample.episode (Sample.minutes 5);
                         Sample.song (Sample.minutes 50) "b"]))
    as (st & df' & Hok); [discriminate|].
  exists st, df'. split; [exact Hok|].
  destruct (X6_averages_are_totals_over_counts _ Hok)
    as (_ & Hmin & Hone & Hmost).
  split; [|split; [exact Hone|exact Hmost]].
  cbv zeta in Hmin. cbn [rows frame_of] in Hmin.
  destruct (get_comprehensive_stats_fields _ Hok) as (_ & _ & _ & _ & Hs & _).
  rewrite Hmin; [rewrite Hs; reflexivity|].
  split; [repeat constructor; vm_compute; discriminate|reflexivity].
Defined.

(** ** Behaviour rates *)

(** Rounding to the nearest integer stays within integer bounds. *)
Lemma round_half_even_bounds :
  forall (q : Q) (lo hi : Z),
    (inject_Z lo <= q)%Q -> (q <= inject_Z hi)%Q ->
    lo <= round_half_even q <= hi.
Proof.
  intros [n d] lo hi Hlo Hhi. unfold Qle in *. simpl in *.
  unfold round_half_even. cbn [Qnum Qden].
  pose proof (Z.div_mod n (Z.pos d) ltac:(lia)) as Hdm.
  pose proof (Z.mod_pos_bound n (Z.pos d) ltac:(lia)) as Hr.
  set (f := n / Z.pos d) in *. set (r := n mod Z.pos d) in *.
  assert (Hf_lo : lo <= f) by nia.
  assert (Hf_hi : f <= hi) by nia.
  assert (Hup : 0 < r -> f + 1 <= hi) by nia.
  destruct (Z.ltb_spec (2 * r) (Z.pos d)); [lia|].
  destruct (Z.ltb_spec (Z.pos d) (2 * r)); [lia|].
  destruct (Z.even f); lia.
Qed.

Lemma round2_between :
  forall (lo hi : Z) x,
    Derived.between (inject_Z lo) (inject_Z hi) x ->
    Derived.between (inject_Z lo) (inject_Z hi) (round2 x).
Proof.
  intros lo hi x (q & -> & Hlo & Hhi).
  eexists. split; [reflexivity|].
  destruct (@round_half_even_bounds (q * 100)%Q (lo * 100) (hi * 100)) as [H1 H2].
  - rewrite inject_Z_mult. apply Qmult_le_compat_r; [exact Hlo|discriminate].
  - rewrite inject_Z_mult. apply Qmult_le_compat_r; [exact Hhi|discriminate].
  - rewrite Qred_correct. unfold Qle. simpl. split; lia.
Qed.

Lemma sum_bool_count :
  forall l,
    Pandas.sum_bool l = Z.of_nat (List.length (filter (fun b : bool => b) l)).
Proof.
  unfold Pandas.sum_bool.
  induction l as [|b l IH]; [reflexivity|].
  cbn [map zsum fold_right filter]. fold (zsum (map (fun b : bool => if b then 1 else 0) l)).
  rewrite IH. destruct b; cbn [List.length]; lia.
Qed.

Lemma fmul_fdiv :
  forall a b c, fmul (fdiv a b) c = fdiv (a * c) b.
Proof.
  intros a b c. unfold fmul, fdiv.
  destruct (Qeq_bool b 0); cbn [option_map]; auto.
  f_equal. apply Qred_complete. rewrite Qred_correct.
  unfold Qdiv. ring.
Qed.

Lemma fdiv_between :
  forall (k n : nat) (c : Z),
    (0 < n)%nat -> (k <= n)%nat -> 0 <= c ->
    Derived.between (inject_Z 0) (inject_Z c)
                    (fdiv (of_Z (Z.of_nat k) * inject_Z c) (of_nat n)).
Proof.
  intros k n c Hn Hk Hc. unfold fdiv, of_nat, of_Z.
  destruct (Qeq_bool (Z.of_nat n # 1) 0) eqn:E.
  - apply Qeq_bool_eq in E. unfold Qeq in E. simpl in E. lia.
  - eexists. split; [reflexivity|]. rewrite Qred_correct.
    assert (Hpos : (0 < Z.of_nat n # 1)%Q) by (unfold Qlt; simpl; lia).
    split.
    + apply Qle_shift_div_l; [exact Hpos|].
      unfold Qle. simpl. nia.
    + apply Qle_shift_div_r; [exact Hpos|].
      unfold Qle. simpl. nia.
Qed.

Lemma rate_formula :
  forall flag evs,
    rate flag evs =
    fdiv (of_Z (Z.of_nat (List.length (filter flag evs))) * 100)
         (of_nat (List.length evs)).
Proof.
  intros flag evs. unfold rate.
  rewrite fmul_fdiv, sum_bool_count.
  do 4 f_equal. clear.
  induction evs as [|e evs IH]; simpl; auto.
  destruct (flag e); simpl; now rewrite IH.
Qed.

(** X7: the behaviour rates are percentages.  In every report each of
    [skip_rate], [offline_rate] and [shuffle_rate] is a number between 0
    and 100; what the analyzer rounds to get it is the share of the
    records with the flag set, times 100. *)
Theorem X7_behaviour_rates_are_percentages :
  forall df st df',
    get_comprehensive_stats df = Ok (st, df') ->
    let evs := rows df in
    let share (flag : PlayEvent -> bool) :=
      fdiv (of_Z (Z.of_nat (List.length (filter flag evs))) * 100)
           (of_nat (List.length evs)) in
    (rate (@skipped Z) evs = share (@skipped Z) /\
     rate (@offline Z) evs = share (@offline Z) /\
     rate (@shuffle Z) evs = share (@shuffle Z)) /\
    (Derived.between 0 100 (skip_rate (behavior_stats st)) /\
     Derived.between 0 100 (offline_rate (behavior_stats st)) /\
     Derived.between 0 100 (shuffle_rate (behavior_stats st))).
Proof.
  intros df st df' Hok evs share.
  destruct (get_comprehensive_stats_rest _ Hok) as (_ & Hb & _).
  pose proof (get_comprehensive_stats_nonempty _ Hok) as Hne.
  rewrite Hb. cbn [skip_rate offline_rate shuffle_rate].
  rewrite !rate_formula. fold evs.
  split; [repeat split|].
  assert (Hlen : (0 < List.length evs)%nat).
  { subst evs. destruct (rows df); [congruence|simpl; lia]. }
  assert (Hshare : forall flag, Derived.between 0 100 (round2 (share flag))).
  { intros flag. apply (@round2_between 0 100).
    apply (@fdiv_between (List.length (filter flag evs)) (List.length evs) 100);
      auto; try lia.
    apply filter_length_le. }
  repeat split; apply Hshare.
Qed.

Lemma X7_behaviour_rates_witness :
  exists st df',
    get_comprehensive_stats
      (frame_of [Sample.song 0 "a"; Sample.episode (Sample.minutes 5);
                 Sample.song (Sample.minutes 50) "b"]) = Ok (st, df') /\
    Derived.between 0 100 (skip_rate (behavior_stats st)) /\
    Derived.between 0 100 (offline_rate (behavior_stats st)) /\
    Derived.between 0 100 (shuffle_rate (behavior_stats st)).
Proof.
  destruct (get_comprehensive_stats_returns
              (frame_of [Sample.song 0 "a"; Sample.episode (Sample.minutes 5);
                         Sample.song (Sample.minutes 50) "b"]))
    as (st & df' & Hok); [discriminate|].
  exists st, df'. split; [exact Hok|].
  exact (proj2 (X7_behaviour_rates_are_percentages _ Hok)).
Defined.

(** ** Distributions in general *)

Section CountingCells.
Context {K : Type} `{Key K}.

Lemma cells_snoc :
  forall (k : K) col cell,
    Derived.cells k (col ++ [cell]) =
    (Derived.cells k col +
     match cell with
     | Some k' => if keq k' k then 1 else 0
     | None => 0
     end)%nat.
Proof.
  intros k col cell. unfold Derived.cells.
  rewrite filter_app, length_app. f_equal.
  destruct cell as [k'|]; simpl; [|reflexivity].
  destruct (keq k' k); reflexivity.
Qed.

Lemma cells_absent :
  forall (k : K) col, ~ In (Some k) col -> Derived.cells k col = O.
Proof.
  intros k col; induction col as [|cell col IH]; intros Hnin; [reflexivity|].
  unfold Derived.cells in *. simpl.
  destruct cell as [k'|].
  - destruct (keq_spec k' k) as [->|Hne].
    + exfalso. apply Hnin. now left.
    + apply IH. intros Hin. apply Hnin. now right.
  - apply IH. intros Hin. apply Hnin. now right.
Qed.

Lemma cells_present :
  forall (k : K) col, In (Some k) col -> (0 < Derived.cells k col)%nat.
Proof.
  intros k col; induction col as [|cell col IH]; intros Hin; [contradiction|].
  unfold Derived.cells in *. simpl.
  destruct Hin as [->|Hin].
  - destruct (keq_spec k k); [simpl; lia|congruence].
  - specialize (IH Hin).
    destruct cell as [k'|]; [destruct (keq k' k)|]; simpl; lia.
Qed.

(** The counting pass lists every distinct non-null value once, with the
    number of cells that hold it. *)
Lemma count_pass_cells :
  forall col : Pandas.column K,
    NoDup (map fst (Pandas.count_pass col)) /\
    (forall k, In k (map fst (Pandas.count_pass col)) <-> In (Some k) col) /\
    (forall k c, In (k, c) (Pandas.count_pass col) -> c = Derived.cells k col).
Proof.
  induction col as [|cell col IH] using rev_ind.
  - repeat split; simpl; try constructor; try tauto.
  - destruct IH as (Hnd & Hkeys & Hocc).
    rewrite count_pass_snoc. destruct cell as [k|].
    + destruct (bump_keys_app k (Pandas.count_pass col))
        as [[Hin Hsame]|[Hnin Happ]].
      * split; [now rewrite Hsame|]. split.
        -- intros v. rewrite Hsame, Hkeys, in_app_iff. simpl.
           split; [tauto|]. intros [Hv|[Hv|[]]]; auto.
           inversion Hv; subst. now apply Hkeys.
        -- intros v c Hvc. rewrite cells_snoc.
           destruct (bump_In_inv _ _ _ _ Hnd Hvc)
             as [(-> & -> & Hk)|[(-> & c' & -> & Hc')|(Hvk & Hv)]].
           ++ contradiction.
           ++ destruct (keq_spec k k); [|congruence].
              rewrite <- (Hocc _ _ Hc'). lia.
           ++ destruct (keq_spec k v); [congruence|].
              rewrite <- (Hocc _ _ Hv). lia.
      * assert (Hfresh : ~ In (Some k) col) by (now rewrite <- Hkeys).
        rewrite Happ, map_app. simpl map. split; [|split].
        -- eapply Permutation_NoDup; [apply Permutation_cons_append|].
           now constructor.
        -- intros v. rewrite !in_app_iff, Hkeys. simpl.
           split.
           ++ intros [Hv|[Hv|[]]]; auto. subst. auto.
           ++ intros [Hv|[Hv|[]]]; auto. inversion Hv; subst. auto.
        -- intros v c Hvc. rewrite cells_snoc.
           apply in_app_iff in Hvc. destruct Hvc as [Hvc|[Hvc|[]]].
           ++ assert (Hv : In v (map fst (Pandas.count_pass col)))
                by (apply (in_map fst) in Hvc; exact Hvc).
              destruct (keq_spec k v) as [->|_]; [contradiction|].
              rewrite <- (Hocc _ _ Hvc). lia.
           ++ inversion Hvc; subst.
              destruct (keq_spec v v); [|congruence].
              now rewrite cells_absent.
    + split; [exact Hnd|]. split.
      * intros v. rewrite Hkeys, in_app_iff. simpl.
        split; [tauto|]. intros [Hv|[Hv|[]]]; auto. discriminate.
      * intros v c Hvc. rewrite cells_snoc.
        rewrite <- (Hocc _ _ Hvc). lia.
Qed.

(** So does any rearrangement of it: [value_counts], and [value_counts]
    followed by [sort_index]. *)
Lemma counts_of_arrangement :
  forall (col : Pandas.column K) (s : Pandas.counts K),
    Permutation (Pandas.count_pass col) s ->
    NoDup (map fst s) /\
    (forall k c,
        In (k, c) s <->
        (In (Some k) col /\ c = Derived.cells k col)) /\
    Forall (fun entry => (0 < snd entry)%nat) s.
Proof.
  intros col s Hperm.
  destruct (count_pass_cells col) as (Hnd & Hkeys & Hocc).
  assert (Hin : forall k c, In (k, c) s -> In (Some k) col /\ c = Derived.cells k col).
  { intros k c Hkc.
    apply (Permutation_in _ (Permutation_sym Hperm)) in Hkc.
    split; [|now apply Hocc].
    apply Hkeys. apply (in_map fst) in Hkc. exact Hkc. }
  split; [|split].
  - eapply Permutation_NoDup; [apply Permutation_map, Hperm|exact Hnd].
  - intros k c. split; [apply Hin|].
    intros [Hk ->]. apply Hkeys, in_map_iff in Hk.
    destruct Hk as ([k' c'] & Hfst & Hkc). simpl in Hfst; subst k'.
    rewrite <- (Hocc _ _ Hkc).
    eapply Permutation_in; [exact Hperm|exact Hkc].
  - apply Forall_forall. intros [k c] Hkc. simpl.
    destruct (Hin _ _ Hkc) as [Hk ->]. now apply cells_present.
Qed.
End CountingCells.

(** [sort_index] puts distinct labels in strictly ascending order. *)
Lemma insert_by_label_sorted :
  forall V (x : Z * V) l,
    StronglySorted (fun a b => fst a <= fst b) l ->
    StronglySorted (fun a b => fst a <= fst b) (Pandas.insert_by_label x l).
Proof.
  intros V x l Hs; induction Hs as [|y l Hs IH Hall]; simpl.
  - repeat constructor.
  - destruct (Z.ltb_spec (fst y) (fst x)).
    + constructor; auto.
      eapply Permutation_Forall; [apply insert_by_label_perm|].
      constructor; auto. lia.
    + constructor; [now constructor|].
      constructor; [assumption|].
      eapply Forall_impl; [|exact Hall]. simpl. intros; lia.
Qed.

Lemma sort_index_sorted :
  forall V (s : list (Z * V)),
    NoDup (map fst s) ->
    StronglySorted (fun a b => fst a < fst b) (Pandas.sort_index s).
Proof.
  intros V s Hnd.
  assert (Hle : StronglySorted (fun a b => fst a <= fst b) (Pandas.sort_index s)).
  { clear. induction s; simpl; [constructor|now apply insert_by_label_sorted]. }
  assert (Hnd' : NoDup (map fst (Pandas.sort_index s))).
  { eapply Permutation_NoDup; [apply Permutation_map, sort_index_perm|exact Hnd]. }
  induction Hle as [|y l Hs IH Hall]; [constructor|].
  simpl in Hnd'. inversion Hnd' as [|? ? Hy Hnd'']; subst.
  constructor; [now apply IH|].
  rewrite Forall_forall in *. intros z Hz.
  specialize (Hall _ Hz).
  assert (fst y <> fst z).
  { intros Heq. apply Hy. rewrite Heq. now apply in_map. }
  lia.
Qed.

Lemma sorted_keys_bound :
  forall V (s : list (Z * V)) lo hi,
    StronglySorted (fun a b => fst a < fst b) s ->
    Forall (fun a => lo <= fst a < hi) s ->
    Z.of_nat (List.length s) <= Z.max 0 (hi - lo).
Proof.
  intros V s lo hi Hs; revert lo.
  induction Hs as [|y l Hs IH Hall]; intros lo Hb; simpl List.length; [lia|].
  inversion Hb as [|? ? Hy Hl]; subst.
  assert (Hl' : Forall (fun a => fst y + 1 <= fst a < hi) l).
  { rewrite Forall_forall in *. intros z Hz.
    specialize (Hall _ Hz). specialize (Hl _ Hz). lia. }
  specialize (IH _ Hl'). lia.
Qed.

(** ** Calendar fields *)

Lemma hour_range : forall t, 0 <= Calendar.hour t < 24.
Proof. intros t. unfold Calendar.hour. apply Z.mod_pos_bound. lia. Qed.

Lemma weekday_range : forall t, 0 <= Calendar.weekday t < 7.
Proof. intros t. unfold Calendar.weekday. apply Z.mod_pos_bound. lia. Qed.

Lemma day_name_known : forall t, In (Calendar.day_name t) Calendar.day_names.
Proof.
  intros t. unfold Calendar.day_name. apply nth_In.
  pose proof (weekday_range t). simpl. lia.
Qed.

Lemma month_range : forall t, 1 <= Calendar.month t <= 12.
Proof.
  intros t. unfold Calendar.month, Calendar.civil_from_days.
  set (z := Calendar.day_number t + 719468).
  set (doe := z - z / 146097 * 146097).
  assert (Hdoe : 0 <= doe < 146097)
    by (subst doe; Z.to_euclidean_division_equations; lia).
  clearbody doe. clear z.
  set (yoe := (doe - doe / 1460 + doe / 36524 - doe / 146096) / 365).
  set (doy := doe - (365 * yoe + yoe / 4 - yoe / 100)).
  assert (Hdoy : 0 <= doy <= 365)
    by (subst doy yoe; Z.to_euclidean_division_equations; lia).
  clearbody doy.
  set (mp := (5 * doy + 2) / 153).
  assert (Hmp : 0 <= mp <= 11)
    by (subst mp; Z.to_euclidean_division_equations; lia).
  clearbody mp.
  destruct (Z.ltb_spec mp 10); lia.
Qed.

(** ** Entries of a distribution *)

Section Entries.
Context {K : Type} `{Key K}.

Lemma cells_positive_In :
  forall (k : K) col, (0 < Derived.cells k col)%nat -> In (Some k) col.
Proof.
  intros k col; induction col as [|cell col IH]; unfold Derived.cells in *;
    simpl; [lia|].
  destruct cell as [k'|].
  - destruct (keq_spec k' k) as [->|Hne]; [now left|].
    intros Hpos. right. now apply IH.
  - intros Hpos. right. now apply IH.
Qed.

Lemma cells_of_rows :
  forall A (f : A -> K) (k : K) (rws : list A),
    Derived.cells k (map Some (map f rws))
    = List.length (filter (fun r => keq (f r) k) rws).
Proof.
  intros A f k rws. unfold Derived.cells.
  induction rws as [|r rws IH]; simpl; auto.
  destruct (keq (f r) k); simpl; now rewrite IH.
Qed.

(** A distribution over a column without nulls has an entry for a value
    exactly when some row holds it, with the number of those rows. *)
Lemma distribution_entries :
  forall A (f : A -> K) (rws : list A) (s : Pandas.counts K),
    Permutation (Pandas.count_pass (map Some (map f rws))) s ->
    NoDup (map fst s) /\
    (forall k c,
        In (k, c) s <->
        ((0 < c)%nat /\
         c = List.length (filter (fun r => keq (f r) k) rws))) /\
    (forall k, In k (map fst s) -> exists r, In r rws /\ f r = k).
Proof.
  intros A f rws s Hperm.
  destruct (counts_of_arrangement _ Hperm) as (Hnd & Hin & Hpos).
  split; [exact Hnd|]. split.
  - intros k c. rewrite Hin, cells_of_rows. split.
    + intros [Hk ->]. split; auto.
      rewrite <- cells_of_rows. now apply cells_present.
    + intros [Hc ->]. split; auto.
      apply cells_positive_In. now rewrite cells_of_rows.
  - intros k Hk. apply in_map_iff in Hk.
    destruct Hk as ([k' c] & Hfst & Hkc). simpl in Hfst; subst k'.
    apply Hin in Hkc. destruct Hkc as [Hk _].
    apply in_map_iff in Hk. destruct Hk as (k' & Hk' & Hk).
    inversion Hk'; subst k'.
    apply in_map_iff in Hk. destruct Hk as (r & Hr & Hin'). eauto.
Qed.
End Entries.

Lemma value_counts_sort_index_perm :
  forall (col : Pandas.column Z),
    Permutation (Pandas.count_pass col)
                (Pandas.sort_index (Pandas.value_counts col)).
Proof.
  intros col. eapply perm_trans; [apply sort_by_count_perm|apply sort_index_perm].
Qed.

(** X8: the hourly and the monthly distribution.  In every report the
    hourly distribution has an entry for an hour exactly when some record
    falls in that hour, its count being the number of those records; the
    hours are between 0 and 23, in strictly ascending order, so that
    there are at most 24 entries.  The same holds for the monthly
    distribution, with months between 1 and 12 and at most 12 entries. *)
Theorem X8_hourly_and_monthly_distribution :
  forall df st df',
    get_comprehensive_stats df = Ok (st, df') ->
    let evs := rows df in
    let hourly := hourly_distribution (listening_patterns st) in
    let monthly := monthly_distribution (listening_patterns st) in
    ((forall h c,
         In (h, c) hourly <->
         ((0 < c)%nat /\
          c = List.length (filter (fun e => Calendar.hour (ts e) =? h) evs))) /\
     StronglySorted (fun a b => fst a < fst b) hourly /\
     Forall (fun a => 0 <= fst a < 24) hourly /\
     (List.length hourly <= 24)%nat) /\
    ((forall m c,
         In (m, c) monthly <->
         ((0 < c)%nat /\
          c = List.length (filter (fun e => Calendar.month (ts e) =? m) evs))) /\
     StronglySorted (fun a b => fst a < fst b) monthly /\
     Forall (fun a => 1 <= fst a < 13) monthly /\
     (List.length monthly <= 12)%nat).
Proof.
  intros df st df' Hok evs hourly monthly.
  destruct (get_comprehensive_stats_fields _ Hok) as (_ & Hh & _ & Hm & _).
  cbv zeta in Hh, Hm. subst hourly monthly evs. rewrite Hh, Hm. clear Hh Hm.
  set (evs := rows df).
  assert (Hgen : forall (f : PlayEvent -> Z) lo hi,
             (forall e, lo <= f e < hi) ->
             let s := Pandas.sort_index
                        (Pandas.value_counts (map Some (map f evs))) in
             (forall k c,
                 In (k, c) s <->
                 ((0 < c)%nat /\
                  c = List.length (filter (fun e => f e =? k) evs))) /\
             StronglySorted (fun a b => fst a < fst b) s /\
             Forall (fun a => lo <= fst a < hi) s /\
             Z.of_nat (List.length s) <= Z.max 0 (hi - lo)).
  { intros f lo hi Hrange s.
    destruct (distribution_entries f evs
                (value_counts_sort_index_perm (map Some (map f evs))))
      as (Hnd & Hent & Hkeys).
    fold s in Hnd, Hent, Hkeys.
    assert (Hsorted : StronglySorted (fun a b => fst a < fst b) s).
    { apply sort_index_sorted.
      eapply Permutation_NoDup; [|exact Hnd].
      apply Permutation_map, Permutation_sym, sort_index_perm. }
    assert (Hbound : Forall (fun a => lo <= fst a < hi) s).
    { apply Forall_forall. intros a Ha.
      destruct (Hkeys (fst a)) as (e & _ & <-); [now apply in_map|].
      apply Hrange. }
    split; [exact Hent|]. split; [exact Hsorted|]. split; [exact Hbound|].
    now apply sorted_keys_bound. }
  split.
  - destruct (Hgen (fun e => Calendar.hour (ts e)) 0 24) as (H1 & H2 & H3 & H4).
    { intros e. apply hour_range. }
    cbv zeta in H1, H2, H3, H4.
    split; [exact H1|]. split; [exact H2|]. split; [exact H3|]. lia.
  - destruct (Hgen (fun e => Calendar.month (ts e)) 1 13) as (H1 & H2 & H3 & H4).
    { intros e. pose proof (month_range (ts e)). lia. }
    cbv zeta in H1, H2, H3, H4.
    split; [exact H1|]. split; [exact H2|]. split; [exact H3|]. lia.
Qed.

Lemma X8_distribution_witness :
  exists st df',
    get_comprehensive_stats
      (frame_of [Sample.song Sample.noon "a"; Sample.episode 0]) = Ok (st, df') /\
    In (12, 1%nat) (hourly_distribution (listening_patterns st)) /\
    (List.length (hourly_distribution (listening_patterns st)) <= 24)%nat /\
    (List.length (monthly_distribution (listening_patterns st)) <= 12)%nat.
Proof.
  destruct (get_comprehensive_stats_returns
              (frame_of [Sample.song Sample.noon "a"; Sample.episode 0]))
    as (st & df' & Hok); [discriminate|].
  exists st, df'. split; [exact Hok|].
  destruct (X8_hourly_and_monthly_distribution _ Hok)
    as ((Hent & _ & _ & Hlen) & (_ & _ & _ & Hlen')).
  split; [|split; assumption].
  apply Hent. split; [lia|reflexivity].
Defined.

(** ** Peaks *)

(** [idxmax] returns the label of the first entry with the largest
    count. *)
Lemma idxmax_from_first_max :
  forall K (l : Pandas.counts K) (best : K * nat),
    (Pandas.idxmax_from best l = fst best /\
     Forall (fun e => (snd e <= snd best)%nat) l) \/
    (exists l1 c l2,
        l = l1 ++ (Pandas.idxmax_from best l, c) :: l2 /\
        (snd best < c)%nat /\
        Forall (fun e => (snd e < c)%nat) l1 /\
        Forall (fun e => (snd e <= c)%nat) l2).
Proof.
  intros K l; induction l as [|x l IH]; intros best; simpl.
  - left. split; auto.
  - destruct (Nat.ltb_spec (snd best) (snd x)) as [Hlt|Hge].
    + right. destruct (IH x) as [[Hk Hall]|(l1 & c & l2 & Hl & Hc & H1 & H2)].
      * exists [], (snd x), l. rewrite Hk. simpl.
        split; [now destruct x|]. split; [exact Hlt|]. split; [constructor|exact Hall].
      * exists (x :: l1), c, l2.
        split; [simpl; f_equal; exact Hl|]. split; [lia|].
        split; [constructor; auto|exact H2].
    + destruct (IH best) as [[Hk Hall]|(l1 & c & l2 & Hl & Hc & H1 & H2)].
      * left. split; auto.
      * right. exists (x :: l1), c, l2.
        split; [simpl; f_equal; exact Hl|]. split; [exact Hc|].
        split; [constructor; [lia|exact H1]|exact H2].
Qed.

Lemma idxmax_first_max :
  forall K (s : Pandas.counts K) k,
    Pandas.idxmax s = Ok k ->
    exists l1 c l2,
      s = l1 ++ (k, c) :: l2 /\
      Forall (fun e => (snd e < c)%nat) l1 /\
      Forall (fun e => (snd e <= c)%nat) l2.
Proof.
  intros K [|x s] k Hk; simpl in Hk; [discriminate|].
  inversion Hk as [Hk']; clear Hk.
  destruct (idxmax_from_first_max s x)
    as [[Hfst Hall]|(l1 & c & l2 & Hl & Hc & H1 & H2)].
  - exists [], (snd x), s. rewrite Hfst. simpl.
    split; [now destruct x|]. split; [constructor|exact Hall].
  - exists (x :: l1), c, l2.
    split; [simpl; f_equal; exact Hl|].
    split; [constructor; [lia|exact H1]|exact H2].
Qed.

Lemma ranks_before_counts :
  forall col a b, Spec.ranks_before col a b -> (snd b <= snd a)%nat.
Proof. intros col a b [Hlt|[Heq _]]; lia. Qed.

Lemma hourly_distribution_sorted :
  forall evs,
    StronglySorted (fun a b => fst a < fst b)
      (Pandas.sort_index
         (Pandas.value_counts
            (map Some (map (fun e : PlayEvent => Calendar.hour (ts e)) evs)))).
Proof.
  intros evs. apply sort_index_sorted.
  destruct (distribution_entries (fun e : PlayEvent => Calendar.hour (ts e)) evs
              (sort_by_count_perm _)) as (Hnd & _).
  exact Hnd.
Qed.

(** X9: the peaks.  In every report [peak_hour] is an hour of the hourly
    distribution whose count no other hour exceeds, and the earliest
    such hour; [peak_day] is the weekday at the head of the daily
    distribution, whose count no other weekday exceeds. *)
Theorem X9_peaks_are_the_first_maxima :
  forall df st df',
    get_comprehensive_stats df = Ok (st, df') ->
    let p := listening_patterns st in
    (exists c,
        In (peak_hour p, c) (hourly_distribution p) /\
        forall h c',
          In (h, c') (hourly_distribution p) ->
          (c' <= c)%nat /\ (c' = c -> peak_hour p <= h)) /\
    (exists c rest,
        daily_distribution p = (peak_day p, c) :: rest /\
        Forall (fun entry => (snd entry <= c)%nat) rest).
Proof.
  intros df st df' Hok p.
  destruct (get_comprehensive_stats_rest _ Hok) as (_ & _ & _ & Hph & Hpd & _).
  fold p in Hph, Hpd.
  split.
  - pose proof (hourly_distribution_sorted (rows df)) as Hsorted.
    destruct (get_comprehensive_stats_fields _ Hok) as (_ & Hh & _).
    cbv zeta in Hh. rewrite <- Hh in Hsorted. fold p in Hsorted.
    destruct (idxmax_first_max _ Hph) as (l1 & c & l2 & Hs & H1 & H2).
    rewrite Hs in *. exists c. split; [apply in_or_app; right; now left|].
    destruct (StronglySorted_app_inv _ _ Hsorted) as (_ & Hs2 & _).
    inversion Hs2 as [|? ? _ Hafter]; subst.
    intros h c' Hin. apply in_app_or in Hin.
    rewrite Forall_forall in H1, H2, Hafter.
    destruct Hin as [Hin|[Hin|Hin]].
    + specialize (H1 _ Hin). simpl in H1. split; lia.
    + inversion Hin; subst. split; lia.
    + specialize (H2 _ Hin). specialize (Hafter _ Hin). simpl in *. split; lia.
  - destruct (get_comprehensive_stats_fields _ Hok) as (_ & _ & Hd & _).
    fold p in Hd.
    destruct (idxmax_first_max _ Hpd) as (l1 & c & l2 & Hs & H1 & H2).
    destruct (value_counts_ranking
                (map Some (map (fun e => Calendar.day_name (ts e)) (rows df))))
      as (_ & _ & _ & Hranked).
    cbv zeta in Hd. rewrite <- Hd, Hs in Hranked.
    destruct l1 as [|x l1].
    + exists c, l2. split; [exact Hs|exact H2].
    + exfalso. simpl in Hranked.
      inversion Hranked as [|? ? _ Hx]; subst.
      rewrite Forall_forall in Hx.
      assert (Hin : In (peak_day p, c) (l1 ++ (peak_day p, c) :: l2))
        by (apply in_or_app; right; now left).
      apply Hx, ranks_before_counts in Hin. simpl in Hin.
      inversion H1; subst. lia.
Qed.

Lemma X9_peaks_witness :
  exists st df',
    get_comprehensive_stats
      (frame_of [Sample.song Sample.noon "a"; Sample.episode 0;
                 Sample.song (Sample.noon + Sample.minutes 5) "b"])
      = Ok (st, df') /\
    (exists c,
        In (peak_hour (listening_patterns st), c)
           (hourly_distribution (listening_patterns st)) /\
        forall h c',
          In (h, c') (hourly_distribution (listening_patterns st)) ->
          (c' <= c)%nat /\ (c' = c -> peak_hour (listening_patterns st) <= h)) /\
    (exists c rest,
        daily_distribution (listening_patterns st)
          = (peak_day (listening_patterns st), c) :: rest /\
        Forall (fun entry => (snd entry <= c)%nat) rest).
Proof.
  destruct (get_comprehensive_stats_returns
              (frame_of [Sample.song Sample.noon "a"; Sample.episode 0;
                         Sample.song (Sample.noon + Sample.minutes 5) "b"]))
    as (st & df' & Hok); [discriminate|].
  exists st, df'. split; [exact Hok|].
  exact (X9_peaks_are_the_first_maxima _ Hok).
Defined.

(** ** Distributions by name *)

Lemma ranked_counts_descend :
  forall col (s : Pandas.counts string),
    StronglySorted (Spec.ranks_before col) s ->
    StronglySorted (fun a b => (snd b <= snd a)%nat) s.
Proof.
  intros col s. apply StronglySorted_ext_in.
  intros a b _ _. apply ranks_before_counts.
Qed.

(** A distribution over names: one entry per name that occurs, with the
    number of rows that carry it, in descending order of count. *)
Lemma named_distribution :
  forall (f : PlayEvent -> string) evs,
    let s := Pandas.value_counts (map Some (map f evs)) in
    (forall name c,
        In (name, c) s <->
        ((0 < c)%nat /\
         c = List.length (filter (fun e => String.eqb (f e) name) evs))) /\
    NoDup (map fst s) /\
    StronglySorted (fun a b => (snd b <= snd a)%nat) s /\
    (forall name, In name (map fst s) -> exists e, In e evs /\ f e = name) /\
    nsum (map snd s) = List.length evs.
Proof.
  intros f evs s.
  destruct (distribution_entries f evs (sort_by_count_perm _))
    as (Hnd & Hent & Hkeys).
  destruct (value_counts_ranking (map Some (map f evs))) as (_ & _ & _ & Hr).
  split; [exact Hent|]. split; [exact Hnd|].
  split; [eapply ranked_counts_descend; exact Hr|].
  split; [exact Hkeys|].
  subst s. now rewrite value_counts_total, length_map.
Qed.

(** X10: the distributions by platform and by weekday.  In every report
    [platform_stats] has an entry for a platform exactly when some record
    was played on it, its count being the number of those records; no
    platform is listed twice, the counts never increase down the list,
    and they add up to the number of records.  The daily distribution is
    built the same way over the weekday names, of which it lists at most
    seven. *)
Theorem X10_platform_and_weekday_distribution :
  forall df st df',
    get_comprehensive_stats df = Ok (st, df') ->
    let evs := rows df in
    let weekdays := daily_distribution (listening_patterns st) in
    ((forall name c,
         In (name, c) (platform_stats st) <->
         ((0 < c)%nat /\
          c = List.length (filter (fun e => String.eqb (platform e) name) evs))) /\
     NoDup (map fst (platform_stats st)) /\
     StronglySorted (fun a b => (snd b <= snd a)%nat) (platform_stats st) /\
     nsum (map snd (platform_stats st)) = total_tracks_played (total_stats st)) /\
    ((forall name c,
         In (name, c) weekdays <->
         ((0 < c)%nat /\
          c = List.length
                (filter (fun e => String.eqb (Calendar.day_name (ts e)) name) evs))) /\
     NoDup (map fst weekdays) /\
     StronglySorted (fun a b => (snd b <= snd a)%nat) weekdays /\
     Forall (fun entry => In (fst entry) Calendar.day_names) weekdays /\
     (List.length weekdays <= 7)%nat).
Proof.
  intros df st df' Hok evs weekdays.
  destruct (get_comprehensive_stats_fields _ Hok) as (Htot & _ & Hd & _).
  destruct (get_comprehensive_stats_rest _ Hok) as (_ & _ & Hp & _).
  cbv zeta in Htot, Hd, Hp. subst weekdays. rewrite Hd, Hp, Htot. fold evs.
  split.
  - destruct (named_distribution (@platform Z) evs)
      as (Hent & Hnd & Hsorted & _ & Hsum).
    rewrite map_map in Hent, Hnd, Hsorted, Hsum.
    split; [exact Hent|]. split; [exact Hnd|]. split; [exact Hsorted|exact Hsum].
  - destruct (named_distribution (fun e => Calendar.day_name (ts e)) evs)
      as (Hent & Hnd & Hsorted & Hkeys & _).
    split; [exact Hent|]. split; [exact Hnd|]. split; [exact Hsorted|].
    assert (Hnames : forall name,
               In name (map fst (Pandas.value_counts
                                   (map Some (map (fun e : PlayEvent =>
                                                     Calendar.day_name (ts e)) evs)))) ->
               In name Calendar.day_names).
    { intros name Hin. destruct (Hkeys _ Hin) as (e & _ & <-).
      apply day_name_known. }
    split.
    + apply Forall_forall. intros entry Hentry.
      apply Hnames. now apply in_map.
    + rewrite <- (length_map fst).
      change 7%nat with (List.length Calendar.day_names).
      apply NoDup_incl_length; [exact Hnd|exact Hnames].
Qed.

Lemma X10_distribution_witness :
  exists st df',
    get_comprehensive_stats
      (frame_of [Sample.song Sample.noon "a"; Sample.episode 0]) = Ok (st, df') /\
    In ("android"%string, 2%nat) (platform_stats st) /\
    nsum (map snd (platform_stats st)) = total_tracks_played (total_stats st) /\
    (List.length (daily_distribution (listening_patterns st)) <= 7)%nat.
Proof.
  destruct (get_comprehensive_stats_returns
              (frame_of [Sample.song Sample.noon "a"; Sample.episode 0]))
    as (st & df' & Hok); [discriminate|].
  exists st, df'. split; [exact Hok|].
  destruct (X10_platform_and_weekday_distribution _ Hok)
    as ((Hent & _ & _ & Hsum) & (_ & _ & _ & _ & Hlen)).
  split; [|split; assumption].
  apply Hent. split; [lia|reflexivity].
Defined.

(** ** Distinct values *)

Lemma nunique_distinct :
  forall col : Pandas.column string,
    Pandas.nunique col = List.length (Spec.distinct_values col).
Proof.
  intros col. unfold Pandas.nunique.
  rewrite <- value_counts_length.
  apply Permutation_length, sort_by_count_perm.
Qed.

Lemma distinct_values_length :
  forall col : Pandas.column string,
    (List.length (Spec.distinct_values col) <= List.length col)%nat.
Proof.
  intros col. unfold Spec.distinct_values.
  eapply Nat.le_trans; [|apply non_null_length].
  apply NoDup_incl_length; [apply NoDup_nodup|].
  intros v Hv. now apply nodup_In in Hv.
Qed.

(** X11: the unique counts.  In every report [unique_artists],
    [unique_albums] and [unique_tracks] are the numbers of distinct
    non-null names in their columns; none exceeds the number of records,
    and each ranking of the top content lists 10 entries, or as many as
    there are distinct names when these are fewer. *)
Theorem X11_unique_counts_are_distinct_names :
  forall df st df',
    get_comprehensive_stats df = Ok (st, df') ->
    let evs := rows df in
    let t := total_stats st in
    (unique_artists t
       = List.length (Spec.distinct_values
                        (map (@master_metadata_album_artist_name Z) evs)) /\
     unique_albums t
       = List.length (Spec.distinct_values
                        (map (@master_metadata_album_album_name Z) evs)) /\
     unique_tracks t
       = List.length (Spec.distinct_values
                        (map (@master_metadata_track_name Z) evs))) /\
    ((unique_artists t <= total_tracks_played t)%nat /\
     (unique_albums t <= total_tracks_played t)%nat /\
     (unique_tracks t <= total_tracks_played t)%nat) /\
    (List.length (top_artists (top_content st)) = Nat.min 10 (unique_artists t) /\
     List.length (top_albums (top_content st)) = Nat.min 10 (unique_albums t) /\
     List.length (top_tracks (top_content st)) = Nat.min 10 (unique_tracks t)).
Proof.
  intros df st df' Hok evs t.
  destruct (get_comprehensive_stats_fields _ Hok) as (_ & _ & _ & _ & _ & Htop).
  destruct (get_comprehensive_stats_rest _ Hok) as (Ht & _).
  cbv zeta in Ht. subst t. rewrite Ht, Htop.
  cbn [unique_artists unique_albums unique_tracks total_tracks_played
       top_artists top_albums top_tracks].
  fold evs. rewrite !nunique_distinct.
  assert (Hle : forall f : PlayEvent -> option string,
             (List.length (Spec.distinct_values (map f evs))
              <= List.length evs)%nat).
  { intros f. rewrite <- (length_map f evs). apply distinct_values_length. }
  assert (Hhead : forall col : Pandas.column string,
             List.length (top10 col)
             = Nat.min 10 (List.length (Spec.distinct_values col))).
  { intros col. unfold top10, Pandas.head.
    now rewrite length_firstn, value_counts_length. }
  repeat split; auto.
Qed.

Lemma X11_unique_counts_witness :
  exists st df',
    get_comprehensive_stats (frame_of Sample.eleven) = Ok (st, df') /\
    unique_artists (total_stats st) = 11%nat /\
    (unique_artists (total_stats st) <= total_tracks_played (total_stats st))%nat /\
    List.length (top_artists (top_content st)) = 10%nat.
Proof.
  destruct (get_comprehensive_stats_returns (frame_of Sample.eleven))
    as (st & df' & Hok); [discriminate|].
  exists st, df'. split; [exact Hok|].
  destruct (X11_unique_counts_are_distinct_names _ Hok)
    as ((Ha & _) & (Hle & _) & (Htop & _)).
  assert (H11 : unique_artists (total_stats st) = 11%nat)
    by (rewrite Ha; vm_compute; reflexivity).
  split; [exact H11|]. split; [exact Hle|].
  rewrite Htop, H11. reflexivity.
Defined.

(** ** Grouping partitions the rows *)

Section GroupPartition.
Context {A : Type} (key : A -> Z).

Lemma groups_of_nil :
  forall ks, List.concat (map (fun k => filter (fun r : A => key r =? k) []) ks) = [].
Proof. induction ks; simpl; auto. Qed.

Lemma groups_cons_absent :
  forall r rws ks,
    ~ In (key r) ks ->
    map (fun k => filter (fun r0 => key r0 =? k) (r :: rws)) ks
    = map (fun k => filter (fun r0 => key r0 =? k) rws) ks.
Proof.
  intros r rws ks Hnin. apply map_ext_in. intros k Hk. simpl.
  destruct (Z.eqb_spec (key r) k); [subst; contradiction|reflexivity].
Qed.

Lemma groups_cons_present :
  forall r rws ks,
    NoDup ks -> In (key r) ks ->
    Permutation
      (List.concat (map (fun k => filter (fun r0 => key r0 =? k) (r :: rws)) ks))
      (r :: List.concat (map (fun k => filter (fun r0 => key r0 =? k) rws) ks)).
Proof.
  intros r rws ks Hnd; induction Hnd as [|k0 ks Hk0 Hnd IH]; intros Hin.
  - contradiction.
  - cbn [map List.concat].
    assert (Hhead : filter (fun r0 => key r0 =? k0) (r :: rws)
                    = if key r =? k0
                      then r :: filter (fun r0 => key r0 =? k0) rws
                      else filter (fun r0 => key r0 =? k0) rws) by reflexivity.
    rewrite Hhead. clear Hhead.
    destruct (Z.eqb_spec (key r) k0) as [Heq|Hne].
    + subst k0. rewrite groups_cons_absent by assumption. reflexivity.
    + destruct Hin as [Hin|Hin]; [congruence|].
      eapply perm_trans; [apply Permutation_app_head, IH, Hin|].
      apply Permutation_sym, Permutation_middle.
Qed.

Lemma groups_partition :
  forall rws ks,
    NoDup ks -> (forall r, In r rws -> In (key r) ks) ->
    Permutation
      (List.concat (map (fun k => filter (fun r => key r =? k) rws) ks)) rws.
Proof.
  induction rws as [|r rws IH]; intros ks Hnd Hall.
  - rewrite groups_of_nil. constructor.
  - eapply perm_trans; [apply groups_cons_present; auto|].
    + apply Hall. now left.
    + apply perm_skip, IH; auto. intros r' Hr'. apply Hall. now right.
Qed.

Lemma groupby_groups :
  forall rws,
    map snd (Pandas.groupby (map key rws) rws)
    = map (fun k => filter (fun r => key r =? k) rws)
          (Pandas.group_keys (map key rws)).
Proof.
  intros rws. unfold Pandas.groupby. rewrite map_map. cbn [snd].
  apply map_ext. intros k. apply rows_of_key_map.
Qed.

(** Every row lies in exactly one group. *)
Lemma groupby_partition :
  forall rws,
    Permutation (List.concat (map snd (Pandas.groupby (map key rws) rws))) rws.
Proof.
  intros rws. rewrite groupby_groups. apply groups_partition.
  - apply sorted_lt_NoDup, group_keys_sorted.
  - intros r Hr. apply group_keys_In. now apply in_map.
Qed.
End GroupPartition.

Lemma daily_stats_groups :
  forall evs,
    daily_stats evs =
    map (fun d =>
           let g := Derived.on_date d evs in
           let ms := Pandas.sum (map (@ms_played Z) g) in
           {| d_date := d;
              d_ms_played := ms;
              d_track_name := Pandas.count (map (@master_metadata_track_name Z) g);
              d_skipped := Pandas.mean_bool (map (@skipped Z) g);
              d_offline := Pandas.mean_bool (map (@offline Z) g);
              d_shuffle := Pandas.mean_bool (map (@shuffle Z) g);
              d_hours_played := fdivc (Some (of_Z ms)) (of_Z (1000 * 60 * 60)) |})
        (Pandas.group_keys (map (fun e => Calendar.date (ts e)) evs)).
Proof.
  intros evs. unfold daily_stats, Pandas.groupby. rewrite map_map.
  apply map_ext. intros d. cbn [fst snd].
  now rewrite (rows_of_key_map (fun e : PlayEvent => Calendar.date (ts e)) d evs).
Qed.

Lemma daily_ms_total :
  forall evs,
    Derived.no_overflow evs ->
    zsum (map d_ms_played (daily_stats evs)) = zsum (map (@ms_played Z) evs).
Proof.
  intros evs Hfit. unfold daily_stats. rewrite map_map. cbn [d_ms_played].
  rewrite <- (map_map snd (fun g => Pandas.sum (map (@ms_played Z) g))).
  rewrite (@group_sums_exact evs _ Hfit) by apply groupby_partition.
  rewrite zsum_concat.
  apply zsum_perm, Permutation_map, groupby_partition.
Qed.

Lemma daily_tracks_total :
  forall evs,
    nsum (map d_track_name (daily_stats evs))
    = Pandas.count (map (@master_metadata_track_name Z) evs).
Proof.
  intros evs. unfold daily_stats. rewrite map_map. cbn [d_track_name].
  rewrite <- (map_map snd (fun g => Pandas.count
                                     (map (@master_metadata_track_name Z) g))).
  rewrite count_concat.
  apply count_perm, Permutation_map, groupby_partition.
Qed.

Lemma qsum_hours :
  forall l : list Z,
    (qsum (map (fun ms => Qred (of_Z ms / of_Z (1000 * 60 * 60))) l)
     == of_Z (zsum l) / of_Z (1000 * 60 * 60))%Q.
Proof.
  induction l as [|z l IH].
  - reflexivity.
  - change (Qred (of_Z z / of_Z (1000 * 60 * 60))
            + qsum (map (fun ms => Qred (of_Z ms / of_Z (1000 * 60 * 60))) l)
            == of_Z (z + zsum l) / of_Z (1000 * 60 * 60))%Q.
    rewrite IH, Qred_correct.
    assert (Hadd : (of_Z (z + zsum l) == of_Z z + of_Z (zsum l))%Q)
      by (unfold of_Z, Qeq; simpl; lia).
    rewrite Hadd. unfold Qdiv. ring.
Qed.

(** X12: the daily buckets account for every record.  Each bucket of the
    trends aggregates the records whose timestamp falls on its date, and
    only those; every bucket has at least one record; over the buckets
    the track counts add up to the number of records with a track name;
    and when no duration is negative and their total is an int64, so
    that no sum wraps around, the hours played add up to the total
    listening time in hours. *)
Theorem X12_daily_buckets_account_for_every_record :
  forall df,
    let evs := rows df in
    let t := daily (analyze_listening_trends df) in
    let index := Pandas.group_keys (map (fun e => Calendar.date (ts e)) evs) in
    dates t = map Calendar.str_date index /\
    tracks_played t
      = map (fun d => Pandas.count
                        (map (@master_metadata_track_name Z) (Derived.on_date d evs)))
            index /\
    hours_played t
      = map (fun d =>
               Some (Qred (of_Z (Pandas.sum
                                   (map (@ms_played Z) (Derived.on_date d evs)))
                           / of_Z (1000 * 60 * 60))))
            index /\
    skip_rates t
      = map (fun d => Pandas.mean_bool (map (@skipped Z) (Derived.on_date d evs)))
            index /\
    offline_rates t
      = map (fun d => Pandas.mean_bool (map (@offline Z) (Derived.on_date d evs)))
            index /\
    shuffle_rates t
      = map (fun d => Pandas.mean_bool (map (@shuffle Z) (Derived.on_date d evs)))
            index /\
    Forall (fun d => Derived.on_date d evs <> []) index /\
    nsum (tracks_played t)
      = Pandas.count (map (@master_metadata_track_name Z) evs) /\
    (Derived.no_overflow evs ->
     (qsum (Spec.non_null (hours_played t))
      == of_Z (zsum (map (@ms_played Z) evs)) / of_Z (1000 * 60 * 60))%Q).
Proof.
  intros df evs t index. subst t. unfold analyze_listening_trends.
  cbn [daily dates tracks_played hours_played skip_rates offline_rates
       shuffle_rates]. fold evs.
  split; [|split; [|split; [|split; [|split; [|split; [|split; [|split]]]]]]].
  - rewrite daily_stats_groups, !map_map. reflexivity.
  - rewrite daily_stats_groups, !map_map. reflexivity.
  - rewrite daily_stats_groups, !map_map. reflexivity.
  - rewrite daily_stats_groups, !map_map. reflexivity.
  - rewrite daily_stats_groups, !map_map. reflexivity.
  - rewrite daily_stats_groups, !map_map. reflexivity.
  - apply Forall_forall. intros d Hd.
    apply group_keys_In, in_map_iff in Hd. destruct Hd as (e & He & Hin).
    intros Hnil.
    assert (Hf : In e (Derived.on_date d evs)).
    { apply filter_In. split; auto. now apply Z.eqb_eq. }
    rewrite Hnil in Hf. contradiction.
  - apply daily_tracks_total.
  - intros Hfit. rewrite <- (daily_ms_total Hfit).
    assert (Hh : map d_hours_played (daily_stats evs)
                 = map Some (map (fun ms => Qred (of_Z ms / of_Z (1000 * 60 * 60)))
                                 (map d_ms_played (daily_stats evs)))).
    { unfold daily_stats. rewrite !map_map. reflexivity. }
    rewrite Hh.
    assert (Hnn : forall l : list Q, Spec.non_null (map Some l) = l).
    { induction l; simpl; congruence. }
    rewrite Hnn. apply qsum_hours.
Qed.

Lemma X12_daily_buckets_witness :
  (qsum (Spec.non_null
           (hours_played
              (daily (analyze_listening_trends
                        (frame_of [Sample.song Sample.noon "a";
                                   Sample.episode 0%Z])))))
   == of_Z 780000%Z / of_Z (1000 * 60 * 60)%Z)%Q.
Proof.
  apply (X12_daily_buckets_account_for_every_record
           (frame_of [Sample.song Sample.noon "a"; Sample.episode 0])).
  split; [repeat constructor; vm_compute; discriminate|reflexivity].
Defined.

(** ** Daily rates and hours *)

Lemma mean_bool_share :
  forall l : list bool,
    Pandas.mean_bool l =
    fdiv (of_Z (Z.of_nat (List.length (filter (fun b : bool => b) l)))
          * inject_Z 1)
         (of_nat (List.length l)).
Proof.
  intros l. unfold Pandas.mean_bool, Pandas.mean. rewrite length_map.
  apply fdiv_compat.
  induction l as [|b l IH]; [reflexivity|].
  change (((if b then 1 else 0) + qsum (map (fun b : bool => if b then 1 else 0) l)
           == of_Z (Z.of_nat (List.length (filter (fun b : bool => b) (b :: l))))
              * inject_Z 1)%Q).
  rewrite IH. destruct b; cbn [filter List.length].
  - rewrite Nat2Z.inj_succ.
    unfold of_Z, Qeq, Qplus, Qmult, inject_Z. cbn [Qnum Qden]. lia.
  - unfold of_Z, Qeq, Qplus, Qmult, inject_Z. cbn [Qnum Qden]. lia.
Qed.

Lemma mean_bool_between :
  forall l : list bool, l <> [] -> Derived.between 0 1 (Pandas.mean_bool l).
Proof.
  intros l Hl. rewrite mean_bool_share.
  apply (@fdiv_between (List.length (filter (fun b : bool => b) l))
                       (List.length l) 1).
  - destruct l; [congruence|simpl; lia].
  - apply filter_length_le.
  - lia.
Qed.

(** X13: the daily rates are fractions.  In the trends every daily
    skip, offline and shuffle rate is a number between 0 and 1 (a
    fraction of the day's records, not a percentage); and when no
    duration is negative and their total is an int64, so that no sum
    wraps around, no day has negative hours. *)
Theorem X13_daily_rates_are_fractions :
  forall df,
    let t := daily (analyze_listening_trends df) in
    (Forall (Derived.between 0 1) (skip_rates t) /\
     Forall (Derived.between 0 1) (offline_rates t) /\
     Forall (Derived.between 0 1) (shuffle_rates t)) /\
    (Derived.no_overflow (rows df) ->
     Forall (fun x => exists q, x = Some q /\ (0 <= q)%Q) (hours_played t)).
Proof.
  intros df t. subst t. unfold analyze_listening_trends.
  cbn [daily hours_played skip_rates offline_rates shuffle_rates].
  assert (Hgroup : forall g,
             In g (Pandas.groupby
                     (map (fun e => Calendar.date (ts e)) (rows df)) (rows df)) ->
             snd g <> [] /\ incl (snd g) (rows df)).
  { intros g Hg. split.
    - now apply (groupby_map_nonempty
                   (fun e : PlayEvent => Calendar.date (ts e)) (rows df)).
    - unfold Pandas.groupby in Hg. apply in_map_iff in Hg.
      destruct Hg as (k & <- & _). cbn [snd].
      rewrite (rows_of_key_map (fun e : PlayEvent => Calendar.date (ts e))).
      intros e He. apply filter_In in He. tauto. }
  assert (Hrate : forall flag : PlayEvent -> bool,
             Forall (Derived.between 0 1)
                    (map (fun g => Pandas.mean_bool (map flag (snd g)))
                         (Pandas.groupby
                            (map (fun e => Calendar.date (ts e)) (rows df))
                            (rows df)))).
  { intros flag. apply Forall_map, Forall_forall. intros g Hg.
    apply mean_bool_between. intros Hnil. apply map_eq_nil in Hnil.
    now apply (proj1 (Hgroup g Hg)). }
  unfold daily_stats. rewrite !map_map.
  cbn [d_skipped d_offline d_shuffle d_hours_played].
  split; [repeat split; apply Hrate|].
  intros Hms. apply Forall_forall. intros x Hx.
  apply in_map_iff in Hx. destruct Hx as (g & <- & Hg).
  eexists. split; [reflexivity|]. rewrite Qred_correct.
  apply Qle_shift_div_l; [reflexivity|].
  assert (Hsum : 0 <= Pandas.sum (map (@ms_played Z) (snd g))).
  { destruct (@group_sum_exact (rows df)
                (map snd (Pandas.groupby
                            (map (fun e => Calendar.date (ts e)) (rows df))
                            (rows df)))
                (snd g) Hms) as [Hexact Hpos].
    - apply groupby_partition.
    - now apply in_map.
    - rewrite Hexact. exact Hpos. }
  unfold of_Z, Qle. simpl. lia.
Qed.

Lemma X13_daily_rates_witness :
  Forall (fun x => exists q, x = Some q /\ (0 <= q)%Q)
         (hours_played
            (daily (analyze_listening_trends
                      (frame_of [Sample.song Sample.noon "a"; Sample.episode 0])))).
Proof.
  apply (proj2 (X13_daily_rates_are_fractions
                  (frame_of [Sample.song Sample.noon "a"; Sample.episode 0]))).
  split; [repeat constructor; vm_compute; discriminate|reflexivity].
Defined.

(** ** The order of the records *)

Lemma sorted_lt_le :
  forall l, StronglySorted Z.lt l -> StronglySorted Z.le l.
Proof.
  intros l. apply StronglySorted_ext_in. intros a b _ _. apply Z.lt_le_incl.
Qed.

Lemma group_keys_perm :
  forall k1 k2,
    Permutation k1 k2 -> Pandas.group_keys k1 = Pandas.group_keys k2.
Proof.
  intros k1 k2 Hp. apply sorted_stamps_unique.
  - apply sorted_lt_le, group_keys_sorted.
  - apply sorted_lt_le, group_keys_sorted.
  - apply NoDup_Permutation.
    + apply sorted_lt_NoDup, group_keys_sorted.
    + apply sorted_lt_NoDup, group_keys_sorted.
    + intros k. rewrite !group_keys_In. split; apply Permutation_in; auto.
      now apply Permutation_sym.
Qed.

Lemma qsum_perm : forall l l', Permutation l l' -> (qsum l == qsum l')%Q.
Proof.
  induction 1 as [|x l l' _ IH|x y l|l l' l'' _ IH1 _ IH2]; simpl.
  - reflexivity.
  - now rewrite IH.
  - ring.
  - now rewrite IH1.
Qed.

Lemma mean_perm :
  forall l l', Permutation l l' -> Pandas.mean l = Pandas.mean l'.
Proof.
  intros l l' Hp. unfold Pandas.mean.
  rewrite (Permutation_length Hp). apply fdiv_compat, qsum_perm, Hp.
Qed.

Lemma daily_stats_perm :
  forall l1 l2, Permutation l1 l2 -> daily_stats l1 = daily_stats l2.
Proof.
  intros l1 l2 Hp. rewrite !daily_stats_groups.
  rewrite (group_keys_perm
             (Permutation_map (fun e : PlayEvent => Calendar.date (ts e)) Hp)).
  apply map_ext. intros d.
  assert (Hg : Permutation (Derived.on_date d l1) (Derived.on_date d l2))
    by (apply filter_perm, Hp).
  cbv zeta. unfold Pandas.sum, Pandas.mean_bool.
  rewrite (zsum_perm (Permutation_map (@ms_played Z) Hg)).
  rewrite (count_perm (Permutation_map (@master_metadata_track_name Z) Hg)).
  rewrite (mean_perm (Permutation_map (fun b : bool => if b then 1%Q else 0%Q)
                        (Permutation_map (@skipped Z) Hg))).
  rewrite (mean_perm (Permutation_map (fun b : bool => if b then 1%Q else 0%Q)
                        (Permutation_map (@offline Z) Hg))).
  rewrite (mean_perm (Permutation_map (fun b : bool => if b then 1%Q else 0%Q)
                        (Permutation_map (@shuffle Z) Hg))).
  reflexivity.
Qed.

(** X14: the trends do not depend on the order of the records.  Two
    frames whose rows are the same records in different orders have the
    same trends: the same dates, daily series and rolling averages. *)
Theorem X14_trends_ignore_the_order_of_the_records :
  forall df1 df2,
    Permutation (rows df1) (rows df2) ->
    analyze_listening_trends df1 = analyze_listening_trends df2.
Proof.
  intros df1 df2 Hp. unfold analyze_listening_trends.
  now rewrite (daily_stats_perm Hp).
Qed.

Lemma X14_trends_witness :
  analyze_listening_trends
    (frame_of [Sample.song Sample.noon "a"; Sample.episode 0;
               Sample.song (Sample.noon + Sample.minutes 5) "b"])
  = analyze_listening_trends
      (frame_of [Sample.song (Sample.noon + Sample.minutes 5) "b";
                 Sample.episode 0; Sample.song Sample.noon "a"]).
Proof.
  apply X14_trends_ignore_the_order_of_the_records.
  apply Permutation_rev.
Defined.

Lemma sessions_perm :
  forall l1 l2 : list PlayEvent,
    Permutation l1 l2 -> sessions l1 = sessions l2.
Proof.
  intros l1 l2 Hp.
  pose proof (df_sorted_stamps_perm Hp) as Hts.
  assert (Hsorted : Permutation (df_sorted l1) (df_sorted l2)).
  { eapply perm_trans; [apply Permutation_sym, df_sorted_perm|].
    eapply perm_trans; [exact Hp|apply df_sorted_perm]. }
  assert (Hid : session_id l1 = session_id l2).
  { rewrite !session_id_by_timestamp, Hts.
    rewrite <- !(map_map (@ts Z)
                   (fun t => Spec.session_of
                               (Spec.boundaries (map (@ts Z) (df_sorted l2))) t)).
    now rewrite Hts. }
  unfold sessions.
  rewrite !session_groups_by_timestamp, Hid, Hts, !map_map. cbn [fst snd].
  apply map_ext. intros k. f_equal. f_equal.
  - apply sum_perm, Permutation_map, filter_perm, Hsorted.
  - apply count_perm, Permutation_map, filter_perm, Hsorted.
Qed.

Lemma distinct_values_perm :
  forall col col' : Pandas.column string,
    Permutation col col' ->
    List.length (Spec.distinct_values col)
    = List.length (Spec.distinct_values col').
Proof.
  intros col col' Hp. apply Permutation_length, NoDup_Permutation.
  - apply NoDup_nodup.
  - apply NoDup_nodup.
  - intros v. unfold Spec.distinct_values.
    rewrite !nodup_In, !non_null_In.
    split; apply Permutation_in; auto. now apply Permutation_sym.
Qed.

Lemma NoDup_keys_entries :
  forall K V (s : list (K * V)), NoDup (map fst s) -> NoDup s.
Proof.
  intros K V s; induction s as [|x s IH]; simpl; intros Hnd; constructor.
  - inversion Hnd; subst. intros Hin. apply (in_map fst) in Hin. contradiction.
  - inversion Hnd; subst. auto.
Qed.

Section ArrangementsOfCounts.
Context {K : Type} `{Key K}.

(** Distributions of the same rows in another order list the same
    entries. *)
Lemma distribution_perm :
  forall A (f : A -> K) (l1 l2 : list A) (s1 s2 : Pandas.counts K),
    Permutation l1 l2 ->
    Permutation (Pandas.count_pass (map Some (map f l1))) s1 ->
    Permutation (Pandas.count_pass (map Some (map f l2))) s2 ->
    Permutation s1 s2.
Proof.
  intros A f l1 l2 s1 s2 Hp H1 H2.
  destruct (distribution_entries f l1 H1) as (Hnd1 & Hent1 & _).
  destruct (distribution_entries f l2 H2) as (Hnd2 & Hent2 & _).
  apply NoDup_Permutation; try (now apply NoDup_keys_entries).
  intros [k c]. rewrite Hent1, Hent2.
  now rewrite (Permutation_length (filter_perm (fun r => keq (f r) k) Hp)).
Qed.
End ArrangementsOfCounts.

Lemma sort_index_value_counts_perm :
  forall (f : PlayEvent -> Z) l1 l2,
    Permutation l1 l2 ->
    Pandas.sort_index (Pandas.value_counts (map Some (map f l1)))
    = Pandas.sort_index (Pandas.value_counts (map Some (map f l2))).
Proof.
  intros f l1 l2 Hp.
  pose proof (value_counts_sort_index_perm (map Some (map f l1))) as H1.
  pose proof (value_counts_sort_index_perm (map Some (map f l2))) as H2.
  assert (Hsorted : forall l,
             StronglySorted (fun a b : Z * nat => fst a < fst b)
               (Pandas.sort_index (Pandas.value_counts (map Some (map f l))))).
  { intros l. apply sort_index_sorted.
    destruct (distribution_entries f l (sort_by_count_perm _)) as (Hnd & _).
    exact Hnd. }
  apply ascending_arrangement_unique with (by_ := @fst Z nat).
  - apply Hsorted.
  - eapply StronglySorted_ext_in; [|apply Hsorted].
    intros a b _ _. unfold Spec.ascending. lia.
  - exact (distribution_perm f Hp H1 H2).
Qed.

(** X15: what the order of the records can change in the report.  Two
    frames with the same records in different orders get reports with
    the same totals, behaviour rates, session statistics, hourly and
    monthly distributions and peak hour; their platform and weekday
    distributions list the same entries, possibly in another order
    (entries with equal counts). *)
Theorem X15_report_depends_on_record_order_only_through_ties :
  forall df1 df2 st1 st2 df1' df2',
    Permutation (rows df1) (rows df2) ->
    get_comprehensive_stats df1 = Ok (st1, df1') ->
    get_comprehensive_stats df2 = Ok (st2, df2') ->
    total_stats st1 = total_stats st2 /\
    behavior_stats st1 = behavior_stats st2 /\
    session_stats st1 = session_stats st2 /\
    hourly_distribution (listening_patterns st1)
      = hourly_distribution (listening_patterns st2) /\
    monthly_distribution (listening_patterns st1)
      = monthly_distribution (listening_patterns st2) /\
    peak_hour (listening_patterns st1) = peak_hour (listening_patterns st2) /\
    Permutation (daily_distribution (listening_patterns st1))
                (daily_distribution (listening_patterns st2)) /\
    Permutation (platform_stats st1) (platform_stats st2).
Proof.
  intros df1 df2 st1 st2 df1' df2' Hp Hok1 Hok2.
  destruct (get_comprehensive_stats_fields _ Hok1) as (_ & Hh1 & Hd1 & Hm1 & Hs1 & _).
  destruct (get_comprehensive_stats_fields _ Hok2) as (_ & Hh2 & Hd2 & Hm2 & Hs2 & _).
  destruct (get_comprehensive_stats_rest _ Hok1) as (Ht1 & Hb1 & Hp1 & Hph1 & _).
  destruct (get_comprehensive_stats_rest _ Hok2) as (Ht2 & Hb2 & Hp2 & Hph2 & _).
  cbv zeta in *.
  assert (Hhour : hourly_distribution (listening_patterns st1)
                  = hourly_distribution (listening_patterns st2)).
  { rewrite Hh1, Hh2. now apply sort_index_value_counts_perm. }
  split; [|split; [|split; [|split; [|split; [|split; [|split]]]]]].
  - rewrite Ht1, Ht2. unfold Pandas.sum.
    rewrite !nunique_distinct, !mean_Z_total, !length_map.
    rewrite (zsum_perm (Permutation_map (@ms_played Z) Hp)).
    rewrite (Permutation_length Hp).
    rewrite (distinct_values_perm
               (Permutation_map (@master_metadata_album_artist_name Z) Hp)).
    rewrite (distinct_values_perm
               (Permutation_map (@master_metadata_album_album_name Z) Hp)).
    rewrite (distinct_values_perm
               (Permutation_map (@master_metadata_track_name Z) Hp)).
    reflexivity.
  - rewrite Hb1, Hb2. rewrite !rate_formula.
    rewrite (Permutation_length Hp).
    rewrite (Permutation_length (filter_perm (@skipped Z) Hp)).
    rewrite (Permutation_length (filter_perm (@offline Z) Hp)).
    rewrite (Permutation_length (filter_perm (@shuffle Z) Hp)).
    reflexivity.
  - rewrite Hs1, Hs2. unfold avg_session_minutes, avg_tracks_per_session.
    now rewrite (sessions_perm Hp).
  - exact Hhour.
  - rewrite Hm1, Hm2. now apply sort_index_value_counts_perm.
  - rewrite Hhour in Hph1. rewrite Hph1 in Hph2. now inversion Hph2.
  - rewrite Hd1, Hd2.
    exact (distribution_perm (fun e : PlayEvent => Calendar.day_name (ts e)) Hp
             (sort_by_count_perm _) (sort_by_count_perm _)).
  - rewrite Hp1, Hp2.
    rewrite <- !(map_map (@platform Z) Some).
    exact (distribution_perm (@platform Z) Hp
             (sort_by_count_perm _) (sort_by_count_perm _)).
Qed.

Lemma X15_record_order_witness :
  exists st1 st2 df1' df2',
    get_comprehensive_stats
      (frame_of [Sample.song Sample.noon "a"; Sample.episode 0;
                 Sample.song (Sample.noon + Sample.minutes 5) "b"])
      = Ok (st1, df1') /\
    get_comprehensive_stats
      (frame_of [Sample.song (Sample.noon + Sample.minutes 5) "b";
                 Sample.episode 0; Sample.song Sample.noon "a"])
      = Ok (st2, df2') /\
    total_stats st1 = total_stats st2 /\
    behavior_stats st1 = behavior_stats st2 /\
    session_stats st1 = session_stats st2 /\
    hourly_distribution (listening_patterns st1)
      = hourly_distribution (listening_patterns st2) /\
    monthly_distribution (listening_patterns st1)
      = monthly_distribution (listening_patterns st2) /\
    peak_hour (listening_patterns st1) = peak_hour (listening_patterns st2) /\
    Permutation (daily_distribution (listening_patterns st1))
                (daily_distribution (listening_patterns st2)) /\
    Permutation (platform_stats st1) (platform_stats st2).
Proof.
  destruct (get_comprehensive_stats_returns
              (frame_of [Sample.song Sample.noon "a"; Sample.episode 0;
                         Sample.song (Sample.noon + Sample.minutes 5) "b"]))
    as (st1 & df1' & Hok1); [discriminate|].
  destruct (get_comprehensive_stats_returns
              (frame_of [Sample.song (Sample.noon + Sample.minutes 5) "b";
                         Sample.episode 0; Sample.song Sample.noon "a"]))
    as (st2 & df2' & Hok2); [discriminate|].
  exists st1, st2, df1', df2'.
  split; [exact Hok1|]. split; [exact Hok2|].
  apply (@X15_report_depends_on_record_order_only_through_ties
           (frame_of [Sample.song Sample.noon "a"; Sample.episode 0;
                      Sample.song (Sample.noon + Sample.minutes 5) "b"])
           (frame_of [Sample.song (Sample.noon + Sample.minutes 5) "b";
                      Sample.episode 0; Sample.song Sample.noon "a"])
           st1 st2 df1' df2').
  - apply Permutation_rev.
  - exact Hok1.
  - exact Hok2.
Defined.

(** ** A history of one record *)

Lemma rolling_mean_single :
  forall x : float, Pandas.rolling_mean 7 [x] = [NaN].
Proof. intros [q|]; reflexivity. Qed.

Lemma daily_stats_single :
  forall e : PlayEvent,
    daily_stats [e] =
    [ {| d_date := Calendar.date (ts e);
         d_ms_played := Pandas.sum [ms_played e];
         d_track_name := Pandas.count [master_metadata_track_name e];
         d_skipped := Pandas.mean_bool [skipped e];
         d_offline := Pandas.mean_bool [offline e];
         d_shuffle := Pandas.mean_bool [shuffle e];
         d_hours_played :=
           fdivc (Some (of_Z (Pandas.sum [ms_played e])))
                 (of_Z (1000 * 60 * 60)) |} ].
Proof.
  intros e. rewrite daily_stats_groups.
  cbn [map Pandas.group_keys fold_right Pandas.insert_key].
  unfold Derived.on_date. cbn [filter]. rewrite Z.eqb_refl. reflexivity.
Qed.

(** X17: a history of a single record.  It makes one session and one
    daily bucket: the report counts 1 record and 1 session, the average
    number of tracks per session is 1 if the record has a track name and
    0 if it has none, each distribution has the single entry of the
    record with count 1, the peaks are the record's hour and weekday,
    and the trends hold one date whose rolling averages are all NaN. *)
Theorem X17_history_of_a_single_record :
  forall e : PlayEvent,
    exists st df',
      get_comprehensive_stats (frame_of [e]) = Ok (st, df') /\
      total_tracks_played (total_stats st) = 1%nat /\
      total_sessions (session_stats st) = 1%nat /\
      average_tracks_per_session (session_stats st)
        = match master_metadata_track_name e with
          | Some _ => Some (1 # 1)%Q
          | None => Some (0 # 1)%Q
          end /\
      hourly_distribution (listening_patterns st)
        = [(Calendar.hour (ts e), 1%nat)] /\
      daily_distribution (listening_patterns st)
        = [(Calendar.day_name (ts e), 1%nat)] /\
      monthly_distribution (listening_patterns st)
        = [(Calendar.month (ts e), 1%nat)] /\
      peak_hour (listening_patterns st) = Calendar.hour (ts e) /\
      peak_day (listening_patterns st) = Calendar.day_name (ts e) /\
      platform_stats st = [(platform e, 1%nat)] /\
      let t := analyze_listening_trends df' in
      dates (daily t) = [Calendar.str_date (Calendar.date (ts e))] /\
      tracks_played (daily t)
        = [match master_metadata_track_name e with
           | Some _ => 1%nat
           | None => O
           end] /\
      r_hours_played (rolling_averages t) = [NaN] /\
      r_tracks_played (rolling_averages t) = [NaN] /\
      r_skip_rates (rolling_averages t) = [NaN] /\
      r_offline_rates (rolling_averages t) = [NaN] /\
      r_shuffle_rates (rolling_averages t) = [NaN].
Proof.
  intros e.
  destruct (get_comprehensive_stats_returns (frame_of [e]))
    as (st & df' & Hok); [discriminate|].
  exists st, df'. split; [exact Hok|].
  destruct (get_comprehensive_stats_fields _ Hok)
    as (Htot & Hh & Hd & Hm & Hs & _).
  destruct (get_comprehensive_stats_rest _ Hok)
    as (_ & _ & Hp & Hph & Hpd & _).
  pose proof (stats_leaves_rows _ Hok) as Hrows.
  cbv zeta in *. cbn [rows frame_of] in *.
  rewrite Hh in Hph. rewrite Hd in Hpd.
  split; [exact Htot|].
  split; [now rewrite Hs|].
  split.
  { rewrite Hs. cbn [average_tracks_per_session].
    destruct e as [t ms [track|] artist album pf sk off sh]; reflexivity. }
  split; [exact Hh|]. split; [exact Hd|]. split; [exact Hm|].
  split; [now inversion Hph|]. split; [now inversion Hpd|].
  split; [exact Hp|].
  unfold analyze_listening_trends. rewrite Hrows, daily_stats_single.
  cbn [map daily rolling_averages dates tracks_played r_hours_played
       r_tracks_played r_skip_rates r_offline_rates r_shuffle_rates
       d_date d_track_name d_hours_played d_skipped d_offline d_shuffle
       int_column].
  rewrite !rolling_mean_single.
  repeat split.
  destruct (master_metadata_track_name e); reflexivity.
Qed.
